(** * ipcalc-go: package [calculator] and the command-line handlers

    A shallow embedding of the IPv4 engine ([ParseIPv4], [ParseNetmask],
    [isValidNetmask], [IPToString], [GetClass], [GetClassBits],
    [CalculateNetwork], [GetWildcardMask], [IsPrivate], [Deaggregate],
    [SplitNetwork], [FormatBinary]), of the IPv6 engine ([ParseIPv6],
    [ParseIPv6Prefix], [IPv6ToNetworkID], [CalculateIPv6Network],
    [FormatIPv6Binary]) and of the handlers [handleClassOnly],
    [handleDeaggregate], [handleSplit] and [handleNormal] of
    [cmd/ipcalc/main.go].

    Conventions.
    - A Go [uint32] is a [Z] in [0, 2^32); every operation that can leave
      that interval is followed by an explicit reduction modulo [2^32].
    - A Go [string] is a [string] (a sequence of bytes); a [*big.Int] is
      a [Z].
    - A Go [error] is its message, a [string]; [(T, error)] is [result T].
    - A [for] loop with no static bound takes a fuel argument and returns
      [None] when the fuel runs out before the loop exits. *)

From Stdlib Require Import ZArith List String Ascii Bool Lia Sorted.
From Stdlib.Strings Require Import Byte.
From Stdlib Require Import DecimalString.
Import ListNotations.

Local Open Scope string_scope.
Local Open Scope list_scope.
Local Open Scope Z_scope.

(** String concatenation, kept apart from list concatenation. *)
Infix "+++" := String.append (right associativity, at level 60).

(** ** Results *)

Inductive result (A : Type) : Type :=
| Ok (a : A)
| Err (msg : string).
Arguments Ok {A} a.
Arguments Err {A} msg.

Definition is_ok {A} (r : result A) : bool :=
  match r with Ok _ => true | Err _ => false end.

(** ** 32-bit unsigned arithmetic *)

Module U32.

Definition modulus : Z := 2 ^ 32.

Definition wrap (z : Z) : Z := z mod modulus.

Definition add (a b : Z) : Z := wrap (a + b).
Definition sub (a b : Z) : Z := wrap (a - b).
Definition mul (a b : Z) : Z := wrap (a * b).

(** Go: a shift count of 32 or more yields 0 for an unsigned operand,
    which is what the reduction of [a * 2^n] gives. *)
Definition shl (a n : Z) : Z := wrap (Z.shiftl a n).
Definition shr (a n : Z) : Z := Z.shiftr a n.

(** Go: [^a] on a [uint32]. *)
Definition not (a : Z) : Z := wrap (Z.lnot a).

End U32.

(** ** The Go standard library functions the package calls

  These are not code of the repository; they are written after the
  behaviour of Go 1.24 (the toolchain the release workflow installs). *)

Definition code (c : ascii) : Z := Z.of_N (N_of_ascii c).

Definition is_digit (c : ascii) : bool := (48 <=? code c) && (code c <=? 57).

Module strings.

(** [strings.TrimPrefix(s, "/")]. *)
Definition TrimPrefix (s prefix : string) : string :=
  if String.prefix prefix s
  then substring (String.length prefix) (String.length s - String.length prefix) s
  else s.

(** [strings.Contains(s, ":")], for a one-byte needle. *)
Fixpoint ContainsByte (s : string) (c : ascii) : bool :=
  match s with
  | EmptyString => false
  | String x r => Ascii.eqb x c || ContainsByte r c
  end.

(** [strings.Join(parts, sep)]. *)
Fixpoint Join (parts : list string) (sep : string) : string :=
  match parts with
  | [] => ""
  | [a] => a
  | a :: rest => a +++ sep +++ Join rest sep
  end.

(** [strings.SplitN(s, "/", 2)] when [s] holds a slash: the text before
    the first slash and the text after it; [None] when [s] holds none. *)
Fixpoint CutByte (s : string) (c : ascii) : option (string * string) :=
  match s with
  | EmptyString => None
  | String x r =>
      if Ascii.eqb x c then Some (EmptyString, r)
      else match CutByte r c with
           | Some (before, after) => Some (String x before, after)
           | None => None
           end
  end.

End strings.

Module fmt.

(** The verb [%d] applied to an integer. *)
Definition d (z : Z) : string := NilZero.string_of_int (Z.to_int z).

(** The binary digits of a positive number, most significant first. *)
Fixpoint binary_digits (p : positive) : string :=
  match p with
  | xH => "1"
  | xO q => binary_digits q +++ "0"
  | xI q => binary_digits q +++ "1"
  end.

(** The verb [%08b] applied to an unsigned integer: its binary digits,
    padded with zeros on the left to a width of 8. *)
Definition b08 (z : Z) : string :=
  let digits := match z with
                | Zpos p => binary_digits p
                | _ => "0"
                end in
  string_of_list_ascii (repeat "0"%char (8 - String.length digits)) +++ digits.

End fmt.

Module strconv.

Fixpoint digits (s : string) (acc : Z) : option Z :=
  match s with
  | EmptyString => Some acc
  | String c r => if is_digit c then digits r (acc * 10 + (code c - 48)) else None
  end.

(** The digits after the optional sign, and the range check of [int]
    on a 64-bit platform. *)
Definition Atoi_unsigned (neg : bool) (r : string) : option Z :=
  match r with
  | EmptyString => None
  | String _ _ =>
      match digits r 0 with
      | Some n =>
          let v := if neg then - n else n in
          if (- 2 ^ 63 <=? v) && (v <=? 2 ^ 63 - 1) then Some v else None
      | None => None
      end
  end.

(** [strconv.Atoi]: an optional sign, then one or more decimal digits; a
    value outside [int] is a range error. *)
Definition Atoi (s : string) : option Z :=
  match s with
  | EmptyString => None
  | String c r =>
      if Ascii.eqb c "-" then Atoi_unsigned true r
      else if Ascii.eqb c "+" then Atoi_unsigned false r
      else Atoi_unsigned false s
  end.

End strconv.

Module net.

(** [net.IP]: a byte slice of length 4 or 16; [nil] is [None]. *)
Definition IP : Type := list byte.

(** The conversions [uint8(v)] and [uint32(b)]. *)
Definition uint8 (v : Z) : byte :=
  match Byte.of_N (Z.to_N (v mod 256)) with
  | Some b => b
  | None => x00
  end.

Definition uint32 (b : byte) : Z := Z.of_N (Byte.to_N b).

(** The assignment [fields[pos] = v]. *)
Definition set (fields : list byte) (pos : Z) (v : byte) : list byte :=
  firstn (Z.to_nat pos) fields ++ v :: skipn (S (Z.to_nat pos)) fields.

(** [netip.parseIPv4Fields]: the loop over the bytes of the text.
    [first] says that the index is 0 and [prevdot] that the previous
    byte was a dot. *)
Fixpoint parseIPv4Fields_loop (s : string) (first prevdot : bool)
    (val pos digLen : Z) (fields : list byte) : option (list byte) :=
  match s with
  | EmptyString =>
      if pos <? 3 then None else Some (set fields 3 (uint8 val))
  | String c r =>
      if is_digit c then
        if (digLen =? 1) && (val =? 0) then None
        else
          let val' := val * 10 + (code c - 48) in
          if 255 <? val' then None
          else parseIPv4Fields_loop r false false val' pos (digLen + 1) fields
      else if Ascii.eqb c "." then
        if first || (match r with EmptyString => true | _ => false end) || prevdot
        then None
        else if pos =? 3 then None
        else parseIPv4Fields_loop r false true 0 (pos + 1) 0 (set fields pos (uint8 val))
      else None
  end.

Definition parseIPv4Fields (s : string) : option (list byte) :=
  parseIPv4Fields_loop s true false 0 0 0 [x00; x00; x00; x00].

Definition hex_value (c : ascii) : option Z :=
  let n := code c in
  if (48 <=? n) && (n <=? 57) then Some (n - 48)
  else if (97 <=? n) && (n <=? 102) then Some (n - 97 + 10)
  else if (65 <=? n) && (n <=? 70) then Some (n - 65 + 10)
  else None.

(** The hexadecimal group scan of [netip.parseIPv6]: [Some (off, acc, rest)]
    when the scan stops at a byte that is no hexadecimal digit (or at the
    end), [None] for a group of more than four digits. *)
Fixpoint scan_hex (s : string) (off acc : Z) : option (Z * Z * string) :=
  match s with
  | EmptyString => Some (off, acc, s)
  | String c r =>
      match hex_value c with
      | Some h =>
          let acc' := acc * 16 + h in
          if 3 <? off then None
          else if 65535 <? acc' then None
          else scan_hex r (off + 1) acc'
      | None => Some (off, acc, s)
      end
  end.

Definition starts_with_colon (s : string) : bool :=
  match s with String c _ => Ascii.eqb c ":" | EmptyString => false end.

Definition tail (s : string) : string :=
  match s with String _ r => r | EmptyString => EmptyString end.

(** The state the group loop of [netip.parseIPv6] leaves behind. *)
Record v6state : Type := V6 {
  v6_rest : string;
  v6_i : Z;
  v6_ellipsis : Z;
  v6_ip : list byte
}.

(** The loop [for i < 16] of [netip.parseIPv6]; every round consumes a
    group and advances [i] by at least 2, so 8 rounds are enough. *)
Fixpoint parseIPv6_loop (n : nat) (s : string) (i ellipsis : Z) (ip : list byte)
    : option v6state :=
  if 16 <=? i then Some (V6 s i ellipsis ip)
  else
    match n with
    | O => None
    | S n' =>
        match scan_hex s 0 0 with
        | None => None
        | Some (off, acc, rest) =>
            if off =? 0 then None
            else if (match rest with String c _ => Ascii.eqb c "." | _ => false end) then
              if (ellipsis <? 0) && negb (i =? 12) then None
              else if 16 <? i + 4 then None
              else
                match parseIPv4Fields s with
                | None => None
                | Some f =>
                    let ip' := firstn (Z.to_nat i) ip ++ f
                               ++ skipn (Z.to_nat i + 4) ip in
                    Some (V6 EmptyString (i + 4) ellipsis ip')
                end
            else
              let ip' := set (set ip i (uint8 (Z.shiftr acc 8))) (i + 1) (uint8 acc) in
              let i' := i + 2 in
              match rest with
              | EmptyString => Some (V6 rest i' ellipsis ip')
              | String c r1 =>
                  if negb (Ascii.eqb c ":") then None
                  else
                    match r1 with
                    | EmptyString => None
                    | String c2 r2 =>
                        if Ascii.eqb c2 ":" then
                          if 0 <=? ellipsis then None
                          else
                            match r2 with
                            | EmptyString => Some (V6 r2 i' i' ip')
                            | _ => parseIPv6_loop n' r2 i' i' ip'
                            end
                        else parseIPv6_loop n' r1 i' ellipsis ip'
                    end
              end
        end
    end.

Definition zeros16 : list byte := repeat x00 16.

(** Expanding the ellipsis: the bytes from [ellipsis] to [i - 1] move to
    the end and the gap is cleared. *)
Definition expand (ip : list byte) (i ellipsis : Z) : list byte :=
  let n := 16 - i in
  firstn (Z.to_nat ellipsis) ip
    ++ repeat x00 (Z.to_nat n)
    ++ firstn (Z.to_nat (i - ellipsis)) (skipn (Z.to_nat ellipsis) ip).

(** [netip.parseIPv6] as [net.ParseIP] uses it: a text with a zone
    ([%]) is never a valid [net.IP]. *)
Definition parseIPv6 (s : string) : option (list byte) :=
  if strings.ContainsByte s "%" then None
  else
    let lead := starts_with_colon s && starts_with_colon (tail s) in
    let s1 := if lead then tail (tail s) else s in
    let ellipsis := if lead then 0 else -1 in
    if lead && (match s1 with EmptyString => true | _ => false end)
    then Some zeros16
    else
      match parseIPv6_loop 8 s1 0 ellipsis zeros16 with
      | None => None
      | Some st =>
          match v6_rest st with
          | String _ _ => None
          | EmptyString =>
              if v6_i st <? 16 then
                if v6_ellipsis st <? 0 then None
                else Some (expand (v6_ip st) (v6_i st) (v6_ellipsis st))
              else if 0 <=? v6_ellipsis st then None
              else Some (v6_ip st)
          end
      end.

Inductive family : Type := FamV4 | FamV6 | FamNone.

(** [netip.ParseAddr] looks for the first of [.], [:] and [%]. *)
Fixpoint dispatch (s : string) : family :=
  match s with
  | EmptyString => FamNone
  | String c r =>
      if Ascii.eqb c "." then FamV4
      else if Ascii.eqb c ":" then FamV6
      else if Ascii.eqb c "%" then FamNone
      else dispatch r
  end.

(** [net.ParseIP]: the 16-byte form of the address, an IPv4 address in
    its IPv4-mapped form. *)
Definition ParseIP (s : string) : option IP :=
  match dispatch s with
  | FamV4 =>
      match parseIPv4Fields s with
      | Some f => Some (repeat x00 10 ++ [xff; xff] ++ f)
      | None => None
      end
  | FamV6 => parseIPv6 s
  | FamNone => None
  end.

(** [IP.To4]. *)
Definition To4 (ip : IP) : option IP :=
  if (Z.of_nat (List.length ip) =? 4) then Some ip
  else if (Z.of_nat (List.length ip) =? 16)
          && forallb (Byte.eqb x00) (firstn 10 ip)
          && Byte.eqb (nth 10 ip x00) xff && Byte.eqb (nth 11 ip x00) xff
  then Some (skipn 12 ip)
  else None.

(** [IP.To16]. *)
Definition To16 (ip : IP) : option IP :=
  if (Z.of_nat (List.length ip) =? 4)
  then Some (repeat x00 10 ++ [xff; xff] ++ ip)
  else if (Z.of_nat (List.length ip) =? 16) then Some ip
  else None.

End net.

(** [math/big]: a [*big.Int] is an integer of any size, a [Z]. *)
Module big.

(** [SetBytes]: the bytes are a big-endian unsigned integer. *)
Definition SetBytes (buf : list byte) : Z :=
  fold_left (fun acc b => acc * 256 + net.uint32 b) buf 0.

Definition Lsh (x n : Z) : Z := Z.shiftl x n.
Definition Rsh (x n : Z) : Z := Z.shiftr x n.
Definition Sub (x y : Z) : Z := x - y.
Definition And (x y : Z) : Z := Z.land x y.

(** [Bytes]: the absolute value as big-endian bytes, without leading
    zero bytes. *)
Fixpoint Bytes_loop (todo : nat) (x : Z) (acc : list byte) : list byte :=
  match todo with
  | O => acc
  | S t =>
      if x =? 0 then acc
      else Bytes_loop t (x / 256) (net.uint8 (x mod 256) :: acc)
  end.

Definition Bytes (x : Z) : list byte :=
  Bytes_loop (S (Z.to_nat (Z.log2 (Z.abs x)))) (Z.abs x) [].

End big.

(** ** Package calculator *)

(** [ParseIPv4] *)
Definition ParseIPv4 (ipStr : string) : result Z :=
  match net.ParseIP ipStr with
  | None => Err ("invalid IP address: " +++ ipStr)
  | Some ip =>
      match net.To4 ip with
      | None => Err ("not an IPv4 address: " +++ ipStr)
      | Some ip4 =>
          Ok (Z.lor (Z.lor (Z.lor (U32.shl (net.uint32 (nth 0 ip4 x00)) 24)
                                  (U32.shl (net.uint32 (nth 1 ip4 x00)) 16))
                           (U32.shl (net.uint32 (nth 2 ip4 x00)) 8))
                    (net.uint32 (nth 3 ip4 x00)))
      end
  end.

(** [ParseNetmask], the loop [for i := 0; i < bitCount; i++] that sets the
    leading bits. *)
Fixpoint ParseNetmask_fill (todo : nat) (i mask : Z) : Z :=
  match todo with
  | O => mask
  | S t => ParseNetmask_fill t (i + 1) (Z.lor mask (U32.shl 1 (31 - i)))
  end.

(** [ParseNetmask], the loop [for i := 0; i < 32; i++] that counts the
    leading bits and breaks at the first 0. *)
Fixpoint ParseNetmask_count (todo : nat) (i bitCount mask : Z) : Z :=
  match todo with
  | O => bitCount
  | S t =>
      if negb (Z.land mask (U32.shl 1 (31 - i)) =? 0)
      then ParseNetmask_count t (i + 1) (bitCount + 1) mask
      else bitCount
  end.

(** [isValidNetmask], the loop [for i := 31; i >= 0; i--]. *)
Fixpoint isValidNetmask_loop (todo : nat) (i mask : Z) (foundZero : bool) : bool :=
  match todo with
  | O => true
  | S t =>
      let bit := negb (Z.land mask (U32.shl 1 i) =? 0) in
      if negb bit then isValidNetmask_loop t (i - 1) mask true
      else if foundZero then false
      else isValidNetmask_loop t (i - 1) mask foundZero
  end.

Definition isValidNetmask (mask : Z) : bool :=
  isValidNetmask_loop 32 31 mask false.

(** [ParseNetmask] *)
Definition ParseNetmask (maskStr : string) : result (Z * Z) :=
  let maskStr := strings.TrimPrefix maskStr "/" in
  match strconv.Atoi maskStr with
  | Some bitCount =>
      if (bitCount <? 0) || (32 <? bitCount)
      then Err ("invalid bit count: " +++ fmt.d bitCount
                +++ " (must be between 0 and 32)")
      else Ok (ParseNetmask_fill (Z.to_nat bitCount) 0 0, bitCount)
  | None =>
      match ParseIPv4 maskStr with
      | Err _ => Err ("invalid netmask: " +++ maskStr)
      | Ok mask =>
          if negb (isValidNetmask mask)
          then Err ("invalid netmask: " +++ maskStr +++ " (not contiguous)")
          else Ok (mask, ParseNetmask_count 32 0 0 mask)
      end
  end.

(** [IPToString] *)
Definition IPToString (ip : Z) : string :=
  fmt.d (Z.land (U32.shr ip 24) 255) +++ "." +++
  fmt.d (Z.land (U32.shr ip 16) 255) +++ "." +++
  fmt.d (Z.land (U32.shr ip 8) 255) +++ "." +++
  fmt.d (Z.land ip 255).

(** [GetClass] *)
Definition GetClass (ip : Z) : string :=
  if Z.land ip 2147483648 =? 0 then "A"
  else if Z.land ip 3221225472 =? 2147483648 then "B"
  else if Z.land ip 3758096384 =? 3221225472 then "C"
  else if Z.land ip 4026531840 =? 3758096384 then "D"
  else "E".

(** [IPv4Network] *)
Record IPv4Network : Type := mkIPv4Network {
  Address : Z;
  Netmask : Z;
  BitCount : Z;
  Broadcast : Z;
  NetworkID : Z;
  HostMin : Z;
  HostMax : Z;
  HostsCount : Z;
  Class : string
}.

(** [GetWildcardMask] *)
Definition GetWildcardMask (netmask : Z) : Z := U32.not netmask.

(** [CalculateNetwork] *)
Definition CalculateNetwork (ipStr maskStr : string) : result IPv4Network :=
  match ParseIPv4 ipStr with
  | Err e => Err e
  | Ok ip =>
      match ParseNetmask maskStr with
      | Err e => Err e
      | Ok (mask, bitCount) =>
          let networkID := Z.land ip mask in
          let broadcast := Z.lor networkID (U32.not mask) in
          let '(hostMin, hostMax, hostsCount) :=
            if bitCount =? 31 then (networkID, broadcast, 2)
            else if bitCount =? 32 then (networkID, networkID, 1)
            else (U32.add networkID 1, U32.sub broadcast 1,
                  U32.sub (U32.shl 1 (32 - bitCount)) 2) in
          Ok (mkIPv4Network ip mask bitCount broadcast networkID
                hostMin hostMax hostsCount (GetClass ip))
      end
  end.

(** A CIDR block as [Deaggregate] and [SplitNetwork] print it:
    [fmt.Sprintf("%s/%d", IPToString(base), prefix)]. *)
Definition CIDR (b : Z * Z) : string :=
  IPToString (fst b) +++ "/" +++ fmt.d (snd b).

(** [Deaggregate], the loop [for prefix = 0; prefix < 32; prefix++]; the
    value returned is [prefix] when the loop is left. *)
Fixpoint Deaggregate_prefix (todo : nat) (prefix start end_ : Z) : Z :=
  match todo with
  | O => prefix
  | S t =>
      let mask := U32.shl 4294967295 (32 - prefix) in
      let networkID := Z.land start mask in
      let blockEnd := Z.lor networkID (U32.not mask) in
      if end_ <? blockEnd then Deaggregate_prefix t (prefix + 1) start end_
      else if networkID =? start then prefix
      else Deaggregate_prefix t (prefix + 1) start end_
  end.

(** [Deaggregate], the loop [for start <= end], as written: the result
    is the slice of strings. *)
Fixpoint Deaggregate_loop (fuel : nat) (start end_ : Z) (result : list string)
    : option (list string) :=
  if start <=? end_ then
    match fuel with
    | O => None
    | S f =>
        let prefix := Deaggregate_prefix 32 0 start end_ in
        Deaggregate_loop f (U32.add start (U32.shl 1 (32 - prefix))) end_
          (result ++ [CIDR (start, prefix)])
    end
  else Some result.

(** The same loop, on the blocks that are printed. *)
Fixpoint Deaggregate_blocks (fuel : nat) (start end_ : Z) (blocks : list (Z * Z))
    : option (list (Z * Z)) :=
  if start <=? end_ then
    match fuel with
    | O => None
    | S f =>
        let prefix := Deaggregate_prefix 32 0 start end_ in
        Deaggregate_blocks f (U32.add start (U32.shl 1 (32 - prefix))) end_
          (blocks ++ [(start, prefix)])
    end
  else Some blocks.

(** [Deaggregate] *)
Definition Deaggregate (fuel : nat) (startStr endStr : string)
    : option (result (list string)) :=
  match ParseIPv4 startStr with
  | Err e => Some (Err e)
  | Ok start =>
      match ParseIPv4 endStr with
      | Err e => Some (Err e)
      | Ok end_ =>
          if end_ <? start
          then Some (Err "start address must be less than or equal to end address")
          else option_map Ok (Deaggregate_loop fuel start end_ [])
      end
  end.

(** [SplitNetwork], the loop [for hostsNeeded-2 < uint32(size)]. *)
Fixpoint SplitNetwork_hostsNeeded (fuel : nat) (size hostsNeeded : Z) : option Z :=
  if U32.sub hostsNeeded 2 <? U32.wrap size then
    match fuel with
    | O => None
    | S f => SplitNetwork_hostsNeeded f size (U32.mul hostsNeeded 2)
    end
  else Some hostsNeeded.

(** [SplitNetwork], the loop [for _, size := range sizes]. *)
Fixpoint SplitNetwork_sizes (fuel : nat) (sizes : list Z)
    (hostCounts : list Z) (totalRequired : Z) : option (list Z * Z) :=
  match sizes with
  | [] => Some (hostCounts, totalRequired)
  | size :: rest =>
      match SplitNetwork_hostsNeeded fuel size 4 with
      | None => None
      | Some hostsNeeded =>
          SplitNetwork_sizes fuel rest (hostCounts ++ [hostsNeeded])
            (U32.add totalRequired hostsNeeded)
      end
  end.

(** [SplitNetwork], the loop [for hostCount > 1]; a [uint32] is below
    [2^32], so the loop is left within 32 rounds. *)
Fixpoint SplitNetwork_prefix (todo : nat) (hostCount prefix : Z) : Z :=
  match todo with
  | O => prefix
  | S t =>
      if 1 <? hostCount
      then SplitNetwork_prefix t (U32.shr hostCount 1) (prefix - 1)
      else prefix
  end.

(** What [Deaggregate] and [SplitNetwork] return: [([]string, error)]. *)
Definition strings_or_error : Type := result (list string).

(** [SplitNetwork], the loop [for _, hostCount := range hostCounts], as
    written: the result is the slice of strings. *)
Fixpoint SplitNetwork_alloc (hostCounts : list Z) (currentIP : Z)
    (result : list string) : strings_or_error :=
  match hostCounts with
  | [] => Ok result
  | hostCount :: rest =>
      let prefix := SplitNetwork_prefix 32 hostCount 32 in
      match CalculateNetwork (IPToString currentIP) (fmt.d prefix) with
      | Err e => Err e
      | Ok subnetNetwork =>
          SplitNetwork_alloc rest (U32.add currentIP (U32.shl 1 (32 - prefix)))
            (result ++ [CIDR (NetworkID subnetNetwork, prefix)])
      end
  end.

(** [SplitNetwork] *)
Definition SplitNetwork (fuel : nat) (networkStr maskStr : string)
    (sizes : list Z) : option (result (list string)) :=
  match CalculateNetwork networkStr maskStr with
  | Err e => Some (Err e)
  | Ok network =>
      let totalHosts := U32.shl 1 (U32.sub 32 (U32.wrap (BitCount network))) in
      match SplitNetwork_sizes fuel sizes [] 0 with
      | None => None
      | Some (hostCounts, totalRequired) =>
          if totalHosts <? totalRequired
          then Some (Err ("requested subnet sizes exceed available space ("
                          +++ fmt.d totalRequired +++ " > "
                          +++ fmt.d totalHosts +++ ")"))
          else Some (SplitNetwork_alloc hostCounts (NetworkID network) [])
      end
  end.

(** The same two, on the blocks that are printed. *)
Fixpoint SplitNetwork_alloc_blocks (hostCounts : list Z) (currentIP : Z)
    (blocks : list (Z * Z)) : result (list (Z * Z)) :=
  match hostCounts with
  | [] => Ok blocks
  | hostCount :: rest =>
      let prefix := SplitNetwork_prefix 32 hostCount 32 in
      match CalculateNetwork (IPToString currentIP) (fmt.d prefix) with
      | Err e => Err e
      | Ok subnetNetwork =>
          SplitNetwork_alloc_blocks rest
            (U32.add currentIP (U32.shl 1 (32 - prefix)))
            (blocks ++ [(NetworkID subnetNetwork, prefix)])
      end
  end.

Definition SplitNetwork_blocks (fuel : nat) (networkStr maskStr : string)
    (sizes : list Z) : option (result (list (Z * Z))) :=
  match CalculateNetwork networkStr maskStr with
  | Err e => Some (Err e)
  | Ok network =>
      let totalHosts := U32.shl 1 (U32.sub 32 (U32.wrap (BitCount network))) in
      match SplitNetwork_sizes fuel sizes [] 0 with
      | None => None
      | Some (hostCounts, totalRequired) =>
          if totalHosts <? totalRequired
          then Some (Err ("requested subnet sizes exceed available space ("
                          +++ fmt.d totalRequired +++ " > "
                          +++ fmt.d totalHosts +++ ")"))
          else Some (SplitNetwork_alloc_blocks hostCounts (NetworkID network) [])
      end
  end.

(** [GetClassBits] *)
Definition GetClassBits (class : string) : Z :=
  if String.eqb class "A" then 8
  else if String.eqb class "B" then 16
  else if String.eqb class "C" then 24
  else if String.eqb class "D" || String.eqb class "E" then 4
  else 0.

(** [IsPrivate] *)
Definition IsPrivate (ip : Z) : bool :=
  if Z.land ip 4278190080 =? 167772160 then true
  else if Z.land ip 4293918720 =? 2886729728 then true
  else if Z.land ip 4294901760 =? 3232235520 then true
  else false.

(** [FormatBinary], the loop [for i := 0; i < 4; i++]. *)
Fixpoint FormatBinary_parts (todo : nat) (i ip : Z) (parts : list string)
    : list string :=
  match todo with
  | O => parts
  | S t =>
      let octet := Z.land (U32.shr ip (24 - i * 8)) 255 in
      let binary := fmt.b08 octet in
      FormatBinary_parts t (i + 1) ip (parts ++ [binary])
  end.

(** [FormatBinary] *)
Definition FormatBinary (ip : Z) : string :=
  strings.Join (FormatBinary_parts 4 0 ip []) ".".

(** [handleDeaggregate] of [cmd/ipcalc/main.go]: [Err] is the line written
    to the standard error stream before [os.Exit(1)], [Ok] the networks
    handed to the formatter. *)
Definition handleDeaggregate (fuel : nat) (startStr endStr : string)
    : option (result (list string)) :=
  if strings.ContainsByte startStr ":" || strings.ContainsByte endStr ":"
  then Some (Err "Error: IPv6 deaggregation is not supported yet")
  else
    match Deaggregate fuel startStr endStr with
    | None => None
    | Some (Err e) => Some (Err ("Error: " +++ e))
    | Some (Ok networks) => Some (Ok networks)
    end.

(** [handleClassOnly] of [cmd/ipcalc/main.go]: [Ok] is the line written to
    the standard output, [Err] the line written to the standard error
    stream before [os.Exit(1)]. *)
Definition handleClassOnly (ipStr : string) : result string :=
  if strings.ContainsByte ipStr ":"
  then Ok "IPv6 addresses don't have classes"
  else
    match ParseIPv4 ipStr with
    | Err e => Err ("Error: " +++ e)
    | Ok ip =>
        let class := GetClass ip in
        let bits := GetClassBits class in
        Ok (fmt.d bits)
    end.

(** ** Package calculator: IPv6 *)

Module V6.

Record IPv6Network : Type := mkIPv6Network {
  Address : Z;
  PrefixLen : Z;
  NetworkID : Z;
  NetworkMask : Z
}.

End V6.

(** [ParseIPv6] *)
Definition ParseIPv6 (ipStr : string) : result Z :=
  match net.ParseIP ipStr with
  | None => Err ("invalid IP address: " +++ ipStr)
  | Some ip =>
      match net.To16 ip with
      | None => Err ("not an IPv6 address: " +++ ipStr)
      | Some ip16 => Ok (big.SetBytes ip16)
      end
  end.

(** [ParseIPv6Prefix] *)
Definition ParseIPv6Prefix (prefixStr : string) : result Z :=
  let prefixStr := strings.TrimPrefix prefixStr "/" in
  match strconv.Atoi prefixStr with
  | None => Err ("invalid prefix length: " +++ prefixStr)
  | Some prefix =>
      if (prefix <? 0) || (128 <? prefix)
      then Err ("invalid prefix length: " +++ fmt.d prefix
                +++ " (must be between 0 and 128)")
      else Ok prefix
  end.

(** [IPv6ToNetworkID] *)
Definition IPv6ToNetworkID (ip prefixLen : Z) : result Z :=
  let mask := big.Lsh 1 128 in
  let mask := big.Sub mask 1 in
  if prefixLen <? 0
  then Err ("prefix length cannot be negative: " +++ fmt.d prefixLen)
  else if 128 <? prefixLen
  then Err ("prefix length cannot exceed 128: " +++ fmt.d prefixLen)
  else
    let masked :=
      if prefixLen <? 128 then
        let shiftBits := 128 - prefixLen in
        if shiftBits <? 0
        then Err ("invalid shift bits calculation: " +++ fmt.d shiftBits)
        else
          let uShiftBits := shiftBits in
          let mask := big.Rsh mask uShiftBits in
          Ok (big.Lsh mask uShiftBits)
      else Ok mask in
    match masked with
    | Err e => Err e
    | Ok mask => Ok (big.And ip mask)
    end.

(** [CalculateIPv6Network] *)
Definition CalculateIPv6Network (ipStr prefixStr : string)
    : result V6.IPv6Network :=
  match ParseIPv6 ipStr with
  | Err e => Err e
  | Ok ip =>
      match ParseIPv6Prefix prefixStr with
      | Err e => Err e
      | Ok prefix =>
          let networkMask := big.Lsh 1 128 in
          let networkMask := big.Sub networkMask 1 in
          if prefix <? 0
          then Err ("prefix length cannot be negative: " +++ fmt.d prefix)
          else if 128 <? prefix
          then Err ("prefix length cannot exceed 128: " +++ fmt.d prefix)
          else
            let masked :=
              if prefix <? 128 then
                let shiftBits := 128 - prefix in
                if shiftBits <? 0
                then Err ("invalid shift bits calculation: " +++ fmt.d shiftBits)
                else
                  let uShiftBits := shiftBits in
                  let networkMask := big.Rsh networkMask uShiftBits in
                  Ok (big.Lsh networkMask uShiftBits)
              else Ok networkMask in
            match masked with
            | Err e => Err e
            | Ok networkMask =>
                let networkID := big.And ip networkMask in
                Ok (V6.mkIPv6Network ip prefix networkID networkMask)
            end
      end
  end.

(** [FormatIPv6Binary]: the 16 bytes of the address, each as [%08b], two
    by two, joined by colons.  [copy(ipBytes[16-len(bytes):], bytes)]
    panics when the number has more than 16 bytes: [None]. *)
Fixpoint FormatIPv6Binary_group (parts : list string) : list string :=
  match parts with
  | [] => []
  | [a] => [a]
  | a :: b :: rest => (a +++ b) :: FormatIPv6Binary_group rest
  end.

Definition FormatIPv6Binary (ip : Z) : option string :=
  let bytes := big.Bytes ip in
  if (16 <? Z.of_nat (List.length bytes)) then None
  else
    let ipBytes := repeat x00 (16 - List.length bytes) ++ bytes in
    let parts := map (fun b => fmt.b08 (net.uint32 b)) ipBytes in
    Some (strings.Join (FormatIPv6Binary_group parts) ":").

(** ** Command line: [cmd/ipcalc/main.go], continued *)

(** What [handleNormal] hands to the formatter. *)
Inductive network_info : Type :=
| IPv4Info (network : IPv4Network)
| IPv6Info (network : V6.IPv6Network).

(** The address and the mask that [handleNormal] reads from its arguments.
    [strings.Contains(args[0], "/")] followed by [strings.SplitN] is
    [strings.CutByte]; with no argument both stay empty. *)
Definition handleNormal_args (args : list string) : string * string :=
  match args with
  | [] => (EmptyString, EmptyString)
  | [a] =>
      match strings.CutByte a "/" with
      | Some (ipStr, maskStr) => (ipStr, maskStr)
      | None => (a, if strings.ContainsByte a ":" then "64" else "24")
      end
  | a :: b :: _ => (a, b)
  end.

(** [handleNormal]: [Err] is the line written to the standard error stream
    before [os.Exit(1)]. *)
Definition handleNormal (args : list string) : result network_info :=
  let '(ipStr, maskStr) := handleNormal_args args in
  if strings.ContainsByte ipStr ":"
  then
    match CalculateIPv6Network ipStr maskStr with
    | Err e => Err ("Error: " +++ e)
    | Ok network => Ok (IPv6Info network)
    end
  else
    match CalculateNetwork ipStr maskStr with
    | Err e => Err ("Error: " +++ e)
    | Ok network => Ok (IPv4Info network)
    end.

(** [handleSplit], the loop over the size arguments. *)
Fixpoint handleSplit_sizes (sizeStrs : list string) (sizes : list Z)
    : result (list Z) :=
  match sizeStrs with
  | [] => Ok sizes
  | sizeStr :: rest =>
      match strconv.Atoi sizeStr with
      | None => Err ("Error: Invalid size: " +++ sizeStr)
      | Some size => handleSplit_sizes rest (sizes ++ [size])
      end
  end.

(** [handleSplit]: [Err] is the line written to the standard error stream
    before [os.Exit(1)], [Ok] the subnets handed to the formatter. *)
Definition handleSplit (fuel : nat) (networkStr : string)
    (sizeStrs : list string) : option (result (list string)) :=
  let parsed :=
    match strings.CutByte networkStr "/" with
    | Some (ipStr, maskStr) => Some (ipStr, maskStr, sizeStrs)
    | None =>
        match sizeStrs with
        | maskStr :: rest => Some (networkStr, maskStr, rest)
        | [] => None
        end
    end in
  match parsed with
  | None => Some (Err "Error: No netmask specified")
  | Some (ipStr, maskStr, sizeStrs) =>
      match handleSplit_sizes sizeStrs [] with
      | Err e => Some (Err e)
      | Ok sizes =>
          if strings.ContainsByte ipStr ":"
          then Some (Err "Error: IPv6 splitting is not supported yet")
          else
            match SplitNetwork fuel ipStr maskStr sizes with
            | None => None
            | Some (Err e) => Some (Err ("Error: " +++ e))
            | Some (Ok networks) => Some (Ok networks)
            end
      end
  end.

(** * Vocabulary of the statements *)

(** ** Addresses and masks *)

(** The address with the four octets [a.b.c.d]. *)
Definition octets (a b c d : Z) : Z :=
  a * 2 ^ 24 + b * 2 ^ 16 + c * 2 ^ 8 + d.

(** The netmask of a prefix length: [p] leading 1 bits. *)
Definition prefix_mask (p : Z) : Z := 2 ^ 32 - 2 ^ (32 - p).

(** A 32-bit value whose 1 bits are exactly its [p] most significant bits:
    a run of [p] ones from bit 31 downwards, then zeros only. *)
Definition leading_run (m p : Z) : Prop :=
  0 <= p <= 32 /\ forall i, 0 <= i < 32 -> Z.testbit m i = (32 - p <=? i).

Definition contiguous (m : Z) : Prop := exists p, leading_run m p.

(** ** Address text *)

(** The character of a decimal digit. *)
Definition digit_char (n : Z) : ascii := ascii_of_N (Z.to_N (48 + n)).

(** An octet followed by a dot, and the dotted quad of four bytes. *)
Definition seg (b : byte) : string := fmt.d (net.uint32 b) +++ ".".

Definition dotted (g0 g1 g2 g3 : byte) : string :=
  seg g0 +++ seg g1 +++ seg g2 +++ fmt.d (net.uint32 g3).

(** What [netip.parseIPv4Fields] has read when [pos] fields are complete. *)
Definition rendered (f0 f1 f2 : byte) (pos : Z) : string :=
  if pos =? 0 then ""
  else if pos =? 1 then seg f0
  else if pos =? 2 then seg f0 +++ seg f1
  else seg f0 +++ seg f1 +++ seg f2.

(** Dotted-quad text: four decimal octets, written without leading zeros,
    with dots between them. *)
Definition dotted_quad (s : string) : Prop :=
  exists a b c d,
    0 <= a < 256 /\ 0 <= b < 256 /\ 0 <= c < 256 /\ 0 <= d < 256 /\
    s = fmt.d a +++ "." +++ fmt.d b +++ "." +++ fmt.d c +++ "." +++ fmt.d d.

(** The 16-byte form [::ffff:a.b.c.d] of an IPv4 address. *)
Definition v4mapped (a b c d : byte) : net.IP :=
  repeat x00 10 ++ [xff; xff] ++ [a; b; c; d].

(** Text that [net.ParseIP] reads as an IPv6 address: the first of the
    bytes [.], [:] and [%] in it is a colon and the parse succeeds. *)
Definition IPv6_text (s : string) : bool :=
  match net.dispatch s, net.ParseIP s with
  | net.FamV6, Some _ => true
  | _, _ => false
  end.

(** ** Binary text *)

(** Bit [k] of [v] as a character, and the eight bits from [lo + 7] down
    to [lo]. *)
Definition bit_char (v k : Z) : ascii :=
  if Z.testbit v k then "1"%char else "0"%char.

Definition bits8 (v lo : Z) : string :=
  string_of_list_ascii
    (map (fun j => bit_char v (lo + j)) [7; 6; 5; 4; 3; 2; 1; 0]).

(** The 16 bits of [v] from bit [lo + 15] down to bit [lo]. *)
Definition bits16 (v lo : Z) : string := bits8 v (lo + 8) +++ bits8 v lo.

(** ** IPv6 addresses *)

(** The IPv4-mapped IPv6 address [::ffff:a.b.c.d] of an IPv4 address. *)
Definition mapped (a : Z) : Z := 65535 * 2 ^ 32 + a.

(** The mask of an IPv6 prefix length: [p] leading 1 bits out of 128. *)
Definition prefix_mask6 (p : Z) : Z := 2 ^ 128 - 2 ^ (128 - p).

(** The [n] low bytes of [x], the most significant one first. *)
Fixpoint be_bytes (n : nat) (x : Z) : list byte :=
  match n with
  | O => []
  | S m => be_bytes m (x / 256) ++ [net.uint8 (x mod 256)]
  end.

(** ** Blocks *)

(** The addresses of a block [(base, prefix)]. *)
Definition in_block (b : Z * Z) (x : Z) : Prop :=
  fst b <= x < fst b + 2 ^ (32 - snd b).

(** A CIDR block: a prefix length and a base address aligned to the size
    of the block. *)
Definition aligned_block (b : Z * Z) : Prop :=
  0 <= snd b <= 32 /\ 0 <= fst b /\ fst b mod 2 ^ (32 - snd b) = 0.

(** The block of prefix length [p] that starts at [start] is aligned to its
    own size and does not pass [end_]. *)
Definition block_fits (start end_ p : Z) : Prop :=
  start mod 2 ^ (32 - p) = 0 /\ start + 2 ^ (32 - p) - 1 <= end_.

(** [bs] tiles the addresses from [lo] to [hi], both included, from left to
    right: every block starts where the previous one stopped, is aligned,
    stays below [hi] and is the largest such block at its position. *)
Fixpoint tiling (lo : Z) (bs : list (Z * Z)) (hi : Z) : Prop :=
  match bs with
  | [] => lo = hi + 1
  | b :: r =>
      fst b = lo /\ 0 <= snd b <= 32 /\ block_fits lo hi (snd b) /\
      (forall q, 0 <= q < snd b -> ~ block_fits lo hi q) /\
      tiling (lo + 2 ^ (32 - snd b)) r hi
  end.

(** Two blocks with no address in common, and a list of blocks that are
    so two by two. *)
Definition disjoint_blocks (b c : Z * Z) : Prop :=
  forall x, ~ (in_block b x /\ in_block c x).

Definition pairwise_disjoint (bs : list (Z * Z)) : Prop :=
  forall i j b c, i <> j ->
    nth_error bs i = Some b -> nth_error bs j = Some c -> disjoint_blocks b c.

(** The union of the blocks [cs] is exactly the range from [lo] to [hi]. *)
Definition covers_exactly (cs : list (Z * Z)) (lo hi : Z) : Prop :=
  forall x, lo <= x <= hi <-> exists c, In c cs /\ in_block c x.

(** [bs] is laid out from [lo] up to [hi], [hi] excluded: every block is
    aligned and starts where the previous one stopped. *)
Fixpoint laid_out (lo : Z) (bs : list (Z * Z)) (hi : Z) : Prop :=
  match bs with
  | [] => lo = hi
  | b :: r =>
      fst b = lo /\ aligned_block b /\ laid_out (lo + 2 ^ (32 - snd b)) r hi
  end.

(** ** Subnet sizes *)

(** The block size of a request for [n] usable hosts: the smallest power
    of two, at least 4, whose capacity minus 2 is at least [n]. *)
Definition block_size_for (n h : Z) : Prop :=
  exists k, 2 <= k /\ h = 2 ^ k /\ n <= h - 2 /\
            forall j, 2 <= j < k -> 2 ^ j - 2 < n.

(** The sum of the block sizes. *)
Definition total_size (hostCounts : list Z) : Z := fold_right Z.add 0 hostCounts.

(** The subnets that successive block sizes give from a cursor: each one
    at the cursor masked down to its prefix length, the cursor then moving
    on by the block size, modulo [2^32]. *)
Fixpoint allocation (hostCounts : list Z) (cursor : Z) : list (Z * Z) :=
  match hostCounts with
  | [] => []
  | h :: rest =>
      (Z.land cursor (prefix_mask (32 - Z.log2 h)), 32 - Z.log2 h)
      :: allocation rest (U32.wrap (cursor + h))
  end.

(** ** The networks of the examples *)

(** 192.168.1.1/24, 10.1.2.3/16 and 192.168.0.0/24, as [CalculateNetwork]
    returns them. *)
Definition net_192_168_1_1_24 : IPv4Network :=
  mkIPv4Network 3232235777 4294967040 24 3232236031 3232235776
    3232235777 3232236030 254 "C".

Definition net_10_1_2_3_16 : IPv4Network :=
  mkIPv4Network 167838211 4294901760 16 167903231 167837696
    167837697 167903230 65534 "A".

Definition net_192_168_0_0_24 : IPv4Network :=
  mkIPv4Network 3232235520 4294967040 24 3232235775 3232235520
    3232235521 3232235774 254 "C".

(** * Facts *)

(** ** Checking a decidable property on an initial segment of [Z] *)

Lemma forall_below (f : Z -> bool) (n : nat) :
  forallb f (map Z.of_nat (seq 0 n)) = true ->
  forall z, 0 <= z < Z.of_nat n -> f z = true.
Proof.
  intros H z Hz.
  rewrite forallb_forall in H.
  apply H. apply in_map_iff. exists (Z.to_nat z). split.
  - lia.
  - apply in_seq. lia.
Qed.

(** [check_below f n] proves [f z = true] for [0 <= z < n] by running [f]
    on every such [z]. *)
Ltac check_below f n :=
  apply (forall_below f (Z.to_nat n)); [vm_compute; reflexivity | lia].

(** ** Machine arithmetic *)

Lemma pow2_pos k : 0 <= k -> 0 < 2 ^ k.
Proof. intros. apply Z.pow_pos_nonneg; lia. Qed.

Lemma pow2_le j k : 0 <= j <= k -> 2 ^ j <= 2 ^ k.
Proof. intros. apply Z.pow_le_mono_r; lia. Qed.

Lemma pow2_lt j k : 0 <= j < k -> 2 ^ j < 2 ^ k.
Proof. intros. apply Z.pow_lt_mono_r; lia. Qed.

Lemma pow2_split j k : 0 <= j <= k -> 2 ^ k = 2 ^ j * 2 ^ (k - j).
Proof.
  intros. rewrite <- Z.pow_add_r by lia. f_equal. lia.
Qed.

Lemma wrap_range z : 0 <= U32.wrap z < 2 ^ 32.
Proof. unfold U32.wrap, U32.modulus. apply Z.mod_pos_bound. lia. Qed.

Lemma wrap_small z : 0 <= z < 2 ^ 32 -> U32.wrap z = z.
Proof. intros. unfold U32.wrap, U32.modulus. apply Z.mod_small. lia. Qed.

Lemma shl_1 k : 0 <= k < 32 -> U32.shl 1 k = 2 ^ k.
Proof.
  intros H. unfold U32.shl. rewrite Z.shiftl_1_l.
  apply wrap_small. split; [apply Z.lt_le_incl, pow2_pos; lia | apply pow2_lt; lia].
Qed.

Lemma shl_ones k : 0 <= k <= 32 -> U32.shl 4294967295 k = 2 ^ 32 - 2 ^ k.
Proof.
  intros H.
  apply Z.eqb_eq.
  check_below (fun k => U32.shl 4294967295 k =? 2 ^ 32 - 2 ^ k) 33.
Qed.

Lemma not_eq m : 0 <= m < 2 ^ 32 -> U32.not m = 2 ^ 32 - 1 - m.
Proof.
  intros H. unfold U32.not. unfold Z.lnot. rewrite <- Z.sub_1_r.
  unfold U32.wrap, U32.modulus.
  replace (- m - 1) with (2 ^ 32 - 1 - m + (-1) * 2 ^ 32) by lia.
  rewrite Z.mod_add by lia. apply Z.mod_small. lia.
Qed.

Lemma testbit_high x n i : 0 <= x < 2 ^ n -> 0 <= n <= i -> Z.testbit x i = false.
Proof.
  intros Hx Hi.
  rewrite <- (Z.mod_small x (2 ^ n)) by assumption.
  apply Z.mod_pow2_bits_high. lia.
Qed.

Lemma land_high_mask x k :
  0 <= x < 2 ^ 32 -> 0 <= k <= 32 ->
  Z.land x (2 ^ 32 - 2 ^ k) = x - x mod 2 ^ k.
Proof.
  intros Hx Hk.
  assert (Hm : 2 ^ 32 - 2 ^ k = Z.shiftl (Z.ones (32 - k)) k).
  { rewrite Z.shiftl_mul_pow2, Z.ones_equiv by lia.
    rewrite <- Z.sub_1_r, Z.mul_sub_distr_r, <- Z.pow_add_r by lia.
    replace (32 - k + k) with 32 by lia. lia. }
  assert (Hr : x - x mod 2 ^ k = Z.shiftl (Z.shiftr x k) k).
  { rewrite Z.shiftl_mul_pow2, Z.shiftr_div_pow2 by lia.
    pose proof (Z.div_mod x (2 ^ k)) as D.
    pose proof (pow2_pos k). lia. }
  rewrite Hm, Hr. apply Z.bits_inj'. intros i Hi.
  rewrite Z.land_spec.
  destruct (Z.ltb_spec i k) as [Hlt | Hge].
  - rewrite !Z.shiftl_spec_low by lia. apply andb_false_r.
  - rewrite !Z.shiftl_spec by lia. rewrite Z.shiftr_spec by lia.
    replace (i - k + k) with i by lia.
    destruct (Z.ltb_spec i 32) as [Hlt32 | Hge32].
    + rewrite Z.ones_spec_low by lia. apply andb_true_r.
    + rewrite (testbit_high x 32 i) by lia. reflexivity.
Qed.

Lemma lor_low_ones a k :
  0 <= a -> 0 <= k -> a mod 2 ^ k = 0 -> Z.lor a (2 ^ k - 1) = a + 2 ^ k - 1.
Proof.
  intros Ha Hk Hmod.
  assert (Hl : Z.land a (2 ^ k - 1) = 0).
  { rewrite Z.sub_1_r, <- Z.ones_equiv, Z.land_ones by lia. exact Hmod. }
  rewrite <- Z.lxor_lor by exact Hl.
  rewrite <- Z.add_nocarry_lxor by exact Hl. lia.
Qed.

Lemma lor_range a b n :
  0 <= n -> 0 <= a < 2 ^ n -> 0 <= b < 2 ^ n -> 0 <= Z.lor a b < 2 ^ n.
Proof.
  intros Hn Ha Hb.
  assert (H0 : 0 <= Z.lor a b) by (apply Z.lor_nonneg; lia).
  split; [exact H0 |].
  destruct (Z.eq_dec (Z.lor a b) 0) as [E | NE].
  - rewrite E. apply pow2_pos; lia.
  - assert (Hpos : 0 < n).
    { destruct (Z.eq_dec n 0) as [-> | ]; [| lia].
      change (2 ^ 0) with 1 in *.
      assert (a = 0) by lia. assert (b = 0) by lia. subst. simpl in NE. lia. }
    apply Z.log2_lt_pow2; [lia |].
    rewrite Z.log2_lor by lia.
    apply Z.max_lub_lt.
    + destruct (Z.eq_dec a 0) as [-> | Na]; [simpl; lia |].
      apply Z.log2_lt_pow2; lia.
    + destruct (Z.eq_dec b 0) as [-> | Nb]; [simpl; lia |].
      apply Z.log2_lt_pow2; lia.
Qed.

(** The four octets of an address are put side by side. *)
Lemma lor_shl_add a b k :
  0 <= k -> 0 <= a -> 0 <= b < 2 ^ k -> Z.lor (a * 2 ^ k) b = a * 2 ^ k + b.
Proof.
  intros Hk Ha Hb.
  assert (Hl : Z.land (a * 2 ^ k) b = 0).
  { apply Z.bits_inj'. intros i Hi. rewrite Z.land_spec, Z.bits_0.
    rewrite <- Z.shiftl_mul_pow2 by lia.
    destruct (Z.ltb_spec i k).
    - rewrite Z.shiftl_spec_low by lia. reflexivity.
    - rewrite (testbit_high b k i) by lia. apply andb_false_r. }
  rewrite <- Z.lxor_lor by exact Hl.
  rewrite <- Z.add_nocarry_lxor by exact Hl. reflexivity.
Qed.

Lemma uint32_range b : 0 <= net.uint32 b < 256.
Proof.
  unfold net.uint32. pose proof (Byte.to_N_bounded b). lia.
Qed.

Lemma pack_octets a b c d :
  0 <= a < 256 -> 0 <= b < 256 -> 0 <= c < 256 -> 0 <= d < 256 ->
  Z.lor (Z.lor (Z.lor (U32.shl a 24) (U32.shl b 16)) (U32.shl c 8)) d
  = octets a b c d.
Proof.
  intros Ha Hb Hc Hd. unfold U32.shl, octets.
  rewrite !Z.shiftl_mul_pow2 by lia.
  rewrite !wrap_small by lia.
  rewrite (lor_shl_add a (b * 2 ^ 16) 24) by lia.
  replace (a * 2 ^ 24 + b * 2 ^ 16) with ((a * 2 ^ 8 + b) * 2 ^ 16) by lia.
  rewrite (lor_shl_add (a * 2 ^ 8 + b) (c * 2 ^ 8) 16) by lia.
  replace ((a * 2 ^ 8 + b) * 2 ^ 16 + c * 2 ^ 8)
    with ((a * 2 ^ 16 + b * 2 ^ 8 + c) * 2 ^ 8) by lia.
  rewrite (lor_shl_add (a * 2 ^ 16 + b * 2 ^ 8 + c) d 8) by lia.
  lia.
Qed.

Lemma octets_range a b c d :
  0 <= a < 256 -> 0 <= b < 256 -> 0 <= c < 256 -> 0 <= d < 256 ->
  0 <= octets a b c d < 2 ^ 32.
Proof. unfold octets. lia. Qed.

Lemma octets_unpack a b c d :
  0 <= a < 256 -> 0 <= b < 256 -> 0 <= c < 256 -> 0 <= d < 256 ->
  let v := octets a b c d in
  Z.land (U32.shr v 24) 255 = a /\ Z.land (U32.shr v 16) 255 = b /\
  Z.land (U32.shr v 8) 255 = c /\ Z.land v 255 = d.
Proof.
  intros Ha Hb Hc Hd v. unfold U32.shr.
  change 255 with (Z.ones 8).
  rewrite !Z.land_ones, !Z.shiftr_div_pow2 by lia.
  subst v. unfold octets.
  change (2 ^ 24) with 16777216. change (2 ^ 16) with 65536. change (2 ^ 8) with 256.
  repeat split; Z.div_mod_to_equations; lia.
Qed.

Lemma octets_pack v :
  0 <= v < 2 ^ 32 ->
  octets (Z.land (U32.shr v 24) 255) (Z.land (U32.shr v 16) 255)
         (Z.land (U32.shr v 8) 255) (Z.land v 255) = v.
Proof.
  intros Hv. unfold U32.shr, octets.
  change 255 with (Z.ones 8).
  rewrite !Z.land_ones, !Z.shiftr_div_pow2 by lia.
  change (2 ^ 24) with 16777216. change (2 ^ 16) with 65536. change (2 ^ 8) with 256.
  Z.div_mod_to_equations. lia.
Qed.

(** ** [ParseIPv4] returns a [uint32] *)

Lemma ParseIPv4_octets s v :
  ParseIPv4 s = Ok v ->
  exists a b c d,
    0 <= a < 256 /\ 0 <= b < 256 /\ 0 <= c < 256 /\ 0 <= d < 256 /\
    v = octets a b c d.
Proof.
  unfold ParseIPv4. intros H.
  destruct (net.ParseIP s) as [ip |]; [| discriminate].
  destruct (net.To4 ip) as [ip4 |]; [| discriminate].
  injection H as <-.
  exists (net.uint32 (nth 0 ip4 x00)), (net.uint32 (nth 1 ip4 x00)),
         (net.uint32 (nth 2 ip4 x00)), (net.uint32 (nth 3 ip4 x00)).
  repeat split; try apply uint32_range.
  apply pack_octets; apply uint32_range.
Qed.

Lemma ParseIPv4_range s v : ParseIPv4 s = Ok v -> 0 <= v < 2 ^ 32.
Proof.
  intros H. destruct (ParseIPv4_octets s v H) as (a & b & c & d & Ha & Hb & Hc & Hd & ->).
  apply octets_range; assumption.
Qed.

(** ** Netmasks *)

Lemma prefix_mask_range p : 0 <= p <= 32 -> 0 <= prefix_mask p < 2 ^ 32.
Proof.
  intros H. unfold prefix_mask.
  pose proof (pow2_pos (32 - p)). pose proof (pow2_le (32 - p) 32). lia.
Qed.

Lemma ParseNetmask_fill_eq p :
  0 <= p <= 32 -> ParseNetmask_fill (Z.to_nat p) 0 0 = prefix_mask p.
Proof.
  intros H. apply Z.eqb_eq.
  check_below
           (fun p => ParseNetmask_fill (Z.to_nat p) 0 0 =? prefix_mask p) 33.
Qed.

Lemma ParseNetmask_count_eq p :
  0 <= p <= 32 -> ParseNetmask_count 32 0 0 (prefix_mask p) = p.
Proof.
  intros H. apply Z.eqb_eq.
  check_below
           (fun p => ParseNetmask_count 32 0 0 (prefix_mask p) =? p) 33.
Qed.

Lemma isValidNetmask_prefix_mask p :
  0 <= p <= 32 -> isValidNetmask (prefix_mask p) = true.
Proof.
  intros H.
  check_below (fun p => isValidNetmask (prefix_mask p)) 33.
Qed.

Lemma land_pow2 m i :
  0 <= i -> Z.land m (2 ^ i) = if Z.testbit m i then 2 ^ i else 0.
Proof.
  intros Hi. apply Z.bits_inj'. intros j Hj.
  rewrite Z.land_spec, Z.pow2_bits_eqb by lia.
  destruct (Z.eqb_spec i j) as [<- | Hne].
  - destruct (Z.testbit m i); simpl.
    + rewrite Z.pow2_bits_eqb, Z.eqb_refl by lia. reflexivity.
    + rewrite Z.bits_0. reflexivity.
  - rewrite andb_false_r.
    destruct (Z.testbit m i).
    + rewrite Z.pow2_bits_eqb by lia. symmetry. apply Z.eqb_neq. exact Hne.
    + rewrite Z.bits_0. reflexivity.
Qed.

(** The test [(mask & (1 << i)) != 0] reads bit [i]. *)
Lemma bit_test m i :
  0 <= i < 32 -> negb (Z.land m (U32.shl 1 i) =? 0) = Z.testbit m i.
Proof.
  intros Hi. rewrite shl_1, land_pow2 by lia.
  pose proof (pow2_pos i).
  destruct (Z.testbit m i); simpl.
  - destruct (Z.eqb_spec (2 ^ i) 0); [lia | reflexivity].
  - reflexivity.
Qed.

Lemma mod_succ_bit m t :
  0 <= t -> m mod 2 ^ (t + 1) = m mod 2 ^ t + 2 ^ t * Z.b2z (Z.testbit m t).
Proof.
  intros Ht. rewrite Z.testbit_spec' by lia.
  rewrite Z.pow_add_r by lia. change (2 ^ 1) with 2.
  pose proof (pow2_pos t Ht).
  apply Z.rem_mul_r; lia.
Qed.

Lemma isValidNetmask_loop_seen n : forall i m,
  i = Z.of_nat n - 1 -> (n <= 32)%nat ->
  isValidNetmask_loop n i m true = true -> m mod 2 ^ Z.of_nat n = 0.
Proof.
  induction n as [| t IH]; intros i m Hi Hn H.
  - apply Z.mod_1_r.
  - simpl in H. rewrite bit_test in H by lia.
    destruct (Z.testbit m i) eqn:Hb; simpl in H; [discriminate |].
    apply IH in H; [| lia | lia].
    replace (Z.of_nat (S t)) with (Z.of_nat t + 1) by lia.
    rewrite mod_succ_bit by lia.
    replace (Z.of_nat t) with i by lia.
    replace (Z.of_nat t) with i in H by lia.
    rewrite Hb, H. simpl. lia.
Qed.

Lemma isValidNetmask_loop_fresh n : forall i m,
  i = Z.of_nat n - 1 -> (n <= 32)%nat ->
  isValidNetmask_loop n i m false = true ->
  exists j, 0 <= j <= Z.of_nat n /\ m mod 2 ^ Z.of_nat n = 2 ^ Z.of_nat n - 2 ^ j.
Proof.
  induction n as [| t IH]; intros i m Hi Hn H.
  - exists 0. split; [lia |]. rewrite Z.mod_1_r. reflexivity.
  - simpl in H. rewrite bit_test in H by lia.
    replace (Z.of_nat (S t)) with (i + 1) by lia.
    rewrite mod_succ_bit by lia.
    destruct (Z.testbit m i) eqn:Hb; simpl in H.
    + apply IH in H; [| lia | lia].
      destruct H as (j & Hj & E).
      replace (Z.of_nat t) with i in * by lia.
      exists j. split; [lia |].
      rewrite E, Z.pow_add_r by lia. simpl Z.b2z. lia.
    + apply isValidNetmask_loop_seen in H; [| lia | lia].
      replace (Z.of_nat t) with i in * by lia.
      exists (i + 1). split; [lia |].
      rewrite H. simpl Z.b2z. lia.
Qed.

Lemma isValidNetmask_sound m :
  0 <= m < 2 ^ 32 -> isValidNetmask m = true ->
  exists p, 0 <= p <= 32 /\ m = prefix_mask p.
Proof.
  intros Hm H. unfold isValidNetmask in H.
  apply (isValidNetmask_loop_fresh 32 31 m) in H; [| reflexivity | lia].
  destruct H as (j & Hj & E).
  change (Z.of_nat 32) with 32 in *.
  rewrite Z.mod_small in E by lia.
  exists (32 - j). split; [lia |].
  unfold prefix_mask. replace (32 - (32 - j)) with j by lia. exact E.
Qed.

Lemma isValidNetmask_iff m :
  0 <= m < 2 ^ 32 ->
  isValidNetmask m = true <-> exists p, 0 <= p <= 32 /\ m = prefix_mask p.
Proof.
  intros Hm. split.
  - apply isValidNetmask_sound. exact Hm.
  - intros (p & Hp & ->). apply isValidNetmask_prefix_mask. exact Hp.
Qed.

(** What [ParseNetmask] returns is a prefix length and its netmask. *)
Lemma ParseNetmask_ok s m p :
  ParseNetmask s = Ok (m, p) -> 0 <= p <= 32 /\ m = prefix_mask p.
Proof.
  unfold ParseNetmask. intros H.
  destruct (strconv.Atoi (strings.TrimPrefix s "/")) as [bitCount |].
  - destruct ((bitCount <? 0) || (32 <? bitCount)) eqn:Hr; [discriminate |].
    apply orb_false_iff in Hr. destruct Hr as [H1 H2].
    apply Z.ltb_ge in H1, H2.
    injection H as <- <-. split; [lia |].
    apply ParseNetmask_fill_eq. lia.
  - destruct (ParseIPv4 (strings.TrimPrefix s "/")) as [mask | e] eqn:Hp;
      [| discriminate].
    destruct (isValidNetmask mask) eqn:Hv; cbn [negb] in H; [| discriminate].
    assert (Em : m = mask) by congruence.
    assert (Ep : p = ParseNetmask_count 32 0 0 mask) by congruence.
    clear H.
    apply isValidNetmask_sound in Hv; [| eapply ParseIPv4_range; eassumption].
    destruct Hv as (q & Hq & ->).
    rewrite ParseNetmask_count_eq in Ep by exact Hq. subst. auto.
Qed.

(** ** [CalculateNetwork] *)

Lemma not_prefix_mask p :
  0 <= p <= 32 -> U32.not (prefix_mask p) = 2 ^ (32 - p) - 1.
Proof.
  intros H. rewrite not_eq by (apply prefix_mask_range; exact H).
  unfold prefix_mask. lia.
Qed.

Lemma network_id_arith ip p :
  0 <= ip < 2 ^ 32 -> 0 <= p <= 32 ->
  Z.land ip (prefix_mask p) = ip - ip mod 2 ^ (32 - p).
Proof.
  intros Hip Hp. unfold prefix_mask. apply land_high_mask; lia.
Qed.

Lemma network_id_aligned ip k : 0 <= k -> (ip - ip mod 2 ^ k) mod 2 ^ k = 0.
Proof.
  intros Hk. pose proof (pow2_pos k Hk).
  rewrite Zminus_mod_idemp_r, Z.sub_diag. apply Z.mod_0_l. lia.
Qed.

Lemma broadcast_arith ip p :
  0 <= ip < 2 ^ 32 -> 0 <= p <= 32 ->
  Z.lor (Z.land ip (prefix_mask p)) (U32.not (prefix_mask p))
  = ip - ip mod 2 ^ (32 - p) + 2 ^ (32 - p) - 1.
Proof.
  intros Hip Hp.
  rewrite network_id_arith, not_prefix_mask by assumption.
  assert (Hpos : 0 < 2 ^ (32 - p)) by (apply pow2_pos; lia).
  assert (Hle : ip mod 2 ^ (32 - p) <= ip) by (apply Z.mod_le; lia).
  apply lor_low_ones; [lia | lia | apply network_id_aligned; lia].
Qed.

(** The fields of a network that [CalculateNetwork] returns, as the
    function sets them. *)
Lemma CalculateNetwork_ok ipStr maskStr n :
  CalculateNetwork ipStr maskStr = Ok n ->
  exists ip p,
    ParseIPv4 ipStr = Ok ip /\ ParseNetmask maskStr = Ok (prefix_mask p, p) /\
    0 <= ip < 2 ^ 32 /\ 0 <= p <= 32 /\
    Address n = ip /\ Netmask n = prefix_mask p /\ BitCount n = p /\
    NetworkID n = Z.land ip (prefix_mask p) /\
    Broadcast n = Z.lor (NetworkID n) (U32.not (Netmask n)) /\
    (HostMin n, HostMax n, HostsCount n)
    = (if p =? 31 then (NetworkID n, Broadcast n, 2)
       else if p =? 32 then (NetworkID n, NetworkID n, 1)
       else (U32.add (NetworkID n) 1, U32.sub (Broadcast n) 1,
             U32.sub (U32.shl 1 (32 - p)) 2)) /\
    Class n = GetClass ip.
Proof.
  unfold CalculateNetwork. intros H.
  destruct (ParseIPv4 ipStr) as [ip | e] eqn:Hip; [| discriminate].
  destruct (ParseNetmask maskStr) as [[mask bitCount] | e] eqn:Hm; [| discriminate].
  destruct (ParseNetmask_ok _ _ _ Hm) as [Hp ->].
  exists ip, bitCount.
  pose proof (ParseIPv4_range _ _ Hip) as Hr.
  destruct (bitCount =? 31) eqn:E31; [| destruct (bitCount =? 32) eqn:E32];
    injection H as <-; cbn [Address Netmask BitCount NetworkID Broadcast HostMin
                              HostMax HostsCount Class]; repeat split; auto; lia.
Qed.

(** C5. For every address text that [ParseIPv4] reads as [ip] and every
    mask text that [ParseNetmask] reads as the mask [mask] of prefix length
    [p], [CalculateNetwork] returns a network with that address, that mask
    and that prefix length, whose network id is [ip] rounded down to a
    multiple of [2^(32 - p)] and whose broadcast address is the last address
    of that block, and it sets the host fields by [p]: for [p] in [0, 30]
    the first host is the network id plus one, the last host the broadcast
    address minus one and the host count [2^(32 - p) - 2] as a 32-bit
    value; for 31 they are the network id, the broadcast address and 2; for
    32 the network id twice and 1. *)
Theorem CalculateNetwork_host_fields ipStr maskStr ip mask p :
  ParseIPv4 ipStr = Ok ip -> ParseNetmask maskStr = Ok (mask, p) ->
  exists n,
    CalculateNetwork ipStr maskStr = Ok n /\
    Address n = ip /\ Netmask n = mask /\ BitCount n = p /\
    0 <= p <= 32 /\
    NetworkID n = ip - ip mod 2 ^ (32 - p) /\
    Broadcast n = NetworkID n + 2 ^ (32 - p) - 1 /\
    (0 <= p <= 30 ->
       HostMin n = NetworkID n + 1 /\ HostMax n = Broadcast n - 1 /\
       HostsCount n = (2 ^ (32 - p) - 2) mod 2 ^ 32) /\
    (p = 31 ->
       HostMin n = NetworkID n /\ HostMax n = Broadcast n /\ HostsCount n = 2) /\
    (p = 32 ->
       HostMin n = NetworkID n /\ HostMax n = NetworkID n /\ HostsCount n = 1).
Proof.
  intros Hparse Hmaskp.
  assert (E : exists n, CalculateNetwork ipStr maskStr = Ok n).
  { unfold CalculateNetwork. rewrite Hparse, Hmaskp.
    destruct (p =? 31); [| destruct (p =? 32)]; eexists; reflexivity. }
  destruct E as (n & H). exists n. split; [exact H |].
  destruct (CalculateNetwork_ok _ _ _ H)
    as (ip' & p' & Hip' & Hm' & Hip & Hp & Ha & Hmask & Hbits & Hid & Hbc
        & Hhost & _).
  assert (Eip : ip' = ip) by congruence.
  assert (Ep : p' = p) by congruence.
  assert (Em : prefix_mask p' = mask) by congruence.
  rewrite Eip in Ha, Hip, Hid. rewrite Em in Hmask.
  rewrite Ep in Hp, Hbits, Hhost. rewrite Ep in Hid.
  assert (Hbc' : Broadcast n = NetworkID n + 2 ^ (32 - p) - 1).
  { rewrite Hbc, Hmask, <- Em, Ep, Hid, broadcast_arith, network_id_arith
      by assumption. lia. }
  rewrite network_id_arith in Hid by assumption.
  refine (conj Ha (conj Hmask (conj Hbits (conj Hp (conj Hid (conj Hbc' _)))))).
  split; [| split].
  - intros Hlow.
    destruct (Z.eqb_spec p 31); [lia |]. destruct (Z.eqb_spec p 32); [lia |].
    injection Hhost as -> -> ->.
    assert (H4 : 4 <= 2 ^ (32 - p)) by (apply (pow2_le 2 (32 - p)); lia).
    assert (Hmod : 0 <= ip mod 2 ^ (32 - p) < 2 ^ (32 - p))
      by (apply Z.mod_pos_bound; lia).
    assert (Hdiv : NetworkID n + 2 ^ (32 - p) <= 2 ^ 32).
    { rewrite Hid.
      pose proof (Z.div_mod ip (2 ^ (32 - p))) as D.
      assert (Hq : ip / 2 ^ (32 - p) < 2 ^ p).
      { apply Z.div_lt_upper_bound; [lia |].
        rewrite <- Z.pow_add_r by lia. replace (32 - p + p) with 32 by lia. lia. }
      rewrite (pow2_split (32 - p) 32) by lia.
      replace (32 - (32 - p)) with p by lia. nia. }
    assert (Hle : ip mod 2 ^ (32 - p) <= ip) by (apply Z.mod_le; lia).
    unfold U32.add, U32.sub.
    rewrite (wrap_small (NetworkID n + 1)), (wrap_small (Broadcast n - 1)) by lia.
    repeat split; try lia.
    unfold U32.wrap, U32.modulus, U32.shl.
    rewrite Z.shiftl_1_l. unfold U32.wrap, U32.modulus.
    apply Zminus_mod_idemp_l.
  - intros E31. rewrite E31 in Hhost. simpl in Hhost.
    injection Hhost as -> -> ->. auto.
  - intros E32. rewrite E32 in Hhost. simpl in Hhost.
    injection Hhost as -> -> ->. auto.
Qed.

Lemma CalculateNetwork_host_fields_witness :
  exists n,
    CalculateNetwork "10.0.0.5" "31" = Ok n /\
    Address n = 167772165 /\ Netmask n = 4294967294 /\ BitCount n = 31 /\
    0 <= 31 <= 32 /\
    NetworkID n = 167772165 - 167772165 mod 2 ^ (32 - 31) /\
    Broadcast n = NetworkID n + 2 ^ (32 - 31) - 1 /\
    (0 <= 31 <= 30 ->
       HostMin n = NetworkID n + 1 /\ HostMax n = Broadcast n - 1 /\
       HostsCount n = (2 ^ (32 - 31) - 2) mod 2 ^ 32) /\
    (31 = 31 ->
       HostMin n = NetworkID n /\ HostMax n = Broadcast n /\ HostsCount n = 2) /\
    (31 = 32 ->
       HostMin n = NetworkID n /\ HostMax n = NetworkID n /\ HostsCount n = 1).
Proof.
  apply (CalculateNetwork_host_fields "10.0.0.5" "31" 167772165 4294967294 31);
    reflexivity.
Defined.

(** C7. For every network that [CalculateNetwork] returns, the network id
    has no bit in common with the wildcard mask and the broadcast address is
    the network id or-ed with the wildcard mask, the wildcard mask being what
    [GetWildcardMask] computes: the complement of the netmask on 32 bits. *)
Theorem CalculateNetwork_wildcard ipStr maskStr n :
  CalculateNetwork ipStr maskStr = Ok n ->
  Z.land (NetworkID n) (GetWildcardMask (Netmask n)) = 0 /\
  Broadcast n = Z.lor (NetworkID n) (GetWildcardMask (Netmask n)) /\
  0 <= GetWildcardMask (Netmask n) < 2 ^ 32 /\
  (forall i, 0 <= i < 32 ->
     Z.testbit (GetWildcardMask (Netmask n)) i = negb (Z.testbit (Netmask n) i)).
Proof.
  intros H.
  destruct (CalculateNetwork_ok _ _ _ H)
    as (ip & p & _ & _ & Hip & Hp & _ & Hmask & _ & Hid & Hbc & _).
  unfold GetWildcardMask. repeat split.
  - rewrite Hmask, not_prefix_mask, Hid, network_id_arith by assumption.
    rewrite Z.sub_1_r, <- Z.ones_equiv, Z.land_ones by lia.
    apply network_id_aligned. lia.
  - exact Hbc.
  - apply wrap_range.
  - apply wrap_range.
  - intros i Hi. unfold U32.not, U32.wrap, U32.modulus.
    rewrite Z.mod_pow2_bits_low by lia.
    apply Z.lnot_spec. lia.
Qed.

Lemma CalculateNetwork_wildcard_witness :
  CalculateNetwork "10.1.2.3" "255.255.0.0" = Ok net_10_1_2_3_16 /\
  Z.land (NetworkID net_10_1_2_3_16) (GetWildcardMask (Netmask net_10_1_2_3_16)) = 0 /\
  Broadcast net_10_1_2_3_16
  = Z.lor (NetworkID net_10_1_2_3_16) (GetWildcardMask (Netmask net_10_1_2_3_16)).
Proof.
  set (n := net_10_1_2_3_16).
  assert (E : CalculateNetwork "10.1.2.3" "255.255.0.0" = Ok n) by reflexivity.
  split; [exact E |].
  destruct (CalculateNetwork_wildcard _ _ _ E) as (H1 & H2 & _).
  split; assumption.
Defined.

(** ** [ParseNetmask] on a dotted mask *)

Lemma prefix_mask_bits p i :
  0 <= p <= 32 -> 0 <= i < 32 -> Z.testbit (prefix_mask p) i = (32 - p <=? i).
Proof.
  intros Hp Hi.
  assert (E : prefix_mask p = Z.shiftl (Z.ones p) (32 - p)).
  { unfold prefix_mask. rewrite Z.shiftl_mul_pow2, Z.ones_equiv by lia.
    rewrite <- Z.sub_1_r, Z.mul_sub_distr_r, <- Z.pow_add_r by lia.
    replace (p + (32 - p)) with 32 by lia. lia. }
  rewrite E. destruct (Z.leb_spec (32 - p) i).
  - rewrite Z.shiftl_spec by lia. apply Z.ones_spec_low. lia.
  - apply Z.shiftl_spec_low. lia.
Qed.

Lemma leading_run_iff m p :
  0 <= m < 2 ^ 32 -> leading_run m p <-> 0 <= p <= 32 /\ m = prefix_mask p.
Proof.
  intros Hm. unfold leading_run. split.
  - intros [Hp Hbits]. split; [exact Hp |].
    apply Z.bits_inj'. intros i Hi.
    destruct (Z.ltb_spec i 32).
    + rewrite Hbits, prefix_mask_bits by lia. reflexivity.
    + rewrite (testbit_high m 32 i) by lia.
      rewrite (testbit_high (prefix_mask p) 32 i);
        [reflexivity | apply prefix_mask_range; lia | lia].
  - intros [Hp ->]. split; [exact Hp |].
    intros i Hi. apply prefix_mask_bits; assumption.
Qed.

Lemma leading_run_unique m p q : leading_run m p -> leading_run m q -> p = q.
Proof.
  intros [Hp Bp] [Hq Bq].
  destruct (Z.lt_trichotomy p q) as [L | [E | L]]; [| exact E |]; exfalso.
  - specialize (Bp (32 - q) ltac:(lia)). specialize (Bq (32 - q) ltac:(lia)).
    rewrite Bp in Bq.
    destruct (Z.leb_spec (32 - p) (32 - q)); destruct (Z.leb_spec (32 - q) (32 - q));
      try lia; discriminate.
  - specialize (Bp (32 - p) ltac:(lia)). specialize (Bq (32 - p) ltac:(lia)).
    rewrite Bp in Bq.
    destruct (Z.leb_spec (32 - p) (32 - p)); destruct (Z.leb_spec (32 - q) (32 - p));
      try lia; discriminate.
Qed.

Lemma is_digit_plain c :
  is_digit c = true ->
  Ascii.eqb c "." = false /\ Ascii.eqb c ":" = false /\ Ascii.eqb c "%" = false.
Proof.
  destruct c as [[] [] [] [] [] [] [] []]; intros H; try discriminate H;
    repeat split; reflexivity.
Qed.

Lemma digits_dispatch s : forall acc n,
  strconv.digits s acc = Some n -> net.dispatch s = net.FamNone.
Proof.
  induction s as [| c r IH]; intros acc n H; [reflexivity |].
  simpl in H. destruct (is_digit c) eqn:Hd; [| discriminate].
  destruct (is_digit_plain c Hd) as (E1 & E2 & E3).
  simpl. rewrite E1, E2, E3. eapply IH. exact H.
Qed.

(** A text that [strconv.Atoi] accepts is no address for [net.ParseIP]. *)
Lemma Atoi_not_address s n : strconv.Atoi s = Some n -> net.ParseIP s = None.
Proof.
  intros H.
  assert (D : net.dispatch s = net.FamNone).
  { unfold strconv.Atoi in H.
    destruct s as [| c r]; [reflexivity |].
    assert (Body : forall neg t,
      strconv.Atoi_unsigned neg t = Some n -> net.dispatch t = net.FamNone).
    { intros neg t Ht. unfold strconv.Atoi_unsigned in Ht.
      destruct t as [| c' r']; [reflexivity |].
      destruct (strconv.digits (String c' r') 0) eqn:Hd; [| discriminate].
      eapply digits_dispatch. exact Hd. }
    destruct (Ascii.eqb_spec c "-") as [-> | N1].
    - simpl. eapply Body. exact H.
    - destruct (Ascii.eqb_spec c "+") as [-> | N2].
      + simpl. eapply Body. exact H.
      + eapply Body. exact H. }
  unfold net.ParseIP. rewrite D. reflexivity.
Qed.

Lemma ParseIPv4_not_Atoi s m : ParseIPv4 s = Ok m -> strconv.Atoi s = None.
Proof.
  intros H. destruct (strconv.Atoi s) as [n |] eqn:E; [| reflexivity].
  apply Atoi_not_address in E. unfold ParseIPv4 in H. rewrite E in H. discriminate.
Qed.

(** C6. For every mask text that, once a leading slash is removed, is an
    IPv4 dotted quad (hence no integer), [ParseNetmask] succeeds exactly when
    the 32-bit value [m] of the text is a run of 1 bits from the most
    significant bit followed by 0 bits only; it then returns [m] with the
    length of that run, and otherwise fails with the not-contiguous error.
    The text 255.0.255.0 is rejected. *)
Theorem ParseNetmask_dotted maskStr m :
  ParseIPv4 (strings.TrimPrefix maskStr "/") = Ok m ->
  (is_ok (ParseNetmask maskStr) = true <-> contiguous m) /\
  (forall p, leading_run m p -> ParseNetmask maskStr = Ok (m, p)) /\
  (~ contiguous m ->
   ParseNetmask maskStr
   = Err ("invalid netmask: " +++ strings.TrimPrefix maskStr "/"
          +++ " (not contiguous)")) /\
  ParseNetmask "255.0.255.0" = Err "invalid netmask: 255.0.255.0 (not contiguous)".
Proof.
  intros H.
  pose proof (ParseIPv4_range _ _ H) as Hm.
  pose proof (ParseIPv4_not_Atoi _ _ H) as Ha.
  assert (Hyes : forall p, leading_run m p -> ParseNetmask maskStr = Ok (m, p)).
  { intros p Hp. apply leading_run_iff in Hp; [| exact Hm].
    destruct Hp as [Hp ->].
    unfold ParseNetmask. rewrite Ha, H.
    rewrite isValidNetmask_prefix_mask by exact Hp. cbn [negb].
    rewrite ParseNetmask_count_eq by exact Hp. reflexivity. }
  assert (Hno : ~ contiguous m ->
                ParseNetmask maskStr
                = Err ("invalid netmask: " +++ strings.TrimPrefix maskStr "/"
                       +++ " (not contiguous)")).
  { intros Hn. unfold ParseNetmask. rewrite Ha, H.
    destruct (isValidNetmask m) eqn:Hv; [| reflexivity].
    exfalso. apply Hn.
    apply isValidNetmask_sound in Hv; [| exact Hm].
    destruct Hv as (p & Hp & E). exists p. apply leading_run_iff; auto. }
  repeat split.
  - intros Hok. unfold ParseNetmask in Hok. rewrite Ha, H in Hok.
    destruct (isValidNetmask m) eqn:Hv; [| discriminate Hok].
    apply isValidNetmask_sound in Hv; [| exact Hm].
    destruct Hv as (p & Hp & E). exists p. apply leading_run_iff; auto.
  - intros [p Hp]. rewrite (Hyes p Hp). reflexivity.
  - exact Hyes.
  - exact Hno.
Qed.

Lemma ParseNetmask_dotted_witness :
  ParseIPv4 (strings.TrimPrefix "255.255.255.0" "/") = Ok 4294967040 /\
  (is_ok (ParseNetmask "255.255.255.0") = true <-> contiguous 4294967040).
Proof.
  split; [reflexivity |].
  apply (ParseNetmask_dotted "255.255.255.0" 4294967040). reflexivity.
Defined.

(** ** [Deaggregate] *)

Lemma shl_ones_prefix_mask p :
  0 <= p <= 32 -> U32.shl 4294967295 (32 - p) = prefix_mask p.
Proof. intros H. unfold prefix_mask. apply shl_ones. lia. Qed.

(** One round of the prefix search: the round stops exactly when the block
    fits. *)
Lemma Deaggregate_prefix_round start end_ p :
  0 <= start < 2 ^ 32 -> 0 <= p <= 32 ->
  let mask := U32.shl 4294967295 (32 - p) in
  let networkID := Z.land start mask in
  let blockEnd := Z.lor networkID (U32.not mask) in
  ((end_ <? blockEnd) = false /\ (networkID =? start) = true)
  <-> block_fits start end_ p.
Proof.
  intros Hs Hp mask networkID blockEnd.
  subst blockEnd networkID mask.
  rewrite shl_ones_prefix_mask, broadcast_arith, network_id_arith by assumption.
  assert (Hpos : 0 < 2 ^ (32 - p)) by (apply pow2_pos; lia).
  pose proof (Z.mod_pos_bound start (2 ^ (32 - p)) Hpos) as Hmod.
  unfold block_fits. rewrite Z.ltb_ge, Z.eqb_eq. split.
  - intros [H1 H2]. split; lia.
  - intros [H1 H2]. split; lia.
Qed.

Lemma Deaggregate_prefix_loop start end_ :
  0 <= start < 2 ^ 32 ->
  forall todo prefix,
    prefix = 32 - Z.of_nat todo -> 0 <= prefix ->
    (forall q, 0 <= q < prefix -> ~ block_fits start end_ q) ->
    let r := Deaggregate_prefix todo prefix start end_ in
    prefix <= r <= 32 /\ (r < 32 -> block_fits start end_ r) /\
    (forall q, 0 <= q < r -> ~ block_fits start end_ q).
Proof.
  intros Hs. induction todo as [| t IH]; intros prefix Hp H0 Hmin.
  - simpl. repeat split; try lia. exact Hmin.
  - cbn [Deaggregate_prefix].
    pose proof (Deaggregate_prefix_round start end_ prefix Hs ltac:(lia)) as R.
    cbv zeta in R.
    assert (Hnext : ~ block_fits start end_ prefix ->
      let r := Deaggregate_prefix t (prefix + 1) start end_ in
      prefix <= r <= 32 /\ (r < 32 -> block_fits start end_ r) /\
      (forall q, 0 <= q < r -> ~ block_fits start end_ q)).
    { intros Hn. specialize (IH (prefix + 1) ltac:(lia) ltac:(lia)).
      destruct IH as (I1 & I2 & I3).
      - intros q Hq. destruct (Z.eq_dec q prefix) as [-> | ]; [exact Hn |].
        apply Hmin. lia.
      - cbv zeta. split; [lia | split; [exact I2 | exact I3]]. }
    destruct (end_ <? _) eqn:E1.
    + apply Hnext. intros F. apply R in F. destruct F. discriminate.
    + destruct (_ =? start) eqn:E2.
      * cbv zeta. split; [lia | split; [| exact Hmin]].
        intros _. apply R. auto.
      * apply Hnext. intros F. apply R in F. destruct F. discriminate.
Qed.

(** The prefix length the search returns: the smallest one whose block
    fits, 32 when the search runs to its end. *)
Lemma Deaggregate_prefix_spec start end_ :
  0 <= start < 2 ^ 32 -> start <= end_ ->
  let p := Deaggregate_prefix 32 0 start end_ in
  0 <= p <= 32 /\ block_fits start end_ p /\
  (forall q, 0 <= q < p -> ~ block_fits start end_ q).
Proof.
  intros Hs Hle.
  destruct (Deaggregate_prefix_loop start end_ Hs 32 0 eq_refl ltac:(lia))
    as (H1 & H2 & H3).
  { intros q Hq. lia. }
  cbv zeta. split; [lia | split; [| exact H3]].
  destruct (Z.eq_dec (Deaggregate_prefix 32 0 start end_) 32) as [E | NE].
  - rewrite E. split; simpl; [apply Z.mod_1_r | lia].
  - apply H2. lia.
Qed.

Lemma Deaggregate_prefix_range start end_ :
  0 <= start < 2 ^ 32 -> 0 <= Deaggregate_prefix 32 0 start end_ <= 32.
Proof.
  intros Hs.
  destruct (Deaggregate_prefix_loop start end_ Hs 32 0 eq_refl ltac:(lia))
    as (H1 & _).
  { intros q Hq. lia. }
  exact H1.
Qed.

(** The strings the loop appends are the blocks, printed. *)
Lemma Deaggregate_loop_blocks end_ fuel : forall start blocks,
  Deaggregate_loop fuel start end_ (map CIDR blocks)
  = option_map (map CIDR) (Deaggregate_blocks fuel start end_ blocks).
Proof.
  induction fuel as [| f IH]; intros start blocks;
    cbn [Deaggregate_loop Deaggregate_blocks].
  - destruct (start <=? end_); reflexivity.
  - destruct (start <=? end_); [| reflexivity].
    rewrite <- IH, map_app. reflexivity.
Qed.

(** When the range ends at 255.255.255.255 the cursor never passes it. *)
Lemma Deaggregate_blocks_top fuel : forall start blocks,
  0 <= start < 2 ^ 32 ->
  Deaggregate_blocks fuel start 4294967295 blocks = None.
Proof.
  induction fuel as [| f IH]; intros start blocks Hs; cbn [Deaggregate_blocks].
  - destruct (Z.leb_spec start 4294967295); [reflexivity | lia].
  - destruct (Z.leb_spec start 4294967295); [| lia].
    apply IH. apply wrap_range.
Qed.

(** Below 255.255.255.255 the cursor moves right by the size of the block
    and the loop is left after at most [end_ + 1 - start] rounds. *)
Lemma Deaggregate_blocks_run end_ :
  end_ < 4294967295 ->
  forall fuel start blocks,
    0 <= start -> start <= end_ + 1 ->
    (Z.to_nat (end_ + 1 - start) <= fuel)%nat ->
    exists bs,
      Deaggregate_blocks fuel start end_ blocks = Some (blocks ++ bs) /\
      tiling start bs end_.
Proof.
  intros Hend. induction fuel as [| f IH]; intros start blocks H0 Hle Hfuel.
  - exists []. simpl. rewrite app_nil_r.
    destruct (Z.leb_spec start end_); [lia |]. split; [reflexivity | lia].
  - cbn [Deaggregate_blocks].
    destruct (Z.leb_spec start end_) as [Hin | Hout].
    + destruct (Deaggregate_prefix_spec start end_ ltac:(lia) Hin)
        as (Hp & Hfit & Hmin).
      set (p := Deaggregate_prefix 32 0 start end_) in *.
      assert (Hpos : 0 < 2 ^ (32 - p)) by (apply pow2_pos; lia).
      assert (Hp1 : 1 <= p).
      { destruct (Z.eq_dec p 0) as [E | NE]; [| lia].
        destruct Hfit as [_ F]. rewrite E in F. simpl in F. lia. }
      assert (Hnext : U32.add start (U32.shl 1 (32 - p)) = start + 2 ^ (32 - p)).
      { unfold U32.add. rewrite shl_1 by lia. apply wrap_small.
        destruct Hfit as [_ F]. lia. }
      rewrite Hnext.
      destruct (IH (start + 2 ^ (32 - p)) (blocks ++ [(start, p)]))
        as (bs & E & T).
      * lia.
      * destruct Hfit as [_ F]. lia.
      * lia.
      * exists ((start, p) :: bs). split.
        -- rewrite E, <- app_assoc. reflexivity.
        -- cbn [tiling fst snd].
           split; [reflexivity | split; [lia | split; [exact Hfit |]]].
           split; [exact Hmin | exact T].
    + exists []. rewrite app_nil_r. split; [reflexivity | simpl; lia].
Qed.

Lemma Deaggregate_unfold fuel startStr endStr start end_ :
  ParseIPv4 startStr = Ok start -> ParseIPv4 endStr = Ok end_ ->
  start <= end_ ->
  Deaggregate fuel startStr endStr
  = option_map (fun bs => Ok (map CIDR bs))
      (Deaggregate_blocks fuel start end_ []).
Proof.
  intros Hs He Hle. unfold Deaggregate. rewrite Hs, He.
  destruct (Z.ltb_spec end_ start); [lia |].
  change (@nil string) with (map CIDR []).
  rewrite Deaggregate_loop_blocks.
  destruct (Deaggregate_blocks fuel start end_ []); reflexivity.
Qed.

(** C3. For every pair of valid IPv4 addresses with [start <= end], the loop
    of [Deaggregate] is left (for some number of rounds) if and only if [end]
    is not 255.255.255.255; when the block that is emitted ends at
    255.255.255.255, the 32-bit advance of the cursor wraps around to 0,
    which is not above [end]. *)
Theorem Deaggregate_terminates_iff startStr endStr start end_ :
  ParseIPv4 startStr = Ok start -> ParseIPv4 endStr = Ok end_ ->
  start <= end_ ->
  ((exists fuel r, Deaggregate fuel startStr endStr = Some r)
   <-> end_ <> 4294967295) /\
  (forall cursor p, 0 <= cursor -> 0 <= p <= 32 ->
     cursor + 2 ^ (32 - p) - 1 = 4294967295 ->
     U32.add cursor (U32.shl 1 (32 - p)) = 0) /\
  (end_ = 4294967295 -> forall fuel, Deaggregate fuel startStr endStr = None).
Proof.
  intros Hs He Hle.
  pose proof (ParseIPv4_range _ _ Hs) as Rs.
  pose proof (ParseIPv4_range _ _ He) as Re.
  assert (Htop : end_ = 4294967295 ->
                 forall fuel, Deaggregate fuel startStr endStr = None).
  { intros -> fuel. rewrite (Deaggregate_unfold fuel _ _ _ _ Hs He Hle).
    rewrite Deaggregate_blocks_top by exact Rs. reflexivity. }
  split; [split | split].
  - intros (fuel & r & E) ->. rewrite Htop in E by reflexivity. discriminate.
  - intros Hne.
    destruct (Deaggregate_blocks_run end_ ltac:(lia)
                (Z.to_nat (end_ + 1 - start)) start []) as (bs & E & _);
      try lia.
    exists (Z.to_nat (end_ + 1 - start)), (Ok (map CIDR bs)).
    rewrite (Deaggregate_unfold _ _ _ _ _ Hs He Hle), E. reflexivity.
  - intros cursor p Hc Hp Hsum. unfold U32.add, U32.shl.
    rewrite Z.shiftl_1_l. unfold U32.wrap, U32.modulus.
    rewrite Zplus_mod_idemp_r.
    replace (cursor + 2 ^ (32 - p)) with (1 * 2 ^ 32) by lia.
    apply Z.mod_mul. lia.
  - exact Htop.
Qed.

Lemma Deaggregate_terminates_iff_witness :
  (exists fuel r, Deaggregate fuel "192.168.0.1" "192.168.0.10" = Some r)
  <-> 3232235530 <> 4294967295.
Proof.
  apply (Deaggregate_terminates_iff "192.168.0.1" "192.168.0.10"
           3232235521 3232235530); [reflexivity | reflexivity | lia].
Defined.

(** C1, at the range 0.0.0.0 - 255.255.255.255: whatever the number of
    rounds, the loop of [Deaggregate] has not been left, and the cursor is
    back at 0.0.0.0 after every round, so no list is returned. *)
Theorem Deaggregate_whole_space_never_returns :
  (forall fuel, Deaggregate fuel "0.0.0.0" "255.255.255.255" = None) /\
  Deaggregate_prefix 32 0 0 4294967295 = 0 /\
  U32.add 0 (U32.shl 1 (32 - 0)) = 0.
Proof.
  split; [| split; reflexivity].
  intros fuel.
  rewrite (Deaggregate_unfold fuel "0.0.0.0" "255.255.255.255" 0 4294967295);
    [| reflexivity | reflexivity | lia].
  rewrite Deaggregate_blocks_top by lia. reflexivity.
Qed.

(** ** [SplitNetwork]: the sizing loop *)

Lemma mul2_wrap_pow k :
  0 <= k -> U32.mul (U32.wrap (2 ^ k)) 2 = U32.wrap (2 ^ (k + 1)).
Proof.
  intros Hk. unfold U32.mul, U32.wrap, U32.modulus.
  rewrite Z.mul_mod_idemp_l by lia.
  rewrite Z.pow_add_r by lia. reflexivity.
Qed.

(** More fuel does not change a result. *)
Lemma SplitNetwork_hostsNeeded_mono fuel : forall size h r fuel',
  SplitNetwork_hostsNeeded fuel size h = Some r -> (fuel <= fuel')%nat ->
  SplitNetwork_hostsNeeded fuel' size h = Some r.
Proof.
  induction fuel as [| f IH]; intros size h r fuel' H Hle.
  - cbn [SplitNetwork_hostsNeeded] in H.
    destruct fuel'; cbn [SplitNetwork_hostsNeeded];
      destruct (U32.sub h 2 <? U32.wrap size); congruence.
  - destruct fuel' as [| f']; [lia |].
    cbn [SplitNetwork_hostsNeeded] in *.
    destruct (U32.sub h 2 <? U32.wrap size); [| exact H].
    eapply IH; [exact H | lia].
Qed.

(** From [2^k] the loop is left within [32 - k] doublings, unless the size
    is [2^32 - 1]. *)
Lemma SplitNetwork_hostsNeeded_from size :
  U32.wrap size <> 4294967295 ->
  forall d k, k = 32 - Z.of_nat d -> 2 <= k ->
    exists h, SplitNetwork_hostsNeeded d size (U32.wrap (2 ^ k)) = Some h.
Proof.
  intros Hne. pose proof (wrap_range size) as Hr.
  induction d as [| d' IH]; intros k Hk H2.
  - subst k. change (U32.wrap (2 ^ (32 - Z.of_nat 0))) with 0.
    cbn [SplitNetwork_hostsNeeded].
    change (U32.sub 0 2) with 4294967294.
    destruct (Z.ltb_spec 4294967294 (U32.wrap size)); [lia |].
    exists 0. reflexivity.
  - cbn [SplitNetwork_hostsNeeded].
    destruct (U32.sub (U32.wrap (2 ^ k)) 2 <? U32.wrap size).
    + rewrite mul2_wrap_pow by lia. apply IH; lia.
    + eexists. reflexivity.
Qed.

Lemma SplitNetwork_hostsNeeded_diverges size :
  U32.wrap size = 4294967295 ->
  forall fuel h, 0 <= h < 2 ^ 32 -> h mod 4 = 0 ->
    SplitNetwork_hostsNeeded fuel size h = None.
Proof.
  intros Hmax. induction fuel as [| f IH]; intros h Hh H4;
    cbn [SplitNetwork_hostsNeeded]; rewrite Hmax.
  - destruct (Z.ltb_spec (U32.sub h 2) 4294967295) as [| Hge]; [reflexivity |].
    exfalso. unfold U32.sub, U32.wrap, U32.modulus in Hge.
    change (2 ^ 32) with 4294967296 in *.
    Z.div_mod_to_equations. lia.
  - destruct (Z.ltb_spec (U32.sub h 2) 4294967295) as [| Hge].
    + apply IH.
      * apply wrap_range.
      * unfold U32.mul, U32.wrap, U32.modulus.
        change (2 ^ 32) with 4294967296 in *.
        Z.div_mod_to_equations. lia.
    + exfalso. unfold U32.sub, U32.wrap, U32.modulus in Hge.
      change (2 ^ 32) with 4294967296 in *.
      Z.div_mod_to_equations. lia.
Qed.

Lemma SplitNetwork_sizes_diverges fuel sizes : forall hostCounts totalRequired,
  (exists size, In size sizes /\ U32.wrap size = 4294967295) ->
  SplitNetwork_sizes fuel sizes hostCounts totalRequired = None.
Proof.
  induction sizes as [| s r IH]; intros hostCounts totalRequired (size & Hin & Hmax).
  - destruct Hin.
  - cbn [SplitNetwork_sizes].
    destruct (SplitNetwork_hostsNeeded fuel s 4) as [h |] eqn:E; [| reflexivity].
    destruct Hin as [-> | Hin].
    + rewrite SplitNetwork_hostsNeeded_diverges in E;
        [discriminate | exact Hmax | lia | reflexivity].
    + apply IH. exists size. auto.
Qed.

(** C10. The doubling loop of [SplitNetwork] is left for every requested
    size whose conversion to [uint32] is not [2^32 - 1]; for a size that
    converts to [2^32 - 1], such as -1, [hostsNeeded] reaches 0 after 30
    doublings and the loop is never left, so [SplitNetwork] returns nothing
    on a valid network with such a size among the requests. *)
Theorem SplitNetwork_hostsNeeded_terminates_iff :
  (forall size, U32.wrap size <> 4294967295 ->
     exists fuel h, SplitNetwork_hostsNeeded fuel size 4 = Some h) /\
  (forall size, U32.wrap size = 4294967295 ->
     forall fuel, SplitNetwork_hostsNeeded fuel size 4 = None) /\
  U32.wrap (-1) = 4294967295 /\
  Nat.iter 30 (fun hostsNeeded => U32.mul hostsNeeded 2) 4 = 0 /\
  (forall fuel networkStr maskStr sizes network size,
     CalculateNetwork networkStr maskStr = Ok network ->
     In size sizes -> U32.wrap size = 4294967295 ->
     SplitNetwork fuel networkStr maskStr sizes = None).
Proof.
  split; [| split; [| split; [| split]]].
  - intros size Hne.
    destruct (SplitNetwork_hostsNeeded_from size Hne 30 2 eq_refl ltac:(lia))
      as (h & E).
    exists 30%nat, h. exact E.
  - intros size Hmax fuel.
    apply SplitNetwork_hostsNeeded_diverges; [exact Hmax | lia | reflexivity].
  - reflexivity.
  - vm_compute. reflexivity.
  - intros fuel networkStr maskStr sizes network size Hnet Hin Hmax.
    unfold SplitNetwork. rewrite Hnet.
    rewrite SplitNetwork_sizes_diverges; [reflexivity |].
    exists size. auto.
Qed.

Lemma SplitNetwork_hostsNeeded_terminates_iff_witness :
  (exists fuel h, SplitNetwork_hostsNeeded fuel 100 4 = Some h) /\
  (forall fuel, SplitNetwork_hostsNeeded fuel (-1) 4 = None) /\
  (forall fuel, SplitNetwork fuel "192.168.0.0" "24" [10; -1] = None).
Proof.
  destruct SplitNetwork_hostsNeeded_terminates_iff as (H1 & H2 & _ & _ & H5).
  split; [| split].
  - apply H1. vm_compute. discriminate.
  - apply H2. reflexivity.
  - intros fuel.
    apply (H5 fuel "192.168.0.0" "24" [10; -1] net_192_168_0_0_24 (-1)).
    + reflexivity.
    + right. left. reflexivity.
    + reflexivity.
Defined.

(** ** [SplitNetwork]: the allocation *)

(** The strings the allocation loop appends are the blocks, printed. *)
Lemma SplitNetwork_alloc_eq hostCounts : forall currentIP blocks,
  SplitNetwork_alloc hostCounts currentIP (map CIDR blocks)
  = match SplitNetwork_alloc_blocks hostCounts currentIP blocks with
    | Ok bs => Ok (map CIDR bs)
    | Err e => Err e
    end.
Proof.
  induction hostCounts as [| h rest IH]; intros currentIP blocks;
    cbn [SplitNetwork_alloc SplitNetwork_alloc_blocks]; [reflexivity |].
  destruct (CalculateNetwork _ _) as [n | e]; [| reflexivity].
  rewrite <- IH, map_app. reflexivity.
Qed.

Lemma SplitNetwork_eq fuel networkStr maskStr sizes :
  SplitNetwork fuel networkStr maskStr sizes
  = match SplitNetwork_blocks fuel networkStr maskStr sizes with
    | None => None
    | Some (Err e) => Some (Err e)
    | Some (Ok blocks) => Some (Ok (map CIDR blocks))
    end.
Proof.
  unfold SplitNetwork, SplitNetwork_blocks.
  destruct (CalculateNetwork networkStr maskStr) as [network | e]; [| reflexivity].
  destruct (SplitNetwork_sizes fuel sizes [] 0) as [[hostCounts total] |];
    [| reflexivity].
  destruct (_ <? total); [reflexivity |].
  change (@nil string) with (map CIDR []).
  rewrite SplitNetwork_alloc_eq.
  destruct (SplitNetwork_alloc_blocks hostCounts (NetworkID network) []);
    reflexivity.
Qed.

Lemma SplitNetwork_sizes_mono fuel fuel' sizes : forall hostCounts totalRequired r,
  SplitNetwork_sizes fuel sizes hostCounts totalRequired = Some r ->
  (fuel <= fuel')%nat ->
  SplitNetwork_sizes fuel' sizes hostCounts totalRequired = Some r.
Proof.
  induction sizes as [| s rest IH]; intros hostCounts totalRequired r H Hle.
  - exact H.
  - cbn [SplitNetwork_sizes] in *.
    destruct (SplitNetwork_hostsNeeded fuel s 4) as [h |] eqn:E; [| discriminate].
    rewrite (SplitNetwork_hostsNeeded_mono _ _ _ _ _ E Hle).
    apply IH; assumption.
Qed.

Lemma SplitNetwork_blocks_mono fuel fuel' networkStr maskStr sizes r :
  SplitNetwork_blocks fuel networkStr maskStr sizes = Some r ->
  (fuel <= fuel')%nat ->
  SplitNetwork_blocks fuel' networkStr maskStr sizes = Some r.
Proof.
  unfold SplitNetwork_blocks. intros H Hle.
  destruct (CalculateNetwork networkStr maskStr) as [network | e]; [| exact H].
  destruct (SplitNetwork_sizes fuel sizes [] 0) as [[hostCounts total] |] eqn:E;
    [| discriminate].
  rewrite (SplitNetwork_sizes_mono _ _ _ _ _ _ E Hle). exact H.
Qed.

(** A result of [SplitNetwork] does not depend on the fuel that produced it. *)
Lemma SplitNetwork_mono fuel fuel' networkStr maskStr sizes r :
  SplitNetwork fuel networkStr maskStr sizes = Some r ->
  (fuel <= fuel')%nat ->
  SplitNetwork fuel' networkStr maskStr sizes = Some r.
Proof.
  rewrite !SplitNetwork_eq. intros H Hle.
  destruct (SplitNetwork_blocks fuel networkStr maskStr sizes) as [b |] eqn:E;
    [| discriminate].
  rewrite (SplitNetwork_blocks_mono _ _ _ _ _ _ E Hle). exact H.
Qed.

(** C4. [SplitNetwork] does not keep its subnets apart: on 192.168.0.0/24
    with the requests 2 and 100, the cursor after the first subnet is
    192.168.0.4, which is not aligned to a /25 block; the second subnet is
    printed at the cursor masked down, 192.168.0.0, inside the first one, so
    the result is 192.168.0.0/30 followed by 192.168.0.0/25 and the two
    blocks share addresses. *)
Theorem SplitNetwork_overlap :
  (forall fuel, (5 <= fuel)%nat ->
     SplitNetwork fuel "192.168.0.0" "24" [2; 100]
     = Some (Ok ["192.168.0.0/30"; "192.168.0.0/25"])) /\
  SplitNetwork_blocks 5 "192.168.0.0" "24" [2; 100]
  = Some (Ok [(3232235520, 30); (3232235520, 25)]) /\
  U32.add 3232235520 (U32.shl 1 (32 - 30)) = 3232235524 /\
  3232235524 mod 2 ^ (32 - 25) <> 0 /\
  Z.land 3232235524 (prefix_mask 25) = 3232235520 /\
  in_block (3232235520, 30) 3232235520 /\
  in_block (3232235520, 25) 3232235520 /\
  ~ (forall fuel networkStr maskStr sizes blocks,
       SplitNetwork_blocks fuel networkStr maskStr sizes = Some (Ok blocks) ->
       pairwise_disjoint blocks).
Proof.
  assert (E : SplitNetwork_blocks 5 "192.168.0.0" "24" [2; 100]
              = Some (Ok [(3232235520, 30); (3232235520, 25)]))
    by (vm_compute; reflexivity).
  assert (I1 : in_block (3232235520, 30) 3232235520)
    by (unfold in_block; simpl; lia).
  assert (I2 : in_block (3232235520, 25) 3232235520)
    by (unfold in_block; simpl; lia).
  refine (conj _ (conj _ (conj _ (conj _ (conj _ (conj _ (conj _ _))))))).
  - intros fuel Hf.
    apply (SplitNetwork_mono 5); [vm_compute; reflexivity | exact Hf].
  - exact E.
  - reflexivity.
  - vm_compute. discriminate.
  - reflexivity.
  - exact I1.
  - exact I2.
  - intros H.
    apply (H _ _ _ _ _ E 0%nat 1%nat (3232235520, 30) (3232235520, 25)
             ltac:(discriminate) eq_refl eq_refl 3232235520).
    split; assumption.
Qed.

Lemma SplitNetwork_overlap_witness :
  SplitNetwork 7 "192.168.0.0" "24" [2; 100]
  = Some (Ok ["192.168.0.0/30"; "192.168.0.0/25"]).
Proof.
  destruct SplitNetwork_overlap as (H & _). apply H. lia.
Defined.

(** C2, at the network 0.0.0.0/0 with the single request 2: the request is
    sized to 4 addresses, far below the [2^32] addresses of the network, and
    yet [SplitNetwork] fails, reporting 0 available addresses: the capacity
    [uint32(1) << 32] is 0. *)
Theorem SplitNetwork_whole_space_fails :
  (forall fuel, SplitNetwork fuel "0.0.0.0" "0" [2]
     = Some (Err "requested subnet sizes exceed available space (4 > 0)")) /\
  (forall fuel, SplitNetwork_hostsNeeded fuel 2 4 = Some 4) /\
  U32.shl 1 (U32.sub 32 (U32.wrap 0)) = 0 /\
  4 <= 2 ^ (32 - 0).
Proof.
  refine (conj _ (conj _ (conj _ _))).
  - intros fuel. destruct fuel; vm_compute; reflexivity.
  - intros fuel. destruct fuel; reflexivity.
  - reflexivity.
  - vm_compute. discriminate.
Qed.

(** The example of the specification: 192.168.0.0/24 split for 100, 50 and
    25 hosts gives the blocks /25, /26 and /27, apart from each other and
    inside the network. *)
Lemma SplitNetwork_example :
  (forall fuel, (5 <= fuel)%nat ->
     SplitNetwork fuel "192.168.0.0" "24" [100; 50; 25]
     = Some (Ok ["192.168.0.0/25"; "192.168.0.128/26"; "192.168.0.192/27"])) /\
  SplitNetwork_blocks 5 "192.168.0.0" "24" [100; 50; 25]
  = Some (Ok [(3232235520, 25); (3232235648, 26); (3232235712, 27)]) /\
  pairwise_disjoint [(3232235520, 25); (3232235648, 26); (3232235712, 27)] /\
  (forall b x,
     In b [(3232235520, 25); (3232235648, 26); (3232235712, 27)] ->
     in_block b x ->
     NetworkID net_192_168_0_0_24 <= x <= Broadcast net_192_168_0_0_24).
Proof.
  refine (conj _ (conj _ (conj _ _))).
  - intros fuel Hf.
    apply (SplitNetwork_mono 5); [vm_compute; reflexivity | exact Hf].
  - vm_compute. reflexivity.
  - intros i j b c Hij Hi Hj x [Hb Hc].
    destruct i as [| [| [| i]]]; destruct j as [| [| [| j]]];
      cbn [nth_error] in Hi, Hj; try congruence;
      try (destruct i; discriminate); try (destruct j; discriminate);
      injection Hi as <-; injection Hj as <-;
      unfold in_block in Hb, Hc; cbn [fst snd] in Hb, Hc;
      change (2 ^ (32 - 25)) with 128 in *; change (2 ^ (32 - 26)) with 64 in *;
      change (2 ^ (32 - 27)) with 32 in *; lia.
  - intros b x Hin Hb. cbn [NetworkID Broadcast net_192_168_0_0_24].
    destruct Hin as [<- | [<- | [<- | []]]];
      unfold in_block in Hb; cbn [fst snd] in Hb;
      change (2 ^ (32 - 25)) with 128 in *; change (2 ^ (32 - 26)) with 64 in *;
      change (2 ^ (32 - 27)) with 32 in *; lia.
Qed.

(** ** Decimal octets *)

Lemma sapp_assoc a b c : (a +++ b) +++ c = a +++ (b +++ c).
Proof. induction a as [| x a IH]; simpl; [reflexivity | rewrite IH; reflexivity]. Qed.

Lemma sapp_nil_r a : a +++ "" = a.
Proof. induction a as [| x a IH]; simpl; [reflexivity | rewrite IH; reflexivity]. Qed.

Lemma ContainsByte_app s t c :
  strings.ContainsByte (s +++ t) c
  = strings.ContainsByte s c || strings.ContainsByte t c.
Proof.
  induction s as [| x s IH]; simpl; [reflexivity |].
  rewrite IH. apply orb_assoc.
Qed.

Lemma is_digit_char c :
  is_digit c = true -> c = digit_char (code c - 48) /\ 0 <= code c - 48 <= 9.
Proof.
  destruct c as [[] [] [] [] [] [] [] []]; intros H; try discriminate H;
    (split; [reflexivity | vm_compute; split; discriminate]).
Qed.

Lemma digit_char_is_digit n :
  0 <= n < 10 -> is_digit (digit_char n) = true /\ code (digit_char n) - 48 = n.
Proof.
  intros H.
  assert (E : (is_digit (digit_char n) && (code (digit_char n) - 48 =? n)) = true).
  { check_below
             (fun n => is_digit (digit_char n) && (code (digit_char n) - 48 =? n)) 10. }
  apply andb_true_iff in E. destruct E as [E1 E2]. apply Z.eqb_eq in E2. auto.
Qed.

Lemma fmt_d_digit n : 0 <= n < 10 -> fmt.d n = String (digit_char n) "".
Proof.
  intros H. apply String.eqb_eq.
  check_below (fun n => String.eqb (fmt.d n) (String (digit_char n) "")) 10.
Qed.

Lemma fmt_d_snoc v n :
  1 <= v <= 25 -> 0 <= n <= 9 ->
  fmt.d (v * 10 + n) = fmt.d v +++ String (digit_char n) "".
Proof.
  intros Hv Hn.
  assert (E : ((v * 10 + n <? 10)
               || String.eqb (fmt.d (v * 10 + n))
                    (fmt.d ((v * 10 + n) / 10)
                     +++ String (digit_char ((v * 10 + n) mod 10)) "")) = true).
  { check_below
             (fun k => (k <? 10)
                       || String.eqb (fmt.d k)
                            (fmt.d (k / 10) +++ String (digit_char (k mod 10)) "")) 260. }
  apply orb_true_iff in E. destruct E as [E | E].
  - apply Z.ltb_lt in E. lia.
  - apply String.eqb_eq in E. rewrite E.
    replace ((v * 10 + n) / 10) with v by (Z.div_mod_to_equations; lia).
    replace ((v * 10 + n) mod 10) with n by (Z.div_mod_to_equations; lia).
    reflexivity.
Qed.

Lemma uint32_uint8 v : 0 <= v < 256 -> net.uint32 (net.uint8 v) = v.
Proof.
  intros H. apply Z.eqb_eq.
  check_below (fun v => net.uint32 (net.uint8 v) =? v) 256.
Qed.

Lemma uint8_uint32 b : net.uint8 (net.uint32 b) = b.
Proof. destruct b; reflexivity. Qed.

(** An octet in decimal: one to three digits, none of them a colon. *)
Lemma fmt_d_octet a :
  0 <= a < 256 ->
  exists c r, fmt.d a = String c r /\ is_digit c = true /\
              strings.ContainsByte (fmt.d a) ":" = false /\
              net.dispatch (fmt.d a +++ ".") = net.FamV4.
Proof.
  intros H.
  assert (E : (match fmt.d a with
               | String c _ => is_digit c
               | EmptyString => false
               end
               && negb (strings.ContainsByte (fmt.d a) ":")
               && match net.dispatch (fmt.d a +++ ".") with
                  | net.FamV4 => true
                  | _ => false
                  end) = true).
  { check_below
             (fun a => match fmt.d a with
                       | String c _ => is_digit c
                       | EmptyString => false
                       end
                       && negb (strings.ContainsByte (fmt.d a) ":")
                       && match net.dispatch (fmt.d a +++ ".") with
                          | net.FamV4 => true
                          | _ => false
                          end) 256. }
  apply andb_true_iff in E. destruct E as [E E3].
  apply andb_true_iff in E. destruct E as [E1 E2].
  destruct (fmt.d a) as [| c r] eqn:Ed; [discriminate |].
  exists c, r. repeat split.
  - exact E1.
  - apply negb_true_iff. exact E2.
  - destruct (net.dispatch _); try discriminate. reflexivity.
Qed.

(** ** [netip.parseIPv4Fields] reads dotted quads, and nothing else *)

Lemma octet_run a :
  0 <= a < 256 ->
  forall rest first prevdot pos fields,
  exists digLen,
    0 < digLen /\
    net.parseIPv4Fields_loop (fmt.d a +++ rest) first prevdot 0 pos 0 fields
    = net.parseIPv4Fields_loop rest false false a pos digLen fields.
Proof.
  intros H rest first prevdot pos fields.
  rewrite <- (Z2Nat.id a) by lia.
  assert (Hn : (Z.to_nat a < 256)%nat) by lia.
  generalize dependent (Z.to_nat a). clear H. intros n Hn.
  do 256 (destruct n as [| n];
          [eexists; split; [| reflexivity]; reflexivity |]).
  lia.
Qed.

Lemma dot_step c r val pos digLen fields :
  pos <> 3 ->
  net.parseIPv4Fields_loop (String "." (String c r)) false false val pos digLen fields
  = net.parseIPv4Fields_loop (String c r) false true 0 (pos + 1) 0
      (net.set fields pos (net.uint8 val)).
Proof.
  intros Hp. cbn [net.parseIPv4Fields_loop].
  change (is_digit ".") with false. change (Ascii.eqb "." ".") with true.
  cbn [orb]. destruct (Z.eqb_spec pos 3); [contradiction | reflexivity].
Qed.

Lemma dot_octet_step b rest val pos digLen fields :
  0 <= b < 256 -> pos <> 3 ->
  net.parseIPv4Fields_loop (String "." (fmt.d b +++ rest)) false false
    val pos digLen fields
  = net.parseIPv4Fields_loop (fmt.d b +++ rest) false true 0 (pos + 1) 0
      (net.set fields pos (net.uint8 val)).
Proof.
  intros Hb Hp. destruct (fmt_d_octet b Hb) as (cb & rb & Eb & _).
  rewrite Eb. cbn [String.append]. apply dot_step. exact Hp.
Qed.

Lemma parseIPv4Fields_dotted a b c d :
  0 <= a < 256 -> 0 <= b < 256 -> 0 <= c < 256 -> 0 <= d < 256 ->
  net.parseIPv4Fields
    (fmt.d a +++ "." +++ fmt.d b +++ "." +++ fmt.d c +++ "." +++ fmt.d d)
  = Some [net.uint8 a; net.uint8 b; net.uint8 c; net.uint8 d].
Proof.
  intros Ha Hb Hc Hd. unfold net.parseIPv4Fields.
  rewrite <- (sapp_nil_r (fmt.d d)).
  destruct (octet_run a Ha
              ("." +++ fmt.d b +++ "." +++ fmt.d c +++ "." +++ fmt.d d +++ "")
              true false 0 [x00; x00; x00; x00]) as (la & _ & ->).
  change ("." +++ fmt.d b +++ "." +++ fmt.d c +++ "." +++ fmt.d d +++ "")
    with (String "." (fmt.d b +++ "." +++ fmt.d c +++ "." +++ fmt.d d +++ "")).
  rewrite dot_octet_step by lia.
  destruct (octet_run b Hb ("." +++ fmt.d c +++ "." +++ fmt.d d +++ "")
              false true (0 + 1) (net.set [x00; x00; x00; x00] 0 (net.uint8 a)))
    as (lb & _ & ->).
  change ("." +++ fmt.d c +++ "." +++ fmt.d d +++ "")
    with (String "." (fmt.d c +++ "." +++ fmt.d d +++ "")).
  rewrite dot_octet_step by lia.
  destruct (octet_run c Hc ("." +++ fmt.d d +++ "")
              false true (0 + 1 + 1)
              (net.set (net.set [x00; x00; x00; x00] 0 (net.uint8 a))
                 (0 + 1) (net.uint8 b)))
    as (lc & _ & ->).
  change ("." +++ fmt.d d +++ "") with (String "." (fmt.d d +++ "")).
  rewrite dot_octet_step by lia.
  destruct (octet_run d Hd "" false true (0 + 1 + 1 + 1)
              (net.set (net.set (net.set [x00; x00; x00; x00] 0 (net.uint8 a))
                          (0 + 1) (net.uint8 b)) (0 + 1 + 1) (net.uint8 c)))
    as (ld & _ & ->).
  reflexivity.
Qed.

(** Whatever [netip.parseIPv4Fields] accepts is the dotted quad of the
    bytes it returns: [pre] is the text already read. *)
Lemma parseIPv4Fields_loop_sound s :
  forall pre first prevdot val pos digLen f0 f1 f2 f3 out,
    net.parseIPv4Fields_loop s first prevdot val pos digLen [f0; f1; f2; f3]
    = Some out ->
    0 <= pos <= 3 -> 0 <= digLen ->
    (digLen = 0 -> val = 0 /\ (first = true \/ prevdot = true)) ->
    (0 < digLen ->
       0 <= val <= 255 /\ first = false /\ prevdot = false /\
       (val = 0 -> digLen = 1)) ->
    (first = true -> pos = 0) ->
    (prevdot = true -> s <> "") ->
    pre = rendered f0 f1 f2 pos +++ (if digLen =? 0 then "" else fmt.d val) ->
    exists g0 g1 g2 g3,
      out = [g0; g1; g2; g3] /\ pre +++ s = dotted g0 g1 g2 g3.
Proof.
  induction s as [| c r IH];
    intros pre first prevdot val pos digLen f0 f1 f2 f3 out H Hpos Hdl
           Hzero Hsome Hfirst Hprev Hpre.
  - cbn [net.parseIPv4Fields_loop] in H.
    destruct (Z.ltb_spec pos 3) as [| Hge]; [discriminate |].
    assert (pos = 3) by lia. subst pos.
    injection H as <-.
    assert (Hd : 0 < digLen).
    { destruct (Z.eq_dec digLen 0) as [E | ]; [| lia].
      destruct (Hzero E) as [_ [F | P]].
      - specialize (Hfirst F). lia.
      - exfalso. apply (Hprev P). reflexivity. }
    destruct (Hsome Hd) as (Hv & _).
    exists f0, f1, f2, (net.uint8 val). split; [reflexivity |].
    rewrite sapp_nil_r, Hpre. unfold dotted.
    change (rendered f0 f1 f2 3) with (seg f0 +++ seg f1 +++ seg f2).
    destruct (Z.eqb_spec digLen 0); [lia |].
    rewrite uint32_uint8 by lia. rewrite !sapp_assoc. reflexivity.
  - cbn [net.parseIPv4Fields_loop] in H.
    destruct (is_digit c) eqn:Hc.
    + destruct ((digLen =? 1) && (val =? 0)) eqn:Hlead; [discriminate |].
      destruct (Z.ltb_spec 255 (val * 10 + (code c - 48))) as [| Hle];
        [discriminate |].
      destruct (is_digit_char c Hc) as (Ec & Hn).
      assert (Hval : 0 <= val /\ (0 < digLen -> 1 <= val)).
      { destruct (Z.eq_dec digLen 0) as [E | NE].
        - destruct (Hzero E) as [-> _]. lia.
        - destruct (Hsome ltac:(lia)) as (Hv & _ & _ & Hone).
          split; [lia |]. intros _.
          destruct (Z.eq_dec val 0) as [Ev | ]; [| lia].
          specialize (Hone Ev). subst.
          simpl in Hlead. discriminate. }
      apply (IH (pre +++ String c "")) in H; try lia.
      * destruct H as (g0 & g1 & g2 & g3 & -> & E).
        exists g0, g1, g2, g3. split; [reflexivity |].
        rewrite <- E, sapp_assoc. reflexivity.
      * rewrite Hpre, sapp_assoc. f_equal.
        destruct (Z.eqb_spec (digLen + 1) 0); [lia |].
        destruct (Z.eqb_spec digLen 0) as [E0 | NE].
        -- destruct (Hzero E0) as [-> _]. simpl (0 * 10 + _).
           rewrite fmt_d_digit by lia. rewrite <- Ec. reflexivity.
        -- destruct Hval as [_ Hv1]. specialize (Hv1 ltac:(lia)).
           rewrite fmt_d_snoc by lia. rewrite <- Ec. reflexivity.
    + destruct (Ascii.eqb_spec c ".") as [-> | ]; [| discriminate].
      destruct first; [discriminate |].
      destruct r as [| c' r']; [discriminate |].
      destruct prevdot; [discriminate |].
      cbn [orb] in H.
      destruct (Z.eqb_spec pos 3) as [| Hp3]; [discriminate |].
      assert (Hd : 0 < digLen).
      { destruct (Z.eq_dec digLen 0) as [E | ]; [| lia].
        destruct (Hzero E) as [_ [F | P]]; discriminate. }
      destruct (Hsome Hd) as (Hv & _).
      assert (Hcase : pos = 0 \/ pos = 1 \/ pos = 2) by lia.
      destruct (Z.eqb_spec digLen 0); [lia |].
      assert (Hfin : forall h0 h1 h2 pos',
                net.parseIPv4Fields_loop (String c' r') false true 0 pos' 0
                  [h0; h1; h2; f3] = Some out ->
                pos' = pos + 1 ->
                pre +++ "." = rendered h0 h1 h2 pos' ->
                exists g0 g1 g2 g3,
                  out = [g0; g1; g2; g3] /\
                  pre +++ String "." (String c' r') = dotted g0 g1 g2 g3).
      { intros h0 h1 h2 pos' Hrun Hp' Hr.
        apply (IH (pre +++ ".")) in Hrun; try lia.
        - destruct Hrun as (g0 & g1 & g2 & g3 & -> & E).
          exists g0, g1, g2, g3. split; [reflexivity |].
          rewrite <- E, sapp_assoc. reflexivity.
        - intros _ F. discriminate F.
        - cbn [Z.eqb]. rewrite sapp_nil_r. exact Hr. }
      assert (Hseg : fmt.d val +++ "." = seg (net.uint8 val)).
      { unfold seg. rewrite uint32_uint8 by lia. reflexivity. }
      destruct Hcase as [-> | [-> | ->]].
      * change (net.set [f0; f1; f2; f3] 0 (net.uint8 val))
          with [net.uint8 val; f1; f2; f3] in H.
        apply (Hfin _ _ _ _ H eq_refl).
        rewrite Hpre, sapp_assoc, Hseg. reflexivity.
      * change (net.set [f0; f1; f2; f3] 1 (net.uint8 val))
          with [f0; net.uint8 val; f2; f3] in H.
        apply (Hfin _ _ _ _ H eq_refl).
        rewrite Hpre, sapp_assoc, Hseg. reflexivity.
      * change (net.set [f0; f1; f2; f3] 2 (net.uint8 val))
          with [f0; f1; net.uint8 val; f3] in H.
        apply (Hfin _ _ _ _ H eq_refl).
        rewrite Hpre, sapp_assoc, Hseg.
        change (rendered f0 f1 f2 2) with (seg f0 +++ seg f1).
        change (rendered f0 f1 (net.uint8 val) (2 + 1))
          with (seg f0 +++ seg f1 +++ seg (net.uint8 val)).
        rewrite sapp_assoc. reflexivity.
Qed.

(** ** [net.ParseIP] returns 16 bytes *)

Lemma set_length (fields : list byte) pos v :
  0 <= pos < Z.of_nat (List.length fields) ->
  List.length (net.set fields pos v) = List.length fields.
Proof.
  intros H. unfold net.set.
  rewrite length_app, length_firstn. cbn [List.length].
  rewrite length_skipn. lia.
Qed.

Lemma parseIPv4Fields_length s f :
  net.parseIPv4Fields s = Some f -> List.length f = 4%nat.
Proof.
  unfold net.parseIPv4Fields. intros H.
  apply (parseIPv4Fields_loop_sound s "") in H;
    try lia; try (intros F; discriminate F); try reflexivity.
  destruct H as (g0 & g1 & g2 & g3 & -> & _). reflexivity.
Qed.

Lemma parseIPv6_loop_length n : forall s i e ip st,
  net.parseIPv6_loop n s i e ip = Some st ->
  List.length ip = 16%nat -> 0 <= i <= 16 -> i mod 2 = 0 -> -1 <= e <= i ->
  List.length (net.v6_ip st) = 16%nat /\
  0 <= net.v6_i st <= 16 /\ -1 <= net.v6_ellipsis st <= net.v6_i st.
Proof.
  induction n as [| n IH]; intros s i e ip st H Hlen Hi Heven He.
  - cbn [net.parseIPv6_loop] in H.
    destruct (Z.leb_spec 16 i); [| discriminate].
    injection H as <-. cbn. lia.
  - cbn [net.parseIPv6_loop] in H.
    destruct (Z.leb_spec 16 i) as [| Hlt].
    { injection H as <-. cbn. lia. }
    assert (Hi14 : i <= 14) by (Z.div_mod_to_equations; lia).
    destruct (net.scan_hex s 0 0) as [[[off acc] rest] |]; [| discriminate].
    destruct (off =? 0); [discriminate |].
    assert (Hset : forall x y,
              List.length (net.set (net.set ip i x) (i + 1) y) = 16%nat).
    { intros x y. rewrite !set_length; [exact Hlen | lia |].
      rewrite set_length; lia. }
    assert (Hmod : (i + 2) mod 2 = 0) by (Z.div_mod_to_equations; lia).
    destruct rest as [| c r1].
    + injection H as <-. cbn. rewrite Hset. lia.
    + destruct (Ascii.eqb c ".").
      * destruct ((e <? 0) && negb (i =? 12)); [discriminate |].
        destruct (Z.ltb_spec 16 (i + 4)); [discriminate |].
        destruct (net.parseIPv4Fields s) as [f |] eqn:Ef; [| discriminate].
        apply parseIPv4Fields_length in Ef.
        injection H as <-. cbn.
        rewrite !length_app, length_firstn, length_skipn. lia.
      * destruct (Ascii.eqb c ":"); [| discriminate]. cbn [negb] in H.
        destruct r1 as [| c2 r2]; [discriminate |].
        destruct (Ascii.eqb c2 ":").
        -- destruct (Z.leb_spec 0 e); [discriminate |].
           destruct r2 as [| c3 r3].
           ++ injection H as <-. cbn. rewrite Hset. lia.
           ++ apply IH in H; [exact H | apply Hset | lia | exact Hmod | lia].
        -- apply IH in H; [exact H | apply Hset | lia | exact Hmod | lia].
Qed.

Lemma parseIPv6_length s ip : net.parseIPv6 s = Some ip -> List.length ip = 16%nat.
Proof.
  unfold net.parseIPv6. intros H.
  destruct (strings.ContainsByte s "%"); [discriminate |].
  set (lead := net.starts_with_colon s && net.starts_with_colon (net.tail s)) in *.
  destruct (lead && _).
  { injection H as <-. reflexivity. }
  destruct (net.parseIPv6_loop 8 _ 0 _ net.zeros16) as [st |] eqn:E; [| discriminate].
  apply parseIPv6_loop_length in E;
    [| reflexivity | lia | reflexivity | destruct lead; lia].
  destruct E as (L & Hi & He).
  destruct (net.v6_rest st); [| discriminate].
  destruct (Z.ltb_spec (net.v6_i st) 16).
  - destruct (Z.ltb_spec (net.v6_ellipsis st) 0); [discriminate |].
    injection H as <-. unfold net.expand.
    rewrite !length_app, !length_firstn, length_skipn, repeat_length. lia.
  - destruct (0 <=? net.v6_ellipsis st); [discriminate |].
    injection H as <-. exact L.
Qed.

Lemma ParseIP_length s ip : net.ParseIP s = Some ip -> List.length ip = 16%nat.
Proof.
  unfold net.ParseIP. intros H. destruct (net.dispatch s).
  - destruct (net.parseIPv4Fields s) as [f |] eqn:E; [| discriminate].
    apply parseIPv4Fields_length in E. injection H as <-.
    cbn [repeat app List.length]. lia.
  - apply parseIPv6_length in H. exact H.
  - discriminate.
Qed.

(** [To4] on 16 bytes keeps the last four when the first twelve are the
    IPv4-mapped prefix. *)
Lemma To4_16 ip ip4 :
  List.length ip = 16%nat -> net.To4 ip = Some ip4 ->
  exists a b c d, ip = v4mapped a b c d /\ ip4 = [a; b; c; d].
Proof.
  intros Hlen H.
  do 16 (destruct ip as [| ? ip]; [discriminate Hlen |]).
  destruct ip; [| discriminate Hlen]. clear Hlen.
  unfold net.To4 in H. cbn [List.length Z.of_nat] in H.
  cbn [Z.eqb Pos.eqb Z.of_nat Pos.of_succ_nat Pos.succ andb firstn nth skipn
       forallb] in H.
  match type of H with
  | (if ?b then _ else _) = _ => destruct b eqn:Hc; [| discriminate H]
  end.
  injection H as <-.
  repeat match goal with
         | E : _ && _ = true |- _ => apply andb_true_iff in E; destruct E
         end.
  repeat match goal with
         | E : Byte.eqb _ _ = true |- _ => apply byte_dec_bl in E
         end.
  subst. eexists _, _, _, _. split; reflexivity.
Qed.

(** ** [ParseIPv4] and [IPToString] *)

Lemma dispatch_V6_colon s :
  net.dispatch s = net.FamV6 -> strings.ContainsByte s ":" = true.
Proof.
  induction s as [| c r IH]; cbn [net.dispatch strings.ContainsByte]; intros H.
  - discriminate.
  - destruct (Ascii.eqb c "."); [discriminate |].
    destruct (Ascii.eqb c ":"); [reflexivity |].
    destruct (Ascii.eqb c "%"); [discriminate |].
    cbn [orb]. apply IH. exact H.
Qed.

Lemma dispatch_app_V4 s t :
  net.dispatch s = net.FamV4 -> net.dispatch (s +++ t) = net.FamV4.
Proof.
  induction s as [| c r IH]; cbn [net.dispatch String.append]; intros H.
  - discriminate.
  - destruct (Ascii.eqb c "."); [reflexivity |].
    destruct (Ascii.eqb c ":"); [discriminate |].
    destruct (Ascii.eqb c "%"); [discriminate |].
    apply IH. exact H.
Qed.

Lemma dotted_right g0 g1 g2 g3 :
  dotted g0 g1 g2 g3
  = fmt.d (net.uint32 g0) +++ "." +++ fmt.d (net.uint32 g1) +++ "."
    +++ fmt.d (net.uint32 g2) +++ "." +++ fmt.d (net.uint32 g3).
Proof. unfold dotted, seg. rewrite !sapp_assoc. reflexivity. Qed.

Lemma dotted_no_colon g0 g1 g2 g3 :
  strings.ContainsByte (dotted g0 g1 g2 g3) ":" = false.
Proof.
  unfold dotted, seg. rewrite !ContainsByte_app.
  destruct (fmt_d_octet _ (uint32_range g0)) as (_ & _ & _ & _ & -> & _).
  destruct (fmt_d_octet _ (uint32_range g1)) as (_ & _ & _ & _ & -> & _).
  destruct (fmt_d_octet _ (uint32_range g2)) as (_ & _ & _ & _ & -> & _).
  destruct (fmt_d_octet _ (uint32_range g3)) as (_ & _ & _ & _ & -> & _).
  reflexivity.
Qed.

Lemma dotted_dispatch g0 g1 g2 g3 :
  net.dispatch (dotted g0 g1 g2 g3) = net.FamV4.
Proof.
  unfold dotted, seg. apply dispatch_app_V4.
  destruct (fmt_d_octet _ (uint32_range g0)) as (_ & _ & _ & _ & _ & E).
  exact E.
Qed.

Lemma dotted_IPToString g0 g1 g2 g3 :
  dotted g0 g1 g2 g3
  = IPToString (octets (net.uint32 g0) (net.uint32 g1) (net.uint32 g2)
                       (net.uint32 g3)).
Proof.
  rewrite dotted_right. unfold IPToString.
  destruct (octets_unpack _ _ _ _ (uint32_range g0) (uint32_range g1)
              (uint32_range g2) (uint32_range g3)) as (-> & -> & -> & ->).
  reflexivity.
Qed.

Lemma land_255_range v : 0 <= Z.land v 255 < 256.
Proof.
  change 255 with (Z.ones 8). rewrite Z.land_ones by lia.
  apply Z.mod_pos_bound. lia.
Qed.

Lemma IPToString_dotted v :
  0 <= v < 2 ^ 32 ->
  exists g0 g1 g2 g3,
    IPToString v = dotted g0 g1 g2 g3 /\
    v = octets (net.uint32 g0) (net.uint32 g1) (net.uint32 g2) (net.uint32 g3).
Proof.
  intros Hv.
  exists (net.uint8 (Z.land (U32.shr v 24) 255)),
         (net.uint8 (Z.land (U32.shr v 16) 255)),
         (net.uint8 (Z.land (U32.shr v 8) 255)),
         (net.uint8 (Z.land v 255)).
  rewrite dotted_right.
  rewrite !uint32_uint8 by apply land_255_range.
  split; [reflexivity |]. symmetry. apply octets_pack. exact Hv.
Qed.

(** [ParseIPv4] reads back what [IPToString] prints. *)
Lemma ParseIPv4_dotted g0 g1 g2 g3 :
  ParseIPv4 (dotted g0 g1 g2 g3)
  = Ok (octets (net.uint32 g0) (net.uint32 g1) (net.uint32 g2) (net.uint32 g3)).
Proof.
  unfold ParseIPv4, net.ParseIP. rewrite dotted_dispatch, dotted_right.
  rewrite parseIPv4Fields_dotted by apply uint32_range.
  rewrite !uint8_uint32.
  change (net.To4 (repeat x00 10 ++ [xff; xff] ++ [g0; g1; g2; g3]))
    with (Some [g0; g1; g2; g3]).
  cbn [nth]. rewrite pack_octets by apply uint32_range. reflexivity.
Qed.

Lemma ParseIPv4_IPToString v : 0 <= v < 2 ^ 32 -> ParseIPv4 (IPToString v) = Ok v.
Proof.
  intros Hv. destruct (IPToString_dotted v Hv) as (g0 & g1 & g2 & g3 & -> & E).
  rewrite ParseIPv4_dotted, <- E. reflexivity.
Qed.

(** Text without a colon that [ParseIPv4] accepts is a dotted quad. *)
Lemma ParseIPv4_no_colon s v :
  strings.ContainsByte s ":" = false -> ParseIPv4 s = Ok v ->
  exists g0 g1 g2 g3,
    s = dotted g0 g1 g2 g3 /\
    v = octets (net.uint32 g0) (net.uint32 g1) (net.uint32 g2) (net.uint32 g3).
Proof.
  intros Hc H. unfold ParseIPv4, net.ParseIP in H.
  destruct (net.dispatch s) eqn:D.
  - destruct (net.parseIPv4Fields s) as [f |] eqn:E; [| discriminate].
    unfold net.parseIPv4Fields in E.
    apply (parseIPv4Fields_loop_sound s "") in E;
      try lia; try (intros F; discriminate F); try reflexivity.
    destruct E as (g0 & g1 & g2 & g3 & -> & E).
    exists g0, g1, g2, g3. split; [exact E |].
    change (net.To4 (repeat x00 10 ++ [xff; xff] ++ [g0; g1; g2; g3]))
      with (Some [g0; g1; g2; g3]) in H.
    cbn [nth] in H. rewrite pack_octets in H by apply uint32_range.
    congruence.
  - apply dispatch_V6_colon in D. congruence.
  - discriminate.
Qed.

(** The text of a dotted quad, either way of writing it. *)
Lemma dotted_quad_iff s :
  dotted_quad s <-> exists g0 g1 g2 g3, s = dotted g0 g1 g2 g3.
Proof.
  split.
  - intros (a & b & c & d & Ha & Hb & Hc & Hd & ->).
    exists (net.uint8 a), (net.uint8 b), (net.uint8 c), (net.uint8 d).
    rewrite dotted_right, !uint32_uint8 by assumption. reflexivity.
  - intros (g0 & g1 & g2 & g3 & ->).
    exists (net.uint32 g0), (net.uint32 g1), (net.uint32 g2), (net.uint32 g3).
    repeat split; try apply uint32_range. apply dotted_right.
Qed.

Lemma To4_v4mapped a b c d : net.To4 (v4mapped a b c d) = Some [a; b; c; d].
Proof. reflexivity. Qed.

(** [ParseIPv4] accepts exactly the texts that [net.ParseIP] reads as an
    IPv4-mapped address. *)
Lemma ParseIPv4_Ok_iff s v :
  ParseIPv4 s = Ok v <->
  exists a b c d,
    net.ParseIP s = Some (v4mapped a b c d) /\
    v = octets (net.uint32 a) (net.uint32 b) (net.uint32 c) (net.uint32 d).
Proof.
  unfold ParseIPv4. split.
  - intros H. destruct (net.ParseIP s) as [ip |] eqn:E; [| discriminate].
    destruct (net.To4 ip) as [ip4 |] eqn:T; [| discriminate].
    destruct (To4_16 ip ip4 (ParseIP_length _ _ E) T) as (a & b & c & d & -> & ->).
    exists a, b, c, d. split; [reflexivity |].
    cbn [nth] in H. rewrite pack_octets in H by apply uint32_range. congruence.
  - intros (a & b & c & d & -> & ->). rewrite To4_v4mapped. cbn [nth].
    rewrite pack_octets by apply uint32_range. reflexivity.
Qed.

Lemma ParseIPv4_Err s e :
  ParseIPv4 s = Err e ->
  e = "invalid IP address: " +++ s \/ e = "not an IPv4 address: " +++ s.
Proof.
  unfold ParseIPv4. intros H.
  destruct (net.ParseIP s) as [ip |]; [| left; congruence].
  destruct (net.To4 ip); [discriminate | right; congruence].
Qed.

Lemma ParseIPv4_colon_IPv6 s :
  strings.ContainsByte s ":" = true -> is_ok (ParseIPv4 s) = true ->
  IPv6_text s = true.
Proof.
  intros Hc H. unfold IPv6_text.
  destruct (ParseIPv4 s) as [v |] eqn:E; [| discriminate].
  destruct (proj1 (ParseIPv4_Ok_iff s v) E) as (a & b & c & d & P & _).
  rewrite P. destruct (net.dispatch s) eqn:D; [| reflexivity |].
  - exfalso. unfold net.ParseIP in P. rewrite D in P.
    destruct (net.parseIPv4Fields s) as [f |] eqn:F; [| discriminate].
    unfold net.parseIPv4Fields in F.
    apply (parseIPv4Fields_loop_sound s "") in F;
      try lia; try (intros G; discriminate G); try reflexivity.
    destruct F as (g0 & g1 & g2 & g3 & _ & F). cbn [String.append] in F.
    rewrite F, dotted_no_colon in Hc. discriminate.
  - unfold net.ParseIP in P. rewrite D in P. discriminate.
Qed.

(** IPv6 text of an address that is not IPv4-mapped gets the second error
    of [ParseIPv4]. *)
Lemma ParseIPv4_other_IPv6 s :
  IPv6_text s = true ->
  (forall a b c d, net.ParseIP s <> Some (v4mapped a b c d)) ->
  ParseIPv4 s = Err ("not an IPv4 address: " +++ s).
Proof.
  intros H6 Hnot. unfold IPv6_text in H6. unfold ParseIPv4.
  destruct (net.dispatch s); try discriminate.
  destruct (net.ParseIP s) as [ip |] eqn:E; [| discriminate].
  destruct (net.To4 ip) as [ip4 |] eqn:T; [| reflexivity].
  exfalso.
  destruct (To4_16 ip ip4 (ParseIP_length _ _ E) T) as (a & b & c & d & -> & _).
  apply (Hnot a b c d). reflexivity.
Qed.

(** C9, as amended. [ParseIPv4] accepts a text exactly when [net.ParseIP]
    reads it as an IPv4-mapped address. On text without a colon that is
    exactly the dotted quads, four decimal octets without leading zeros, and
    the value is the one [IPToString] prints back; text with a colon is
    accepted only if it is IPv6 text of an IPv4-mapped address, as
    ::ffff:1.2.3.4 is. Every failure is one of the two errors of [ParseIPv4],
    the second one for the other IPv6 texts, such as ::1. *)
Theorem ParseIPv4_accepts s :
  (forall v, ParseIPv4 s = Ok v <->
     exists a b c d,
       net.ParseIP s = Some (v4mapped a b c d) /\
       v = octets (net.uint32 a) (net.uint32 b) (net.uint32 c) (net.uint32 d)) /\
  (strings.ContainsByte s ":" = false ->
     (is_ok (ParseIPv4 s) = true <-> dotted_quad s) /\
     (forall v, ParseIPv4 s = Ok v <-> 0 <= v < 2 ^ 32 /\ s = IPToString v)) /\
  (strings.ContainsByte s ":" = true ->
     is_ok (ParseIPv4 s) = true -> IPv6_text s = true) /\
  (IPv6_text s = true ->
     (forall a b c d, net.ParseIP s <> Some (v4mapped a b c d)) ->
     ParseIPv4 s = Err ("not an IPv4 address: " +++ s)) /\
  (forall e, ParseIPv4 s = Err e ->
     e = "invalid IP address: " +++ s \/ e = "not an IPv4 address: " +++ s).
Proof.
  refine (conj _ (conj _ (conj _ (conj _ _)))).
  - intros v. apply ParseIPv4_Ok_iff.
  - intros Hc. split.
    + rewrite dotted_quad_iff. split.
      * intros H. destruct (ParseIPv4 s) as [v |] eqn:E; [| discriminate].
        destruct (ParseIPv4_no_colon s v Hc E) as (g0 & g1 & g2 & g3 & -> & _).
        exists g0, g1, g2, g3. reflexivity.
      * intros (g0 & g1 & g2 & g3 & ->). rewrite ParseIPv4_dotted. reflexivity.
    + intros v. split.
      * intros H. split; [eapply ParseIPv4_range; exact H |].
        destruct (ParseIPv4_no_colon s v Hc H) as (g0 & g1 & g2 & g3 & -> & ->).
        apply dotted_IPToString.
      * intros [Hv ->]. apply ParseIPv4_IPToString. exact Hv.
  - apply ParseIPv4_colon_IPv6.
  - apply ParseIPv4_other_IPv6.
  - apply ParseIPv4_Err.
Qed.

Lemma ParseIPv4_accepts_witness :
  (is_ok (ParseIPv4 "192.168.0.1") = true <-> dotted_quad "192.168.0.1") /\
  IPv6_text "::ffff:1.2.3.4" = true /\
  ParseIPv4 "::1" = Err "not an IPv4 address: ::1".
Proof.
  destruct (ParseIPv4_accepts "192.168.0.1") as (_ & H2 & _).
  destruct (ParseIPv4_accepts "::ffff:1.2.3.4") as (_ & _ & H3 & _).
  destruct (ParseIPv4_accepts "::1") as (_ & _ & _ & H4 & _).
  split; [| split].
  - apply H2. reflexivity.
  - apply H3; reflexivity.
  - apply H4; [reflexivity |]. intros a b c d. vm_compute. discriminate.
Defined.

(** C9, as stated, fails: the IPv6 text ::ffff:1.2.3.4 is no dotted quad and
    [ParseIPv4] accepts it, with the value of 1.2.3.4. *)
Lemma ParseIPv4_mapped_counterexample :
  ParseIPv4 "::ffff:1.2.3.4" = Ok 16909060 /\
  IPv6_text "::ffff:1.2.3.4" = true /\
  ~ dotted_quad "::ffff:1.2.3.4" /\
  ~ (forall s, is_ok (ParseIPv4 s) = true -> dotted_quad s).
Proof.
  assert (N : ~ dotted_quad "::ffff:1.2.3.4").
  { intros H. apply dotted_quad_iff in H. destruct H as (g0 & g1 & g2 & g3 & E).
    pose proof (dotted_no_colon g0 g1 g2 g3) as C. rewrite <- E in C.
    discriminate C. }
  refine (conj _ (conj _ (conj N _))).
  - reflexivity.
  - reflexivity.
  - intros H. apply N. apply H. reflexivity.
Qed.

(** ** [Deaggregate] on IPv6 text *)

Lemma Deaggregate_error_start fuel startStr endStr e :
  ParseIPv4 startStr = Err e -> Deaggregate fuel startStr endStr = Some (Err e).
Proof. intros H. unfold Deaggregate. rewrite H. reflexivity. Qed.

Lemma Deaggregate_error_end fuel startStr endStr v e :
  ParseIPv4 startStr = Ok v -> ParseIPv4 endStr = Err e ->
  Deaggregate fuel startStr endStr = Some (Err e).
Proof. intros H1 H2. unfold Deaggregate. rewrite H1, H2. reflexivity. Qed.

Lemma IPv6_text_colon s : IPv6_text s = true -> strings.ContainsByte s ":" = true.
Proof.
  unfold IPv6_text. intros H.
  destruct (net.dispatch s) eqn:D; try discriminate.
  apply dispatch_V6_colon. exact D.
Qed.

(** C8, as amended. When either address is IPv6 text, the command-line
    handler [handleDeaggregate] fails with the error "IPv6 deaggregation is
    not supported yet", without calling [Deaggregate]. [Deaggregate] itself
    has no error of its own for IPv6 text: it returns the error of
    [ParseIPv4] for the first address that [ParseIPv4] rejects, which is the
    not-an-IPv4-address error for IPv6 text of an address that is not
    IPv4-mapped. *)
Theorem Deaggregate_ipv6 fuel startStr endStr :
  IPv6_text startStr = true \/ IPv6_text endStr = true ->
  handleDeaggregate fuel startStr endStr
  = Some (Err "Error: IPv6 deaggregation is not supported yet") /\
  (forall e, ParseIPv4 startStr = Err e ->
     Deaggregate fuel startStr endStr = Some (Err e)) /\
  (forall v e, ParseIPv4 startStr = Ok v -> ParseIPv4 endStr = Err e ->
     Deaggregate fuel startStr endStr = Some (Err e)) /\
  (forall s, IPv6_text s = true ->
     (forall a b c d, net.ParseIP s <> Some (v4mapped a b c d)) ->
     ParseIPv4 s = Err ("not an IPv4 address: " +++ s)).
Proof.
  intros H. refine (conj _ (conj _ (conj _ _))).
  - unfold handleDeaggregate.
    destruct H as [H | H]; apply IPv6_text_colon in H; rewrite H;
      [reflexivity | rewrite orb_true_r; reflexivity].
  - intros e. apply Deaggregate_error_start.
  - intros v e. apply Deaggregate_error_end.
  - intros s. apply ParseIPv4_other_IPv6.
Qed.

Lemma Deaggregate_ipv6_witness :
  handleDeaggregate 1 "2001:db8::1" "2001:db8::ff"
  = Some (Err "Error: IPv6 deaggregation is not supported yet") /\
  Deaggregate 1 "2001:db8::1" "2001:db8::ff"
  = Some (Err "not an IPv4 address: 2001:db8::1").
Proof.
  destruct (Deaggregate_ipv6 1 "2001:db8::1" "2001:db8::ff") as (H1 & H2 & _).
  - left. reflexivity.
  - split; [exact H1 |]. apply H2. reflexivity.
Defined.

(** C8, as stated, fails: on the IPv6 texts ::1 and ::2 the error of
    [Deaggregate] is the very error that [ParseIPv4] gives for text of the
    wrong family, and on the IPv6 text ::ffff:1.2.3.4 [Deaggregate] does not
    fail at all. *)
Lemma Deaggregate_ipv6_counterexample :
  IPv6_text "::1" = true /\
  (forall fuel, Deaggregate fuel "::1" "::2" = Some (Err "not an IPv4 address: ::1")) /\
  ParseIPv4 "::1" = Err "not an IPv4 address: ::1" /\
  IPv6_text "::ffff:1.2.3.4" = true /\
  Deaggregate 2 "::ffff:1.2.3.4" "1.2.3.5" = Some (Ok ["1.2.3.4/31"]) /\
  ~ (forall fuel startStr endStr,
       IPv6_text startStr = true \/ IPv6_text endStr = true ->
       exists msg, Deaggregate fuel startStr endStr = Some (Err msg) /\
                   forall text, ParseIPv4 text <> Err msg).
Proof.
  assert (E1 : forall fuel,
             Deaggregate fuel "::1" "::2" = Some (Err "not an IPv4 address: ::1")).
  { intros fuel. apply Deaggregate_error_start. reflexivity. }
  refine (conj _ (conj E1 (conj _ (conj _ (conj _ _))))).
  - reflexivity.
  - reflexivity.
  - reflexivity.
  - vm_compute. reflexivity.
  - intros H. destruct (H 2%nat "::1" "::2" (or_introl eq_refl)) as (msg & E & D).
    apply (D "::1"). rewrite E1 in E. injection E as <-. reflexivity.
Qed.

(** ** The list [Deaggregate] returns below 255.255.255.255 *)

Lemma tiling_blocks bs : forall lo hi,
  tiling lo bs hi ->
  lo <= hi + 1 /\
  forall b, In b bs ->
    lo <= fst b /\ 0 <= snd b <= 32 /\ block_fits (fst b) hi (snd b) /\
    (forall q, 0 <= q < snd b -> ~ block_fits (fst b) hi q).
Proof.
  induction bs as [| b r IH]; intros lo hi T; cbn [tiling] in T.
  - split; [lia |]. intros b [].
  - destruct T as (Hb & Hp & Hfit & Hmax & T).
    destruct (IH _ _ T) as (Hle & Hr).
    assert (Hpos : 0 < 2 ^ (32 - snd b)) by (apply pow2_pos; lia).
    split; [lia |].
    intros c [<- | Hin].
    + rewrite Hb. split; [lia | split; [lia | split; [exact Hfit | exact Hmax]]].
    + destruct (Hr c Hin) as (H1 & H2). split; [lia | exact H2].
Qed.

Lemma tiling_cover bs : forall lo hi,
  tiling lo bs hi -> covers_exactly bs lo hi.
Proof.
  induction bs as [| b r IH]; intros lo hi T x; cbn [tiling] in T.
  - split; [lia |]. intros (c & [] & _).
  - destruct T as (Hb & Hp & Hfit & Hmax & T).
    assert (Hpos : 0 < 2 ^ (32 - snd b)) by (apply pow2_pos; lia).
    destruct (tiling_blocks _ _ _ T) as (Hle & _).
    specialize (IH _ _ T x). split.
    + intros Hx. destruct (Z.lt_ge_cases x (lo + 2 ^ (32 - snd b))) as [Hl | Hg].
      * exists b. split; [left; reflexivity |]. unfold in_block. lia.
      * destruct (proj1 IH ltac:(lia)) as (c & Hin & Hc).
        exists c. split; [right; exact Hin | exact Hc].
    + intros (c & [<- | Hin] & Hc).
      * unfold in_block in Hc. destruct Hfit as [_ F]. lia.
      * assert (lo + 2 ^ (32 - snd b) <= x <= hi)
          by (apply IH; exists c; auto).
        lia.
Qed.

(** The blocks come in increasing order, each one after the end of the
    previous ones. *)
Lemma tiling_ordered bs : forall lo hi i j b c,
  tiling lo bs hi -> (i < j)%nat ->
  nth_error bs i = Some b -> nth_error bs j = Some c ->
  fst b + 2 ^ (32 - snd b) <= fst c.
Proof.
  induction bs as [| a r IH]; intros lo hi i j b c T Hij Hi Hj.
  - destruct i; discriminate.
  - cbn [tiling] in T. destruct T as (Hb & Hp & Hfit & Hmax & T).
    destruct j as [| j]; [lia |]. cbn [nth_error] in Hj.
    destruct i as [| i]; cbn [nth_error] in Hi.
    + injection Hi as <-.
      destruct (tiling_blocks _ _ _ T) as (_ & Hr).
      apply nth_error_In in Hj. destruct (Hr c Hj) as (H1 & _). lia.
    + eapply IH; [exact T | | exact Hi | exact Hj]. lia.
Qed.

Lemma tiling_disjoint lo bs hi : tiling lo bs hi -> pairwise_disjoint bs.
Proof.
  intros T i j b c Hij Hi Hj x [Hb Hc]. unfold in_block in Hb, Hc.
  destruct (Nat.lt_trichotomy i j) as [L | [E | L]]; [| contradiction |].
  - pose proof (tiling_ordered _ _ _ _ _ _ _ T L Hi Hj). lia.
  - pose proof (tiling_ordered _ _ _ _ _ _ _ T L Hj Hi). lia.
Qed.

(** Aligned blocks are nested or apart: of two blocks that share an
    address, the smaller one lies inside the larger one. *)
Lemma aligned_nested b1 k1 b2 k2 x :
  0 <= k2 <= k1 -> b1 mod 2 ^ k1 = 0 -> b2 mod 2 ^ k2 = 0 ->
  b1 <= x < b1 + 2 ^ k1 -> b2 <= x < b2 + 2 ^ k2 ->
  b1 <= b2 /\ b2 + 2 ^ k2 <= b1 + 2 ^ k1.
Proof.
  intros Hk H1 H2 Hx1 Hx2.
  assert (Hs : 0 < 2 ^ k2) by (apply pow2_pos; lia).
  assert (Hm : 0 < 2 ^ (k1 - k2)) by (apply pow2_pos; lia).
  rewrite (pow2_split k2 k1) in * by lia.
  set (S := 2 ^ k2) in *. set (m := 2 ^ (k1 - k2)) in *.
  apply Z.mod_divide in H1; [| lia]. apply Z.mod_divide in H2; [| lia].
  destruct H1 as (q1 & E1). destruct H2 as (q2 & E2).
  assert (A : m * q1 <= q2) by nia.
  assert (B : q2 + 1 <= m * q1 + m) by nia.
  split; nia.
Qed.

Lemma tiling_unique_block lo bs hi G G' x :
  tiling lo bs hi -> In G bs -> In G' bs ->
  in_block G x -> in_block G' x -> G = G'.
Proof.
  intros T HG HG' Hx Hx'.
  destruct (In_nth_error _ _ HG) as (i & Hi).
  destruct (In_nth_error _ _ HG') as (j & Hj).
  destruct (Nat.eq_dec i j) as [-> | Hne]; [congruence |].
  exfalso. apply (tiling_disjoint _ _ _ T i j G G' Hne Hi Hj x). auto.
Qed.

Lemma tiling_NoDup lo bs hi : tiling lo bs hi -> NoDup bs.
Proof.
  intros T. apply NoDup_nth_error. intros i j Hi E.
  destruct (nth_error bs i) as [b |] eqn:Ei;
    [| apply nth_error_None in Ei; lia].
  symmetry in E.
  destruct (tiling_blocks _ _ _ T) as (_ & Hb).
  destruct (Hb b (nth_error_In _ _ Ei)) as (_ & Hp & _).
  assert (Hpos : 0 < 2 ^ (32 - snd b)) by (apply pow2_pos; lia).
  destruct (Nat.lt_trichotomy i j) as [L | [Eq | L]]; [| exact Eq |].
  - pose proof (tiling_ordered _ _ _ _ _ _ _ T L Ei E). lia.
  - pose proof (tiling_ordered _ _ _ _ _ _ _ T L E Ei). lia.
Qed.

(** An aligned block inside the range lies inside the block of the tiling
    that holds its first address. *)
Lemma tiling_absorbs lo bs hi c :
  tiling lo bs hi -> aligned_block c ->
  lo <= fst c -> fst c + 2 ^ (32 - snd c) <= hi + 1 ->
  exists G, In G bs /\ fst G <= fst c /\
            fst c + 2 ^ (32 - snd c) <= fst G + 2 ^ (32 - snd G).
Proof.
  intros T (Hp & H0 & Hal) Hlo Hhi.
  assert (Hpos : 0 < 2 ^ (32 - snd c)) by (apply pow2_pos; lia).
  destruct (proj1 (tiling_cover _ _ _ T (fst c)) ltac:(lia)) as (G & HG & Hin).
  destruct (tiling_blocks _ _ _ T) as (_ & Hb).
  destruct (Hb G HG) as (_ & HpG & (HalG & HfitG) & Hmax).
  exists G. split; [exact HG |].
  assert (Hself : fst c <= fst c < fst c + 2 ^ (32 - snd c)) by lia.
  unfold in_block in Hin.
  destruct (Z.le_gt_cases (snd G) (snd c)) as [Hle | Hgt].
  - apply (aligned_nested (fst G) (32 - snd G) (fst c) (32 - snd c) (fst c));
      try assumption; lia.
  - exfalso.
    destruct (aligned_nested (fst c) (32 - snd c) (fst G) (32 - snd G) (fst c))
      as (A & B); try assumption; try lia.
    assert (E : fst G = fst c) by lia.
    apply (Hmax (snd c)); [lia |].
    unfold block_fits. rewrite E. split; [exact Hal | lia].
Qed.

(** Counting: when every element of [bs] is reached from some element of
    [cs], and no element of [cs] reaches two of them, [bs] is not longer
    than [cs]. *)
Lemma reached_length {A B : Type} (R : A -> B -> Prop) (bs : list B) :
  NoDup bs ->
  forall cs : list A,
    (forall G, In G bs -> exists c, In c cs /\ R c G) ->
    (forall c G G', In G bs -> In G' bs -> R c G -> R c G' -> G = G') ->
    (List.length bs <= List.length cs)%nat.
Proof.
  induction 1 as [| G bs' Hnot Hnd IH]; intros cs Hall Hfun.
  - cbn. lia.
  - destruct (Hall G (or_introl eq_refl)) as (c & Hc & HR).
    destruct (in_split _ _ Hc) as (l1 & l2 & ->).
    rewrite length_app. cbn [List.length].
    assert (Hlen : (List.length bs' <= List.length (l1 ++ l2))%nat).
    { apply IH.
      - intros G' HG'.
        destruct (Hall G' (or_intror HG')) as (c' & Hc' & HR').
        exists c'. split; [| exact HR'].
        apply in_app_or in Hc'. apply in_or_app.
        destruct Hc' as [H1 | [<- | H2]]; [left; exact H1 | | right; exact H2].
        exfalso. apply Hnot.
        rewrite (Hfun c G G' (or_introl eq_refl) (or_intror HG') HR HR').
        exact HG'.
      - intros c' G1 G2 H1 H2. apply Hfun; right; assumption. }
    rewrite length_app in Hlen. cbn [List.length]. lia.
Qed.

(** No list of aligned blocks with the same union is shorter than the
    tiling. *)
Lemma tiling_shortest lo bs hi cs :
  tiling lo bs hi ->
  (forall c, In c cs -> aligned_block c) -> covers_exactly cs lo hi ->
  (List.length bs <= List.length cs)%nat.
Proof.
  intros T Hal Hcov.
  apply (reached_length (fun c G => in_block G (fst c)) bs
           (tiling_NoDup _ _ _ T)).
  - intros G HG.
    destruct (tiling_blocks _ _ _ T) as (_ & Hb).
    destruct (Hb G HG) as (HloG & HpG & (HalG & HfitG) & _).
    assert (HposG : 0 < 2 ^ (32 - snd G)) by (apply pow2_pos; lia).
    destruct (proj1 (Hcov (fst G)) ltac:(lia)) as (c & Hc & Hin).
    exists c. split; [exact Hc |].
    destruct (Hal c Hc) as (Hp & H0 & Hmod).
    assert (Hpos : 0 < 2 ^ (32 - snd c)) by (apply pow2_pos; lia).
    assert (Hfirst : lo <= fst c <= hi).
    { apply Hcov. exists c. split; [exact Hc |]. unfold in_block. lia. }
    assert (Hlast : lo <= fst c + 2 ^ (32 - snd c) - 1 <= hi).
    { apply Hcov. exists c. split; [exact Hc |]. unfold in_block. lia. }
    destruct (tiling_absorbs lo bs hi c T (Hal c Hc)) as (G' & HG' & A & B);
      try lia.
    unfold in_block in Hin.
    assert (E : G = G').
    { apply (tiling_unique_block lo bs hi G G' (fst G) T HG HG');
        unfold in_block; lia. }
    subst G'. unfold in_block. lia.
  - intros c G G' HG HG' H1 H2.
    apply (tiling_unique_block lo bs hi G G' (fst c) T HG HG' H1 H2).
Qed.

(** A result of [Deaggregate] does not depend on the fuel that produced it. *)
Lemma Deaggregate_blocks_mono end_ fuel : forall fuel' start blocks r,
  Deaggregate_blocks fuel start end_ blocks = Some r -> (fuel <= fuel')%nat ->
  Deaggregate_blocks fuel' start end_ blocks = Some r.
Proof.
  induction fuel as [| f IH]; intros fuel' start blocks r H Hle.
  - cbn [Deaggregate_blocks] in H.
    destruct fuel'; cbn [Deaggregate_blocks];
      destruct (start <=? end_); congruence.
  - destruct fuel' as [| f']; [lia |].
    cbn [Deaggregate_blocks] in *.
    destruct (start <=? end_); [| exact H].
    apply IH; [exact H | lia].
Qed.

(** X21. On every range that ends below 255.255.255.255, with enough fuel,
    [Deaggregate] returns the blocks of the greedy tiling of the range,
    printed in order; their union is the range, they are aligned and
    apart, and no list of aligned blocks with that union is shorter. *)
Theorem Deaggregate_below_top startStr endStr start end_ :
  ParseIPv4 startStr = Ok start -> ParseIPv4 endStr = Ok end_ ->
  start <= end_ -> end_ <> 4294967295 ->
  exists bs,
    (forall fuel, (Z.to_nat (end_ + 1 - start) <= fuel)%nat ->
       Deaggregate fuel startStr endStr = Some (Ok (map CIDR bs))) /\
    tiling start bs end_ /\
    covers_exactly bs start end_ /\
    pairwise_disjoint bs /\
    (forall b, In b bs -> aligned_block b) /\
    (forall cs, (forall c, In c cs -> aligned_block c) ->
       covers_exactly cs start end_ ->
       (List.length bs <= List.length cs)%nat).
Proof.
  intros Hs He Hle Hne.
  pose proof (ParseIPv4_range _ _ Hs) as Rs.
  pose proof (ParseIPv4_range _ _ He) as Re.
  destruct (Deaggregate_blocks_run end_ ltac:(lia)
              (Z.to_nat (end_ + 1 - start)) start []) as (bs & E & T);
    try lia.
  exists bs. refine (conj _ (conj T (conj _ (conj _ (conj _ _))))).
  - intros fuel Hf.
    rewrite (Deaggregate_unfold _ _ _ _ _ Hs He Hle).
    rewrite (Deaggregate_blocks_mono _ _ _ _ _ _ E Hf). reflexivity.
  - apply tiling_cover. exact T.
  - eapply tiling_disjoint. exact T.
  - intros b Hb. destruct (tiling_blocks _ _ _ T) as (_ & H).
    destruct (H b Hb) as (H1 & H2 & (H3 & _) & _).
    unfold aligned_block. split; [exact H2 | split; [lia | exact H3]].
  - intros cs. apply tiling_shortest. exact T.
Qed.

Lemma Deaggregate_below_top_witness :
  exists bs,
    (forall fuel, (Z.to_nat (3232235530 + 1 - 3232235521) <= fuel)%nat ->
       Deaggregate fuel "192.168.0.1" "192.168.0.10" = Some (Ok (map CIDR bs))) /\
    tiling 3232235521 bs 3232235530.
Proof.
  destruct (Deaggregate_below_top "192.168.0.1" "192.168.0.10"
              3232235521 3232235530 eq_refl eq_refl ltac:(lia) ltac:(lia))
    as (bs & H1 & H2 & _).
  exists bs. split; assumption.
Defined.

(** The examples of the specification. *)
Lemma Deaggregate_examples :
  Deaggregate 10 "192.168.0.1" "192.168.0.10"
  = Some (Ok ["192.168.0.1/32"; "192.168.0.2/31"; "192.168.0.4/30";
              "192.168.0.8/31"; "192.168.0.10/32"]) /\
  Deaggregate 1 "192.168.0.0" "192.168.0.255" = Some (Ok ["192.168.0.0/24"]) /\
  Deaggregate 1 "10.0.0.1" "10.0.0.1" = Some (Ok ["10.0.0.1/32"]) /\
  Deaggregate 1 "10.0.0.2" "10.0.0.1"
  = Some (Err "start address must be less than or equal to end address").
Proof. repeat split; vm_compute; reflexivity. Qed.

(** ** [SplitNetwork] where nothing overflows *)

Lemma SplitNetwork_hostsNeeded_sized size :
  0 <= size <= 2 ^ 31 - 2 ->
  forall d k, k = 31 - Z.of_nat d -> 2 <= k ->
    (forall j, 2 <= j < k -> 2 ^ j - 2 < size) ->
    exists h, SplitNetwork_hostsNeeded d size (2 ^ k) = Some h /\
              block_size_for size h /\ h <= 2 ^ 31.
Proof.
  intros Hsize. induction d as [| d' IH]; intros k Hk H2 Hmin.
  - change (Z.of_nat 0) with 0 in Hk. assert (E31 : k = 31) by lia.
    clear Hk. subst k. cbn [SplitNetwork_hostsNeeded].
    rewrite (wrap_small size) by lia.
    change (U32.sub (2 ^ 31) 2) with (2 ^ 31 - 2).
    destruct (Z.ltb_spec (2 ^ 31 - 2) size); [lia |].
    exists (2 ^ 31). split; [reflexivity |]. split; [| lia].
    exists 31. repeat split; try lia. exact Hmin.
  - cbn [SplitNetwork_hostsNeeded].
    assert (Hk31 : k <= 30) by lia.
    assert (Hpk : 4 <= 2 ^ k < 2 ^ 31).
    { split; [apply (pow2_le 2 k); lia | apply pow2_lt; lia]. }
    rewrite (wrap_small size) by lia.
    unfold U32.sub. rewrite wrap_small by lia.
    destruct (Z.ltb_spec (2 ^ k - 2) size) as [Hlt | Hge].
    + unfold U32.mul. rewrite wrap_small by lia.
      replace (2 ^ k * 2) with (2 ^ (k + 1))
        by (rewrite Z.pow_add_r by lia; reflexivity).
      apply IH; try lia.
      intros j Hj. destruct (Z.eq_dec j k) as [-> | ]; [exact Hlt |].
      apply Hmin. lia.
    + exists (2 ^ k). split; [reflexivity |]. split; [| lia].
      exists k. repeat split; try lia. exact Hmin.
Qed.

Lemma SplitNetwork_hostsNeeded_ok size fuel :
  0 <= size <= 2 ^ 31 - 2 -> (29 <= fuel)%nat ->
  exists h, SplitNetwork_hostsNeeded fuel size 4 = Some h /\
            block_size_for size h /\ h <= 2 ^ 31.
Proof.
  intros Hsize Hfuel.
  destruct (SplitNetwork_hostsNeeded_sized size Hsize 29 2 eq_refl ltac:(lia))
    as (h & E & B).
  { intros j Hj. lia. }
  exists h. split; [| exact B].
  apply (SplitNetwork_hostsNeeded_mono 29); assumption.
Qed.

Lemma total_size_app l h : total_size (l ++ [h]) = total_size l + h.
Proof.
  unfold total_size. induction l as [| a l IH]; cbn [app fold_right]; lia.
Qed.

Lemma total_size_nonneg hs :
  Forall (fun h => 0 <= h) hs -> 0 <= total_size hs.
Proof.
  unfold total_size. induction 1; cbn [fold_right]; lia.
Qed.

Lemma SplitNetwork_sizes_ok fuel sizes :
  (29 <= fuel)%nat ->
  Forall (fun size => 0 <= size <= 2 ^ 31 - 2) sizes ->
  forall hostCounts totalRequired,
    0 <= totalRequired < 2 ^ 32 ->
    exists hs,
      SplitNetwork_sizes fuel sizes hostCounts totalRequired
      = Some (hostCounts ++ hs, U32.wrap (totalRequired + total_size hs)) /\
      Forall2 block_size_for sizes hs /\
      Forall (fun h => 4 <= h <= 2 ^ 31) hs.
Proof.
  intros Hfuel Hall. induction Hall as [| size rest Hsize Hrest IH];
    intros hostCounts totalRequired Htot.
  - exists []. cbn [SplitNetwork_sizes]. rewrite app_nil_r.
    unfold total_size. cbn [fold_right]. rewrite Z.add_0_r.
    rewrite wrap_small by exact Htot. repeat constructor.
  - cbn [SplitNetwork_sizes].
    destruct (SplitNetwork_hostsNeeded_ok size fuel Hsize Hfuel)
      as (h & -> & B & Hh).
    destruct (IH (hostCounts ++ [h]) (U32.add totalRequired h))
      as (hs & -> & F2 & F). { apply wrap_range. }
    exists (h :: hs). split; [| split].
    + rewrite <- app_assoc. cbn [app]. f_equal. f_equal.
      unfold total_size. cbn [fold_right]. fold (total_size hs).
      unfold U32.add, U32.wrap, U32.modulus.
      rewrite Zplus_mod_idemp_l. f_equal. lia.
    + constructor; assumption.
    + constructor; [| exact F].
      destruct B as (k & Hk & -> & _). split; [| exact Hh].
      apply (pow2_le 2 k). lia.
Qed.

Lemma SplitNetwork_prefix_pow k :
  0 <= k < 32 -> SplitNetwork_prefix 32 (2 ^ k) 32 = 32 - k.
Proof.
  intros H. apply Z.eqb_eq.
  check_below (fun k => SplitNetwork_prefix 32 (2 ^ k) 32 =? 32 - k) 32.
Qed.

Lemma ParseNetmask_fmt_d p :
  0 <= p <= 32 -> ParseNetmask (fmt.d p) = Ok (prefix_mask p, p).
Proof.
  intros H.
  assert (E : match ParseNetmask (fmt.d p) with
              | Ok (m, q) => (m =? prefix_mask p) && (q =? p)
              | Err _ => false
              end = true).
  { check_below
             (fun p => match ParseNetmask (fmt.d p) with
                       | Ok (m, q) => (m =? prefix_mask p) && (q =? p)
                       | Err _ => false
                       end) 33. }
  destruct (ParseNetmask (fmt.d p)) as [[m q] | e]; [| discriminate].
  apply andb_true_iff in E. destruct E as [E1 E2].
  apply Z.eqb_eq in E1, E2. subst. reflexivity.
Qed.

(** The subnet object that [SplitNetwork] builds from the printed cursor:
    its network id is the cursor masked down to the prefix length. *)
Lemma CalculateNetwork_printed ip p :
  0 <= ip < 2 ^ 32 -> 0 <= p <= 32 ->
  exists n, CalculateNetwork (IPToString ip) (fmt.d p) = Ok n /\
            NetworkID n = Z.land ip (prefix_mask p).
Proof.
  intros Hip Hp. unfold CalculateNetwork.
  rewrite ParseIPv4_IPToString by exact Hip.
  rewrite ParseNetmask_fmt_d by exact Hp.
  destruct (p =? 31); [| destruct (p =? 32)]; eexists; split; reflexivity.
Qed.

Lemma SplitNetwork_alloc_ok hs :
  Forall (fun h => exists k, 0 <= k < 32 /\ h = 2 ^ k) hs ->
  forall cursor blocks,
    0 <= cursor < 2 ^ 32 ->
    SplitNetwork_alloc_blocks hs cursor blocks
    = Ok (blocks ++ allocation hs cursor).
Proof.
  induction 1 as [| h rest (k & Hk & ->) Hrest IH]; intros cursor blocks Hc.
  - cbn [SplitNetwork_alloc_blocks allocation]. rewrite app_nil_r. reflexivity.
  - cbn [SplitNetwork_alloc_blocks allocation].
    rewrite SplitNetwork_prefix_pow by exact Hk.
    rewrite Z.log2_pow2 by lia.
    destruct (CalculateNetwork_printed cursor (32 - k) Hc ltac:(lia))
      as (n & -> & ->).
    replace (32 - (32 - k)) with k by lia.
    unfold U32.add. rewrite shl_1 by exact Hk.
    rewrite IH by apply wrap_range.
    rewrite <- app_assoc. reflexivity.
Qed.

Lemma allocation_sizes hs : forall cursor,
  Forall (fun h => exists k, 0 <= k < 32 /\ h = 2 ^ k) hs ->
  Forall2 (fun h b => h = 2 ^ (32 - snd b)) hs (allocation hs cursor).
Proof.
  induction hs as [| h rest IH]; intros cursor Hall; cbn [allocation].
  - constructor.
  - inversion Hall as [| ? ? (k & Hk & ->) Hrest]; subst.
    constructor; [| apply IH; exact Hrest].
    cbn [snd]. rewrite Z.log2_pow2 by lia. f_equal. lia.
Qed.

Lemma floor_above_multiple N c k :
  0 <= k -> N mod 2 ^ k = 0 -> N <= c -> N <= c - c mod 2 ^ k.
Proof.
  intros Hk HN Hle.
  assert (Hpos : 0 < 2 ^ k) by (apply pow2_pos; lia).
  apply Z.mod_divide in HN; [| lia]. destruct HN as (q & ->).
  pose proof (Z.div_mod c (2 ^ k) ltac:(lia)) as D.
  assert (Hq : q <= c / 2 ^ k) by (apply Z.div_le_lower_bound; lia).
  nia.
Qed.

Lemma multiple_of_smaller N k K :
  0 <= k <= K -> N mod 2 ^ K = 0 -> N mod 2 ^ k = 0.
Proof.
  intros Hk HN.
  assert (Hpos : 0 < 2 ^ K) by (apply pow2_pos; lia).
  assert (Hpos' : 0 < 2 ^ k) by (apply pow2_pos; lia).
  apply Z.mod_divide in HN; [| lia]. destruct HN as (q & ->).
  rewrite (pow2_split k K) by lia.
  replace (q * (2 ^ k * 2 ^ (K - k))) with (q * 2 ^ (K - k) * 2 ^ k) by ring.
  apply Z.mod_mul. lia.
Qed.

(** While the cursor and the block sizes stay inside a network, so do the
    subnets. *)
Lemma allocation_inside N K hs :
  0 <= N -> 0 <= K <= 32 -> N mod 2 ^ K = 0 -> N + 2 ^ K <= 2 ^ 32 ->
  Forall (fun h => exists k, 2 <= k < 32 /\ h = 2 ^ k) hs ->
  forall cursor,
    N <= cursor -> cursor + total_size hs <= N + 2 ^ K ->
    forall b x, In b (allocation hs cursor) -> in_block b x ->
      N <= x < N + 2 ^ K.
Proof.
  intros HN HK Hal Htop Hall.
  induction Hall as [| h rest (k & Hk & ->) Hrest IH];
    intros cursor Hlo Hhi b x Hin Hx.
  - destruct Hin.
  - unfold total_size in Hhi. cbn [fold_right] in Hhi. fold (total_size rest) in Hhi.
    assert (Hrest0 : 0 <= total_size rest).
    { apply total_size_nonneg. eapply Forall_impl; [| exact Hrest].
      intros a (j & Hj & ->). apply Z.lt_le_incl, pow2_pos. lia. }
    assert (Hpk : 4 <= 2 ^ k) by (apply (pow2_le 2 k); lia).
    assert (HkK : k <= K).
    { destruct (Z.le_gt_cases k K) as [| Hgt]; [assumption |].
      pose proof (pow2_lt K k ltac:(lia)). lia. }
    cbn [allocation] in Hin. destruct Hin as [<- | Hin].
    + unfold in_block in Hx. cbn [fst snd] in Hx.
      rewrite Z.log2_pow2 in Hx by lia.
      replace (32 - (32 - k)) with k in Hx by lia.
      rewrite network_id_arith in Hx by lia.
      replace (32 - (32 - k)) with k in Hx by lia.
      pose proof (floor_above_multiple N cursor k ltac:(lia)
                    (multiple_of_smaller N k K ltac:(lia) Hal) Hlo).
      assert (0 <= cursor mod 2 ^ k) by (apply Z.mod_pos_bound; lia).
      lia.
    + destruct rest as [| h' rest'].
      * destruct Hin.
      * assert (H4 : 4 <= total_size (h' :: rest')).
        { inversion Hrest as [| ? ? (j & Hj & E) Hr]; subst.
          unfold total_size. cbn [fold_right]. fold (total_size rest').
          assert (0 <= total_size rest').
          { apply total_size_nonneg. eapply Forall_impl; [| exact Hr].
            intros a (i & Hi & ->). apply Z.lt_le_incl, pow2_pos. lia. }
          assert (4 <= 2 ^ j) by (apply (pow2_le 2 j); lia). lia. }
        rewrite wrap_small in Hin by lia.
        apply (IH (cursor + 2 ^ k) ltac:(lia) ltac:(lia) b x Hin Hx).
Qed.

Lemma block_size_for_pow n h :
  block_size_for n h -> h <= 2 ^ 31 -> exists k, 2 <= k < 32 /\ h = 2 ^ k.
Proof.
  intros (k & Hk & -> & _) Hle. exists k. split; [| reflexivity].
  destruct (Z.le_gt_cases k 31) as [| Hgt]; [lia |].
  pose proof (pow2_lt 31 k ltac:(lia)). lia.
Qed.

(** X22. Where nothing overflows, that is on a network of prefix length at
    least 1, with every request between 0 and [2^31 - 2] and the block sizes
    summing to less than [2^32], [SplitNetwork] sizes every request to the
    smallest power of two, at least 4, whose capacity minus 2 is at least
    the request; it fails, reporting the sum and the capacity, exactly when
    the sum exceeds [2^(32 - prefixLen)], and it returns otherwise one
    subnet per request, in the order of the requests, of the size of the
    request and inside the network. *)
Theorem SplitNetwork_sized fuel networkStr maskStr network sizes :
  CalculateNetwork networkStr maskStr = Ok network ->
  1 <= BitCount network ->
  Forall (fun size => 0 <= size <= 2 ^ 31 - 2) sizes ->
  (29 <= fuel)%nat ->
  exists hostCounts,
    Forall2 block_size_for sizes hostCounts /\
    (total_size hostCounts < 2 ^ 32 ->
     (2 ^ (32 - BitCount network) < total_size hostCounts ->
      SplitNetwork fuel networkStr maskStr sizes
      = Some (Err ("requested subnet sizes exceed available space ("
                   +++ fmt.d (total_size hostCounts) +++ " > "
                   +++ fmt.d (2 ^ (32 - BitCount network)) +++ ")"))) /\
     (total_size hostCounts <= 2 ^ (32 - BitCount network) ->
      exists blocks,
        SplitNetwork fuel networkStr maskStr sizes = Some (Ok (map CIDR blocks)) /\
        Forall2 (fun h b => h = 2 ^ (32 - snd b)) hostCounts blocks /\
        (forall b x, In b blocks -> in_block b x ->
           NetworkID network <= x <= Broadcast network))).
Proof.
  intros Hnet Hp1 Hsizes Hfuel.
  destruct (CalculateNetwork_ok _ _ _ Hnet)
    as (ip & p & _ & _ & Hip & Hp & _ & Hmask & Hbits & Hid & Hbc & _).
  rewrite Hbits in *.
  destruct (SplitNetwork_sizes_ok fuel sizes Hfuel Hsizes [] 0 ltac:(lia))
    as (hs & Esz & F2 & Fr).
  cbn [app] in Esz. rewrite Z.add_0_l in Esz.
  exists hs. split; [exact F2 |]. intros Htot.
  assert (Hnon : 0 <= total_size hs).
  { apply total_size_nonneg. eapply Forall_impl; [| exact Fr].
    intros a Ha. cbv beta in Ha. lia. }
  rewrite wrap_small in Esz by lia.
  assert (Hcap : U32.shl 1 (U32.sub 32 (U32.wrap p)) = 2 ^ (32 - p)).
  { rewrite (wrap_small p) by lia. unfold U32.sub.
    rewrite wrap_small by lia. apply shl_1. lia. }
  assert (Hpow : Forall (fun h => exists k, 2 <= k < 32 /\ h = 2 ^ k) hs).
  { clear - F2 Fr. induction F2 as [| n h l l' B F IH]; [constructor |].
    inversion Fr; subst. constructor; [| apply IH; assumption].
    eapply block_size_for_pow; [exact B | lia]. }
  assert (Hpow' : Forall (fun h => exists k, 0 <= k < 32 /\ h = 2 ^ k) hs).
  { eapply Forall_impl; [| exact Hpow]. intros a (k & Hk & ->).
    exists k. split; [lia | reflexivity]. }
  split.
  - intros Hover. rewrite SplitNetwork_eq. unfold SplitNetwork_blocks.
    rewrite Hnet, Esz, Hbits, Hcap.
    destruct (Z.ltb_spec (2 ^ (32 - p)) (total_size hs)); [reflexivity | lia].
  - intros Hfits. exists (allocation hs (NetworkID network)).
    assert (Hidr : NetworkID network = ip - ip mod 2 ^ (32 - p)).
    { rewrite Hid. apply network_id_arith; assumption. }
    assert (Hpos : 0 < 2 ^ (32 - p)) by (apply pow2_pos; lia).
    assert (Hmod : 0 <= ip mod 2 ^ (32 - p) < 2 ^ (32 - p))
      by (apply Z.mod_pos_bound; lia).
    assert (Hle : ip mod 2 ^ (32 - p) <= ip) by (apply Z.mod_le; lia).
    assert (Hal : NetworkID network mod 2 ^ (32 - p) = 0).
    { rewrite Hidr. apply network_id_aligned. lia. }
    assert (Htop : NetworkID network + 2 ^ (32 - p) <= 2 ^ 32).
    { pose proof Hal as Hd. apply Z.mod_divide in Hd; [| lia].
      destruct Hd as (q & Eq).
      assert (Hq : q < 2 ^ p).
      { apply (Z.mul_lt_mono_pos_r (2 ^ (32 - p))); [lia |].
        rewrite <- Eq, <- Z.pow_add_r by lia.
        replace (p + (32 - p)) with 32 by lia. lia. }
      rewrite (pow2_split (32 - p) 32) by lia.
      replace (32 - (32 - p)) with p by lia. nia. }
    refine (conj _ (conj _ _)).
    + rewrite SplitNetwork_eq. unfold SplitNetwork_blocks.
      rewrite Hnet, Esz, Hbits, Hcap.
      destruct (Z.ltb_spec (2 ^ (32 - p)) (total_size hs)); [lia |].
      rewrite SplitNetwork_alloc_ok by (assumption || lia).
      reflexivity.
    + apply allocation_sizes. exact Hpow'.
    + intros b x Hin Hx.
      assert (Hbc' : Broadcast network = NetworkID network + 2 ^ (32 - p) - 1).
      { rewrite Hbc, Hmask, Hid, broadcast_arith, network_id_arith by assumption.
        lia. }
      pose proof (allocation_inside (NetworkID network) (32 - p) hs
                    ltac:(lia) ltac:(lia) Hal Htop Hpow _
                    (Z.le_refl _) ltac:(lia) b x Hin Hx).
      lia.
Qed.

Lemma SplitNetwork_sized_witness :
  exists hostCounts,
    Forall2 block_size_for [100; 50; 25] hostCounts /\
    (total_size hostCounts < 2 ^ 32 ->
     total_size hostCounts <= 2 ^ (32 - BitCount net_192_168_0_0_24) ->
     exists blocks,
       SplitNetwork 30 "192.168.0.0" "24" [100; 50; 25]
       = Some (Ok (map CIDR blocks))).
Proof.
  destruct (SplitNetwork_sized 30 "192.168.0.0" "24" net_192_168_0_0_24
              [100; 50; 25]) as (hs & F & H).
  - reflexivity.
  - simpl. lia.
  - repeat constructor; lia.
  - lia.
  - exists hs. split; [exact F |]. intros Ht Hc.
    destruct (H Ht) as (_ & H2). destruct (H2 Hc) as (blocks & E & _).
    exists blocks. exact E.
Defined.

(** The other overflows of [SplitNetwork]: two requests of [2^30 + 1] hosts
    are sized to [2^31] addresses each, their sum wraps around to 0 and the
    /24 network is split into two /1 blocks; a request above [2^31 - 2], or
    a negative one other than -1, is sized to 0 addresses and gets a /32
    block. *)
Lemma SplitNetwork_overflow_examples :
  SplitNetwork 40 "192.168.0.0" "24" [1073741825; 1073741825]
  = Some (Ok ["128.0.0.0/1"; "0.0.0.0/1"]) /\
  SplitNetwork 40 "192.168.0.0" "24" [2147483647]
  = Some (Ok ["192.168.0.0/32"]) /\
  SplitNetwork 40 "192.168.0.0" "24" [-2] = Some (Ok ["192.168.0.0/32"]).
Proof. repeat split; vm_compute; reflexivity. Qed.

(** * Further properties of the package *)

(** ** [IPToString] and [ParseIPv4] *)

(** X1. [ParseIPv4] reads back every address that [IPToString] prints, so
    [IPToString] never prints the same text for two addresses. *)
Theorem IPToString_round_trip v w :
  0 <= v < 2 ^ 32 -> 0 <= w < 2 ^ 32 ->
  ParseIPv4 (IPToString v) = Ok v /\
  (IPToString v = IPToString w -> v = w).
Proof.
  intros Hv Hw. split; [apply ParseIPv4_IPToString; exact Hv |].
  intros E.
  pose proof (ParseIPv4_IPToString v Hv) as P.
  rewrite E, (ParseIPv4_IPToString w Hw) in P. congruence.
Qed.

Lemma IPToString_round_trip_witness :
  ParseIPv4 (IPToString 3232235777) = Ok 3232235777.
Proof.
  apply (IPToString_round_trip 3232235777 0); lia.
Defined.

(** ** [GetClass], [GetClassBits] and [IsPrivate] *)

Lemma land_top ip k :
  0 <= ip < 2 ^ 32 -> 0 <= k <= 32 ->
  Z.land ip (2 ^ 32 - 2 ^ k) = 2 ^ k * (ip / 2 ^ k).
Proof.
  intros Hip Hk. rewrite land_high_mask by assumption.
  pose proof (Z.div_mod ip (2 ^ k)) as D.
  pose proof (pow2_pos k). lia.
Qed.

(** The class of an address, by the ranges the comments of [GetClass]
    give. *)
Lemma GetClass_cases ip :
  0 <= ip < 2 ^ 32 ->
  GetClass ip
  = if ip <? 2147483648 then "A"
    else if ip <? 3221225472 then "B"
    else if ip <? 3758096384 then "C"
    else if ip <? 4026531840 then "D"
    else "E".
Proof.
  intros Hip. unfold GetClass.
  change 2147483648 with (2 ^ 32 - 2 ^ 31) at 1.
  change 3221225472 with (2 ^ 32 - 2 ^ 30) at 1.
  change 3758096384 with (2 ^ 32 - 2 ^ 29) at 1.
  change 4026531840 with (2 ^ 32 - 2 ^ 28) at 1.
  rewrite !land_top by lia.
  change (2 ^ 31) with 2147483648. change (2 ^ 30) with 1073741824.
  change (2 ^ 29) with 536870912. change (2 ^ 28) with 268435456.
  repeat match goal with
         | |- context [?a =? ?b] => destruct (Z.eqb_spec a b)
         | |- context [?a <? ?b] => destruct (Z.ltb_spec a b)
         end;
    try reflexivity; exfalso; Z.div_mod_to_equations; lia.
Qed.

(** X2. The class of an address is decided by the range it lies in:
    A up to 127.255.255.255, B up to 191.255.255.255, C up to
    223.255.255.255, D up to 239.255.255.255 and E above. *)
Theorem GetClass_ranges ip :
  0 <= ip < 2 ^ 32 ->
  (GetClass ip = "A" <-> ip <= 2147483647) /\
  (GetClass ip = "B" <-> 2147483648 <= ip <= 3221225471) /\
  (GetClass ip = "C" <-> 3221225472 <= ip <= 3758096383) /\
  (GetClass ip = "D" <-> 3758096384 <= ip <= 4026531839) /\
  (GetClass ip = "E" <-> 4026531840 <= ip).
Proof.
  intros Hip. rewrite (GetClass_cases ip Hip).
  destruct (Z.ltb_spec ip 2147483648);
    [| destruct (Z.ltb_spec ip 3221225472);
       [| destruct (Z.ltb_spec ip 3758096384);
          [| destruct (Z.ltb_spec ip 4026531840)]]];
    repeat split; intros; try lia; try discriminate; reflexivity.
Qed.

Lemma GetClass_ranges_witness :
  GetClass 3232235777 = "C" <-> 3221225472 <= 3232235777 <= 3758096383.
Proof.
  apply (GetClass_ranges 3232235777). lia.
Defined.

(** X3. For every dotted quad, [handleClassOnly] prints the bit count of
    the class of its first octet: 8 below 128, 16 below 192, 24 below 224 and
    4 from 224 on; the value 0 of the default case of [GetClassBits] is never
    printed. *)
Theorem handleClassOnly_dotted a b c d :
  0 <= a < 256 -> 0 <= b < 256 -> 0 <= c < 256 -> 0 <= d < 256 ->
  handleClassOnly
    (fmt.d a +++ "." +++ fmt.d b +++ "." +++ fmt.d c +++ "." +++ fmt.d d)
  = Ok (if a <? 128 then "8"
        else if a <? 192 then "16"
        else if a <? 224 then "24"
        else "4") /\
  GetClassBits (GetClass (octets a b c d)) <> 0.
Proof.
  intros Ha Hb Hc Hd.
  assert (Hr : 0 <= octets a b c d < 2 ^ 32) by (apply octets_range; assumption).
  assert (Hbits : GetClassBits (GetClass (octets a b c d))
                  = if a <? 128 then 8
                    else if a <? 192 then 16
                    else if a <? 224 then 24
                    else 4).
  { rewrite (GetClass_cases _ Hr). unfold octets.
    change (2 ^ 24) with 16777216. change (2 ^ 16) with 65536.
    change (2 ^ 8) with 256.
    repeat match goal with
           | |- context [?x <? ?y] => destruct (Z.ltb_spec x y)
           end; try reflexivity; lia. }
  split.
  - unfold handleClassOnly.
    assert (Hq : dotted_quad
              (fmt.d a +++ "." +++ fmt.d b +++ "." +++ fmt.d c +++ "."
               +++ fmt.d d)).
    { exists a, b, c, d. repeat split; try lia. }
    apply dotted_quad_iff in Hq. destruct Hq as (g0 & g1 & g2 & g3 & E).
    rewrite E, dotted_no_colon, ParseIPv4_dotted. cbv zeta.
    assert (Eo : octets (net.uint32 g0) (net.uint32 g1) (net.uint32 g2)
                   (net.uint32 g3) = octets a b c d).
    { pose proof (ParseIPv4_dotted g0 g1 g2 g3) as P. rewrite <- E in P.
      assert (Q : ParseIPv4
                    (fmt.d a +++ "." +++ fmt.d b +++ "." +++ fmt.d c +++ "."
                     +++ fmt.d d) = Ok (octets a b c d)).
      { pose proof (ParseIPv4_dotted (net.uint8 a) (net.uint8 b) (net.uint8 c)
                      (net.uint8 d)) as Q.
        rewrite dotted_right, !uint32_uint8 in Q by assumption. exact Q. }
      congruence. }
    rewrite Eo, Hbits.
    repeat match goal with
           | |- context [?x <? ?y] => destruct (Z.ltb_spec x y)
           end; reflexivity.
  - rewrite Hbits.
    repeat match goal with
           | |- context [?x <? ?y] => destruct (Z.ltb_spec x y)
           end; discriminate.
Qed.

Lemma handleClassOnly_dotted_witness :
  handleClassOnly
    (fmt.d 172 +++ "." +++ fmt.d 16 +++ "." +++ fmt.d 0 +++ "." +++ fmt.d 1)
  = Ok "16".
Proof.
  apply (handleClassOnly_dotted 172 16 0 1); lia.
Defined.

(** X4. [IsPrivate] holds exactly on the three ranges 10.0.0.0 -
    10.255.255.255, 172.16.0.0 - 172.31.255.255 and 192.168.0.0 -
    192.168.255.255, whose addresses are of class A, B and C. *)
Theorem IsPrivate_ranges ip :
  0 <= ip < 2 ^ 32 ->
  (IsPrivate ip = true <->
     167772160 <= ip <= 184549375 \/ 2886729728 <= ip <= 2887778303 \/
     3232235520 <= ip <= 3232301055) /\
  (IsPrivate ip = true ->
     GetClass ip = "A" \/ GetClass ip = "B" \/ GetClass ip = "C").
Proof.
  intros Hip.
  assert (H : IsPrivate ip = true <->
     167772160 <= ip <= 184549375 \/ 2886729728 <= ip <= 2887778303 \/
     3232235520 <= ip <= 3232301055).
  { unfold IsPrivate.
    change 4278190080 with (2 ^ 32 - 2 ^ 24).
    change 4293918720 with (2 ^ 32 - 2 ^ 20).
    change 4294901760 with (2 ^ 32 - 2 ^ 16).
    rewrite !land_top by lia.
    change (2 ^ 24) with 16777216. change (2 ^ 20) with 1048576.
    change (2 ^ 16) with 65536.
    repeat match goal with
           | |- context [?a =? ?b] => destruct (Z.eqb_spec a b)
           end;
      split; intros; try reflexivity; try discriminate;
      Z.div_mod_to_equations; lia. }
  split; [exact H |].
  intros P. apply H in P. rewrite (GetClass_cases ip Hip).
  repeat match goal with
         | |- context [?x <? ?y] => destruct (Z.ltb_spec x y)
         end; auto; lia.
Qed.

Lemma IsPrivate_ranges_witness :
  IsPrivate 2886729729 = true <->
  167772160 <= 2886729729 <= 184549375 \/
  2886729728 <= 2886729729 <= 2887778303 \/
  3232235520 <= 2886729729 <= 3232301055.
Proof.
  apply (IsPrivate_ranges 2886729729). lia.
Defined.

(** ** [FormatBinary] *)

Lemma b08_bits o : 0 <= o < 256 -> fmt.b08 o = bits8 o 0.
Proof.
  intros H. apply String.eqb_eq.
  check_below (fun o => String.eqb (fmt.b08 o) (bits8 o 0)) 256.
Qed.

Lemma octet_bits ip s k :
  0 <= s -> 0 <= k < 8 ->
  Z.testbit (Z.land (U32.shr ip s) 255) k = Z.testbit ip (s + k).
Proof.
  intros Hs Hk. unfold U32.shr.
  rewrite Z.land_spec, Z.shiftr_spec by lia.
  change 255 with (Z.ones 8). rewrite Z.ones_spec_low by lia.
  rewrite andb_true_r. f_equal. lia.
Qed.

Lemma bits8_octet ip s :
  0 <= s -> bits8 (Z.land (U32.shr ip s) 255) 0 = bits8 ip s.
Proof.
  intros Hs. unfold bits8, bit_char. cbn [map].
  rewrite !octet_bits by lia. reflexivity.
Qed.

(** X5. [FormatBinary] prints the 32 bits of the address, the most
    significant one first, in four groups of eight with a dot between
    them: 35 characters in all. *)
Theorem FormatBinary_bits ip :
  FormatBinary ip
  = bits8 ip 24 +++ "." +++ bits8 ip 16 +++ "." +++ bits8 ip 8 +++ "."
    +++ bits8 ip 0 /\
  String.length (FormatBinary ip) = 35%nat.
Proof.
  assert (E : FormatBinary ip
              = bits8 ip 24 +++ "." +++ bits8 ip 16 +++ "." +++ bits8 ip 8
                +++ "." +++ bits8 ip 0).
  { unfold FormatBinary. cbn [FormatBinary_parts app strings.Join].
    rewrite !b08_bits by apply land_255_range.
    change (24 - 0 * 8) with 24. change (24 - (0 + 1) * 8) with 16.
    change (24 - (0 + 1 + 1) * 8) with 8.
    change (24 - (0 + 1 + 1 + 1) * 8) with 0.
    rewrite !bits8_octet by lia. reflexivity. }
  split; [exact E |]. rewrite E. reflexivity.
Qed.

(** ** [ParseNetmask] *)

Lemma substring_all s : substring 0 (String.length s) s = s.
Proof.
  induction s as [| c r IH]; [reflexivity |].
  cbn [String.length substring]. rewrite IH. reflexivity.
Qed.

Lemma TrimPrefix_slash s : strings.TrimPrefix (String "/" s) "/" = s.
Proof.
  unfold strings.TrimPrefix.
  assert (P : String.prefix "/" (String "/" s) = true)
    by (apply prefix_correct; destruct s; reflexivity).
  rewrite P.
  cbn [String.length Nat.sub substring]. rewrite Nat.sub_0_r.
  apply substring_all.
Qed.

(** X6. A mask text that, once a leading slash is removed, is an integer
    [n] is read as a prefix length: for [n] from 0 to 32 the result is [n]
    with the mask of [n] leading 1 bits, and every other [n] is rejected
    with the invalid-bit-count error. *)
Theorem ParseNetmask_prefix_text maskStr n :
  strconv.Atoi (strings.TrimPrefix maskStr "/") = Some n ->
  (0 <= n <= 32 ->
     ParseNetmask maskStr = Ok (prefix_mask n, n) /\
     leading_run (prefix_mask n) n) /\
  (n < 0 \/ 32 < n ->
     ParseNetmask maskStr
     = Err ("invalid bit count: " +++ fmt.d n +++ " (must be between 0 and 32)")).
Proof.
  intros H. unfold ParseNetmask. rewrite H. split.
  - intros Hn.
    destruct (Z.ltb_spec n 0); [lia |]. destruct (Z.ltb_spec 32 n); [lia |].
    cbn [orb]. rewrite ParseNetmask_fill_eq by exact Hn.
    split; [reflexivity |].
    apply leading_run_iff; [apply prefix_mask_range; exact Hn | auto].
  - intros Hn.
    destruct (Z.ltb_spec n 0); [reflexivity |].
    destruct (Z.ltb_spec 32 n); [reflexivity | lia].
Qed.

Lemma ParseNetmask_prefix_text_witness :
  ParseNetmask "/24" = Ok (prefix_mask 24, 24) /\
  ParseNetmask "33" = Err "invalid bit count: 33 (must be between 0 and 32)".
Proof.
  destruct (ParseNetmask_prefix_text "/24" 24 eq_refl) as (H1 & _).
  destruct (ParseNetmask_prefix_text "33" 33 eq_refl) as (_ & H2).
  split; [apply H1; lia | apply H2; lia].
Defined.

Lemma ParseNetmask_dotted_form p :
  0 <= p <= 32 ->
  ParseNetmask (IPToString (prefix_mask p)) = Ok (prefix_mask p, p).
Proof.
  intros H.
  assert (E : match ParseNetmask (IPToString (prefix_mask p)) with
              | Ok (m, q) => (m =? prefix_mask p) && (q =? p)
              | Err _ => false
              end = true).
  { check_below
      (fun p => match ParseNetmask (IPToString (prefix_mask p)) with
                | Ok (m, q) => (m =? prefix_mask p) && (q =? p)
                | Err _ => false
                end) 33. }
  destruct (ParseNetmask (IPToString (prefix_mask p))) as [[m q] | e];
    [| discriminate].
  apply andb_true_iff in E. destruct E as [E1 E2].
  apply Z.eqb_eq in E1, E2. subst. reflexivity.
Qed.

(** X7. Whatever text [ParseNetmask] accepts, it returns a prefix length
    between 0 and 32 with the mask of that many leading 1 bits, and the two
    notations of that mask, dotted and prefix length, with or without a
    leading slash, are read back as the same result. *)
Theorem ParseNetmask_notations maskStr m p :
  ParseNetmask maskStr = Ok (m, p) ->
  0 <= p <= 32 /\ leading_run m p /\ 0 <= m < 2 ^ 32 /\
  ParseNetmask (IPToString m) = Ok (m, p) /\
  ParseNetmask (fmt.d p) = Ok (m, p) /\
  ParseNetmask (String "/" (IPToString m)) = Ok (m, p) /\
  ParseNetmask (String "/" (fmt.d p)) = Ok (m, p).
Proof.
  intros H. destruct (ParseNetmask_ok _ _ _ H) as (Hp & ->).
  pose proof (prefix_mask_range p Hp) as Hr.
  assert (Hd : ParseNetmask (IPToString (prefix_mask p)) = Ok (prefix_mask p, p))
    by (apply ParseNetmask_dotted_form; exact Hp).
  assert (Hf : ParseNetmask (fmt.d p) = Ok (prefix_mask p, p))
    by (apply ParseNetmask_fmt_d; exact Hp).
  assert (Hslash : forall s,
            strings.TrimPrefix s "/" = s ->
            ParseNetmask (String "/" s) = ParseNetmask s).
  { intros s Hs. unfold ParseNetmask. rewrite TrimPrefix_slash, Hs. reflexivity. }
  assert (T1 : strings.TrimPrefix (IPToString (prefix_mask p)) "/"
               = IPToString (prefix_mask p)).
  { apply String.eqb_eq.
    check_below (fun p => String.eqb
                            (strings.TrimPrefix (IPToString (prefix_mask p)) "/")
                            (IPToString (prefix_mask p))) 33. }
  assert (T2 : strings.TrimPrefix (fmt.d p) "/" = fmt.d p).
  { apply String.eqb_eq.
    check_below (fun p => String.eqb (strings.TrimPrefix (fmt.d p) "/")
                            (fmt.d p)) 33. }
  refine (conj Hp (conj _ (conj Hr (conj Hd (conj Hf (conj _ _)))))).
  - apply leading_run_iff; auto.
  - rewrite (Hslash _ T1). exact Hd.
  - rewrite (Hslash _ T2). exact Hf.
Qed.

Lemma ParseNetmask_notations_witness :
  ParseNetmask (IPToString 4294967040) = Ok (4294967040, 24) /\
  ParseNetmask (fmt.d 24) = Ok (4294967040, 24).
Proof.
  destruct (ParseNetmask_notations "255.255.255.0" 4294967040 24 eq_refl)
    as (_ & _ & _ & H1 & H2 & _).
  split; assumption.
Defined.

(** ** The block of a network *)

(** The block of [CalculateNetwork]: its bounds in arithmetic. *)
Lemma CalculateNetwork_block ipStr maskStr n :
  CalculateNetwork ipStr maskStr = Ok n ->
  0 <= BitCount n <= 32 /\ 0 <= Address n < 2 ^ 32 /\
  Netmask n = prefix_mask (BitCount n) /\
  NetworkID n = Address n - Address n mod 2 ^ (32 - BitCount n) /\
  Broadcast n = NetworkID n + 2 ^ (32 - BitCount n) - 1.
Proof.
  intros H.
  destruct (CalculateNetwork_ok _ _ _ H)
    as (ip & p & _ & _ & Hip & Hp & Ha & Hmask & Hbits & Hid & Hbc & _).
  rewrite Hbits, Ha. refine (conj Hp (conj Hip (conj Hmask (conj _ _)))).
  - rewrite Hid. apply network_id_arith; assumption.
  - rewrite Hbc, Hmask, Hid, broadcast_arith, network_id_arith by assumption.
    lia.
Qed.

(** The block of a network lies inside the 32-bit space and holds the
    address. *)
Lemma CalculateNetwork_inside ipStr maskStr n :
  CalculateNetwork ipStr maskStr = Ok n ->
  0 <= NetworkID n /\ NetworkID n <= Address n <= Broadcast n /\
  Broadcast n < 2 ^ 32 /\
  Broadcast n - NetworkID n + 1 = 2 ^ (32 - BitCount n) /\
  NetworkID n mod 2 ^ (32 - BitCount n) = 0.
Proof.
  intros H.
  destruct (CalculateNetwork_block _ _ _ H) as (Hp & Ha & _ & Hid & Hbc).
  set (k := 32 - BitCount n) in *.
  assert (Hpos : 0 < 2 ^ k) by (apply pow2_pos; lia).
  assert (Hmod : 0 <= Address n mod 2 ^ k < 2 ^ k) by (apply Z.mod_pos_bound; lia).
  assert (Hle : Address n mod 2 ^ k <= Address n) by (apply Z.mod_le; lia).
  assert (Hal : NetworkID n mod 2 ^ k = 0)
    by (rewrite Hid; apply network_id_aligned; lia).
  assert (Htop : NetworkID n + 2 ^ k <= 2 ^ 32).
  { pose proof Hal as Hd. apply Z.mod_divide in Hd; [| lia].
    destruct Hd as (q & Eq).
    assert (Hq : q < 2 ^ (32 - k)).
    { apply (Z.mul_lt_mono_pos_r (2 ^ k)); [lia |].
      rewrite <- Eq, <- Z.pow_add_r by lia.
      replace (32 - k + k) with 32 by lia. lia. }
    rewrite (pow2_split k 32) by lia. nia. }
  refine (conj _ (conj _ (conj _ (conj _ Hal)))); lia.
Qed.

(** X8. In every network that [CalculateNetwork] returns, the address lies
    between the network id and the broadcast address, which bound an aligned
    block of [2^(32 - prefixLen)] addresses inside the 32-bit space, and the
    host range lies inside that block, first host not above last host. *)
Theorem CalculateNetwork_bounds ipStr maskStr n :
  CalculateNetwork ipStr maskStr = Ok n ->
  0 <= NetworkID n /\ NetworkID n <= Address n <= Broadcast n /\
  Broadcast n < 2 ^ 32 /\
  Broadcast n - NetworkID n + 1 = 2 ^ (32 - BitCount n) /\
  NetworkID n mod 2 ^ (32 - BitCount n) = 0 /\
  NetworkID n <= HostMin n /\ HostMin n <= HostMax n /\
  HostMax n <= Broadcast n.
Proof.
  intros H.
  destruct (CalculateNetwork_inside _ _ _ H) as (H0 & Hin & Htop & Hsize & Hal).
  destruct (CalculateNetwork_block _ _ _ H) as (Hp & _).
  destruct (CalculateNetwork_ok _ _ _ H)
    as (ip & p & _ & _ & _ & _ & _ & _ & Hbits & _ & _ & Hhost & _).
  rewrite <- Hbits in Hhost. clear Hbits ip p.
  set (k := 32 - BitCount n) in *.
  assert (Hpos : 0 < 2 ^ k) by (apply pow2_pos; lia).
  assert (Hhosts : NetworkID n <= HostMin n /\ HostMin n <= HostMax n /\
                   HostMax n <= Broadcast n).
  { destruct (Z.eqb_spec (BitCount n) 31) as [E31 | N31];
      [injection Hhost as -> -> _; lia |].
    destruct (Z.eqb_spec (BitCount n) 32) as [E32 | N32];
      [injection Hhost as -> -> _; lia |].
    injection Hhost as -> -> _.
    assert (4 <= 2 ^ k) by (apply (pow2_le 2 k); lia).
    unfold U32.add, U32.sub.
    rewrite (wrap_small (NetworkID n + 1)), (wrap_small (Broadcast n - 1)) by lia.
    lia. }
  refine (conj H0 (conj Hin (conj Htop (conj Hsize (conj Hal Hhosts))))).
Qed.

Lemma CalculateNetwork_bounds_witness :
  NetworkID net_192_168_1_1_24 <= Address net_192_168_1_1_24
  <= Broadcast net_192_168_1_1_24.
Proof.
  apply (CalculateNetwork_bounds "192.168.1.1" "24" net_192_168_1_1_24).
  reflexivity.
Defined.

Lemma floor_in_block N x k :
  0 <= k -> N mod 2 ^ k = 0 -> N <= x < N + 2 ^ k -> x - x mod 2 ^ k = N.
Proof.
  intros Hk HN Hx.
  assert (Hpos : 0 < 2 ^ k) by (apply pow2_pos; lia).
  apply Z.mod_divide in HN; [| lia]. destruct HN as (q & ->).
  assert (E : x / 2 ^ k = q).
  { symmetry. apply (Z.div_unique x (2 ^ k) q (x - q * 2 ^ k)); lia. }
  pose proof (Z.div_mod x (2 ^ k) ltac:(lia)) as D. rewrite E in D. lia.
Qed.

(** X9. Every address of the block of a network gives that network again:
    for [x] between the network id and the broadcast address,
    [CalculateNetwork] on the printed [x] and the same mask returns the same
    netmask, network id, broadcast address, host range and host count. *)
Theorem CalculateNetwork_same_block ipStr maskStr n x :
  CalculateNetwork ipStr maskStr = Ok n ->
  NetworkID n <= x <= Broadcast n ->
  exists n',
    CalculateNetwork (IPToString x) maskStr = Ok n' /\
    Address n' = x /\ Netmask n' = Netmask n /\ BitCount n' = BitCount n /\
    NetworkID n' = NetworkID n /\ Broadcast n' = Broadcast n /\
    HostMin n' = HostMin n /\ HostMax n' = HostMax n /\
    HostsCount n' = HostsCount n.
Proof.
  intros H Hx.
  destruct (CalculateNetwork_inside _ _ _ H)
    as (H0 & _ & Htop & Hsize & Hal).
  destruct (CalculateNetwork_ok _ _ _ H)
    as (ip & p & _ & Hm & _ & Hp & _ & Hmask & Hbits & Hid & Hbc & Hhost & _).
  assert (Hxr : 0 <= x < 2 ^ 32) by lia.
  assert (E : CalculateNetwork (IPToString x) maskStr
              = Ok (mkIPv4Network x (Netmask n) (BitCount n) (Broadcast n)
                      (NetworkID n) (HostMin n) (HostMax n) (HostsCount n)
                      (GetClass x))).
  { subst p. unfold CalculateNetwork.
    rewrite ParseIPv4_IPToString by exact Hxr. rewrite Hm.
    assert (Eid : Z.land x (prefix_mask (BitCount n)) = NetworkID n).
    { rewrite network_id_arith by assumption. apply floor_in_block; lia. }
    cbv zeta. rewrite Eid, <- Hmask, <- Hbc, <- Hhost. reflexivity. }
  eexists. split; [exact E |]. cbn. repeat split; reflexivity.
Qed.

Lemma CalculateNetwork_same_block_witness :
  exists n',
    CalculateNetwork (IPToString 3232236000) "24" = Ok n' /\
    Address n' = 3232236000 /\ Netmask n' = Netmask net_192_168_1_1_24 /\
    BitCount n' = BitCount net_192_168_1_1_24 /\
    NetworkID n' = NetworkID net_192_168_1_1_24 /\
    Broadcast n' = Broadcast net_192_168_1_1_24 /\
    HostMin n' = HostMin net_192_168_1_1_24 /\
    HostMax n' = HostMax net_192_168_1_1_24 /\
    HostsCount n' = HostsCount net_192_168_1_1_24.
Proof.
  apply (CalculateNetwork_same_block "192.168.1.1" "24" net_192_168_1_1_24
           3232236000); [reflexivity | cbn; lia].
Defined.

(** ** More on [Deaggregate] *)

(** X10. A range of one address, other than 255.255.255.255, gives one /32
    block, after one round of the loop. *)
Theorem Deaggregate_single fuel startStr endStr a :
  ParseIPv4 startStr = Ok a -> ParseIPv4 endStr = Ok a ->
  a <> 4294967295 -> (1 <= fuel)%nat ->
  Deaggregate fuel startStr endStr = Some (Ok [IPToString a +++ "/32"]).
Proof.
  intros Hs He Hne Hfuel.
  pose proof (ParseIPv4_range _ _ Hs) as Ra.
  rewrite (Deaggregate_unfold fuel _ _ a a Hs He (Z.le_refl a)).
  destruct fuel as [| f]; [lia |].
  cbn [Deaggregate_blocks]. rewrite Z.leb_refl.
  destruct (Deaggregate_prefix_spec a a Ra (Z.le_refl a)) as (Hp & (_ & Hfit) & _).
  set (p := Deaggregate_prefix 32 0 a a) in *.
  assert (Ep : p = 32).
  { destruct (Z.eq_dec p 32) as [| N]; [assumption |].
    pose proof (pow2_le 1 (32 - p) ltac:(lia)) as L.
    change (2 ^ 1) with 2 in L. lia. }
  rewrite Ep. change (U32.shl 1 (32 - 32)) with 1.
  unfold U32.add. rewrite wrap_small by lia.
  assert (Eend : forall bs, Deaggregate_blocks f (a + 1) a bs = Some bs).
  { intros bs. destruct f; cbn [Deaggregate_blocks];
      destruct (Z.leb_spec (a + 1) a); try lia; reflexivity. }
  rewrite Eend. reflexivity.
Qed.

Lemma Deaggregate_single_witness :
  Deaggregate 1 "10.0.0.1" "10.0.0.1" = Some (Ok [IPToString 167772161 +++ "/32"]).
Proof.
  apply (Deaggregate_single 1 "10.0.0.1" "10.0.0.1" 167772161);
    [reflexivity | reflexivity | lia | lia].
Defined.

Lemma CutByte_app s c t :
  strings.ContainsByte s c = false ->
  strings.CutByte (s +++ String c t) c = Some (s, t).
Proof.
  induction s as [| x s IH]; cbn [String.append strings.CutByte strings.ContainsByte].
  - intros _. rewrite Ascii.eqb_refl. reflexivity.
  - intros H. apply orb_false_iff in H. destruct H as [H1 H2].
    rewrite H1, (IH H2). reflexivity.
Qed.

Lemma fmt_d_octet_no_slash a :
  0 <= a < 256 -> strings.ContainsByte (fmt.d a) "/" = false.
Proof.
  intros H. apply negb_true_iff.
  check_below (fun a => negb (strings.ContainsByte (fmt.d a) "/")) 256.
Qed.

Lemma IPToString_no_slash x :
  0 <= x < 2 ^ 32 -> strings.ContainsByte (IPToString x) "/" = false.
Proof.
  intros Hx. unfold IPToString. rewrite !ContainsByte_app.
  rewrite !fmt_d_octet_no_slash by apply land_255_range. reflexivity.
Qed.

(** A block that is aligned and inside the 32-bit space, printed and given
    to [CalculateNetwork], is the network it names. *)
Lemma CalculateNetwork_of_block b p :
  0 <= p <= 32 -> 0 <= b -> b mod 2 ^ (32 - p) = 0 -> b + 2 ^ (32 - p) <= 2 ^ 32 ->
  exists n,
    CalculateNetwork (IPToString b) (fmt.d p) = Ok n /\
    Address n = b /\ BitCount n = p /\ NetworkID n = b /\
    Broadcast n = b + 2 ^ (32 - p) - 1.
Proof.
  intros Hp H0 Hal Htop.
  assert (Hpos : 0 < 2 ^ (32 - p)) by (apply pow2_pos; lia).
  destruct (CalculateNetwork_printed b p ltac:(lia) Hp) as (n & E & Hid).
  exists n. split; [exact E |].
  destruct (CalculateNetwork_ok _ _ _ E)
    as (ip & q & Hip & Hm & _ & _ & Ha & _ & Hbits & _).
  rewrite ParseIPv4_IPToString in Hip by lia.
  rewrite ParseNetmask_fmt_d in Hm by exact Hp.
  assert (Eip : ip = b) by congruence. assert (Eq : q = p) by congruence.
  rewrite Eip in Ha. rewrite Eq in Hbits.
  assert (Eid : NetworkID n = b).
  { rewrite Hid, network_id_arith, Hal by lia. lia. }
  destruct (CalculateNetwork_block _ _ _ E) as (_ & _ & _ & _ & Hbc).
  rewrite Hbits, Eid in Hbc. auto.
Qed.

(** X11. Every block that [Deaggregate] returns is the text of a network:
    cut at its slash and given to [CalculateNetwork], it is a network whose
    network id is the printed address, with the printed prefix length, and
    whose addresses all lie between [start] and [end]. *)
Theorem Deaggregate_blocks_are_networks fuel startStr endStr start end_ l text :
  ParseIPv4 startStr = Ok start -> ParseIPv4 endStr = Ok end_ ->
  Deaggregate fuel startStr endStr = Some (Ok l) -> In text l ->
  exists b p n,
    strings.CutByte text "/" = Some (IPToString b, fmt.d p) /\
    CalculateNetwork (IPToString b) (fmt.d p) = Ok n /\
    Address n = b /\ NetworkID n = b /\ BitCount n = p /\
    start <= NetworkID n /\ Broadcast n <= end_.
Proof.
  intros Hs He H Hin.
  pose proof (ParseIPv4_range _ _ Hs) as Rs.
  pose proof (ParseIPv4_range _ _ He) as Re.
  assert (Hle : start <= end_).
  { unfold Deaggregate in H. rewrite Hs, He in H.
    destruct (Z.ltb_spec end_ start); [discriminate | assumption]. }
  rewrite (Deaggregate_unfold _ _ _ _ _ Hs He Hle) in H.
  destruct (Deaggregate_blocks fuel start end_ []) as [bs |] eqn:E;
    [| discriminate].
  cbn [option_map] in H. injection H as <-.
  assert (Hne : end_ <> 4294967295).
  { intros ->. rewrite Deaggregate_blocks_top in E by exact Rs. discriminate. }
  destruct (Deaggregate_blocks_run end_ ltac:(lia)
              (Z.to_nat (end_ + 1 - start)) start []) as (bs' & E' & T);
    try lia.
  cbn [app] in E'.
  assert (bs = bs').
  { pose proof (Deaggregate_blocks_mono _ _ _ _ _ _ E
                  (Nat.le_max_l fuel (Z.to_nat (end_ + 1 - start)))) as M1.
    pose proof (Deaggregate_blocks_mono _ _ _ _ _ _ E'
                  (Nat.le_max_r fuel (Z.to_nat (end_ + 1 - start)))) as M2.
    congruence. }
  subst bs'.
  apply in_map_iff in Hin. destruct Hin as ((b & p) & <- & Hb).
  destruct (tiling_blocks _ _ _ T) as (_ & Hall).
  destruct (Hall _ Hb) as (Hlo & Hp & (Hal & Hfit) & _). cbn [fst snd] in *.
  assert (Hpos : 0 < 2 ^ (32 - p)) by (apply pow2_pos; lia).
  destruct (CalculateNetwork_of_block b p Hp ltac:(lia) Hal ltac:(lia))
    as (n & En & Ha & Hbits & Hid & Hbc).
  exists b, p, n. refine (conj _ (conj En (conj Ha (conj Hid (conj Hbits _))))).
  - unfold CIDR. cbn [fst snd]. apply CutByte_app.
    apply IPToString_no_slash. lia.
  - lia.
Qed.

Lemma Deaggregate_blocks_are_networks_witness :
  exists b p n,
    strings.CutByte "192.168.0.4/30" "/" = Some (IPToString b, fmt.d p) /\
    CalculateNetwork (IPToString b) (fmt.d p) = Ok n /\
    Address n = b /\ NetworkID n = b /\ BitCount n = p /\
    3232235521 <= NetworkID n /\ Broadcast n <= 3232235530.
Proof.
  apply (Deaggregate_blocks_are_networks 10 "192.168.0.1" "192.168.0.10"
           3232235521 3232235530
           ["192.168.0.1/32"; "192.168.0.2/31"; "192.168.0.4/30";
            "192.168.0.8/31"; "192.168.0.10/32"]);
    [reflexivity | reflexivity | vm_compute; reflexivity |].
  right. right. left. reflexivity.
Defined.

(** ** More on [SplitNetwork] *)

Lemma SplitNetwork_prefix_range todo : forall hostCount prefix,
  prefix - Z.of_nat todo <= SplitNetwork_prefix todo hostCount prefix <= prefix.
Proof.
  induction todo as [| t IH]; intros hostCount prefix;
    cbn [SplitNetwork_prefix]; [lia |].
  destruct (1 <? hostCount); [| lia].
  specialize (IH (U32.shr hostCount 1) (prefix - 1)). lia.
Qed.

Lemma SplitNetwork_sizes_length fuel sizes : forall hostCounts total hs t,
  SplitNetwork_sizes fuel sizes hostCounts total = Some (hs, t) ->
  List.length hs = (List.length hostCounts + List.length sizes)%nat.
Proof.
  induction sizes as [| size rest IH]; intros hostCounts total hs t H;
    cbn [SplitNetwork_sizes] in H.
  - injection H as <- _. cbn. lia.
  - destruct (SplitNetwork_hostsNeeded fuel size 4) as [h |]; [| discriminate].
    apply IH in H. rewrite length_app in H. cbn [List.length] in *. lia.
Qed.

Lemma SplitNetwork_alloc_total hostCounts : forall currentIP result,
  0 <= currentIP < 2 ^ 32 ->
  exists l,
    SplitNetwork_alloc hostCounts currentIP result = Ok l /\
    List.length l = (List.length result + List.length hostCounts)%nat.
Proof.
  induction hostCounts as [| h rest IH]; intros currentIP result Hc;
    cbn [SplitNetwork_alloc].
  - exists result. split; [reflexivity | cbn; lia].
  - pose proof (SplitNetwork_prefix_range 32 h 32) as Hp.
    change (Z.of_nat 32) with 32 in Hp.
    destruct (CalculateNetwork_printed currentIP (SplitNetwork_prefix 32 h 32)
                Hc ltac:(lia)) as (n & -> & _).
    destruct (IH (U32.add currentIP
                    (U32.shl 1 (32 - SplitNetwork_prefix 32 h 32)))
                (result ++ [CIDR (NetworkID n, SplitNetwork_prefix 32 h 32)])
                (wrap_range _)) as (l & -> & L).
    exists l. split; [reflexivity |].
    rewrite L, length_app. cbn [List.length]. lia.
Qed.

(** The allocation loop, started at the network id of a network, returns
    one subnet per block size. *)
Lemma SplitNetwork_alloc_network ipStr maskStr network hs :
  CalculateNetwork ipStr maskStr = Ok network ->
  exists l,
    SplitNetwork_alloc hs (NetworkID network) [] = Ok l /\
    List.length l = List.length hs.
Proof.
  intros En.
  destruct (CalculateNetwork_ok _ _ _ En)
    as (ip & p & _ & _ & Hip & Hp & _ & _ & _ & Hid & _).
  apply (SplitNetwork_alloc_total hs (NetworkID network) []).
  rewrite Hid, network_id_arith by assumption.
  assert (0 < 2 ^ (32 - p)) by (apply pow2_pos; lia).
  pose proof (Z.mod_pos_bound ip (2 ^ (32 - p)) ltac:(lia)).
  pose proof (Z.mod_le ip (2 ^ (32 - p)) ltac:(lia) ltac:(lia)). lia.
Qed.

Lemma SplitNetwork_length fuel networkStr maskStr sizes l :
  SplitNetwork fuel networkStr maskStr sizes = Some (Ok l) ->
  List.length l = List.length sizes.
Proof.
  unfold SplitNetwork.
  destruct (CalculateNetwork networkStr maskStr) as [network | e] eqn:En;
    [| discriminate].
  destruct (SplitNetwork_sizes fuel sizes [] 0) as [[hs total] |] eqn:Es;
    [| discriminate].
  apply SplitNetwork_sizes_length in Es. cbn [List.length Nat.add] in Es.
  destruct (_ <? total); [discriminate |].
  destruct (SplitNetwork_alloc_network _ _ _ hs En) as (l' & -> & L).
  intros H. injection H as <-. rewrite L, Es. reflexivity.
Qed.

(** X12. Whenever [SplitNetwork] returns a list, it holds one subnet per
    request, none for an empty list of requests; and whenever it returns an
    error, that error is the one of [CalculateNetwork] on its own arguments
    or the exceed-available-space error: the error return inside the
    allocation loop is never taken. *)
Theorem SplitNetwork_results fuel networkStr maskStr sizes r :
  SplitNetwork fuel networkStr maskStr sizes = Some r ->
  match r with
  | Ok l =>
      is_ok (CalculateNetwork networkStr maskStr) = true /\
      List.length l = List.length sizes
  | Err e =>
      CalculateNetwork networkStr maskStr = Err e \/
      exists required available,
        required > available /\
        e = "requested subnet sizes exceed available space ("
            +++ fmt.d required +++ " > " +++ fmt.d available +++ ")"
  end.
Proof.
  intros H. destruct r as [l | e].
  - split; [| eapply SplitNetwork_length; exact H].
    unfold SplitNetwork in H.
    destruct (CalculateNetwork networkStr maskStr); [reflexivity | discriminate].
  - unfold SplitNetwork in H.
    destruct (CalculateNetwork networkStr maskStr) as [network | e'] eqn:En.
    + destruct (SplitNetwork_sizes fuel sizes [] 0) as [[hs total] |];
        [| discriminate].
      destruct (Z.ltb_spec
                  (U32.shl 1 (U32.sub 32 (U32.wrap (BitCount network)))) total)
        as [Hlt | Hge].
      * injection H as <-. right.
        eexists _, _. split; [| reflexivity]. lia.
      * destruct (SplitNetwork_alloc_network _ _ _ hs En) as (l & E & _).
        rewrite E in H. discriminate.
    + injection H as <-. left. reflexivity.
Qed.

Lemma SplitNetwork_results_witness :
  is_ok (CalculateNetwork "192.168.0.0" "24") = true /\
  List.length ["192.168.0.0/25"; "192.168.0.128/26"; "192.168.0.192/27"]
  = List.length [100; 50; 25].
Proof.
  apply (SplitNetwork_results 5 "192.168.0.0" "24" [100; 50; 25]
           (Ok ["192.168.0.0/25"; "192.168.0.128/26"; "192.168.0.192/27"])).
  vm_compute. reflexivity.
Defined.

Lemma block_size_for_mono n n' h h' :
  n' <= n -> block_size_for n h -> block_size_for n' h' -> h' <= h.
Proof.
  intros Hle (k & Hk & -> & Hn & _) (k' & Hk' & -> & _ & Hmin').
  destruct (Z.le_gt_cases k' k) as [| Hgt]; [apply pow2_le; lia |].
  specialize (Hmin' k ltac:(lia)). lia.
Qed.

Lemma block_size_for_unique n h h' :
  block_size_for n h -> block_size_for n h' -> h = h'.
Proof.
  intros B B'.
  pose proof (block_size_for_mono n n h h' (Z.le_refl n) B B').
  pose proof (block_size_for_mono n n h' h (Z.le_refl n) B' B).
  lia.
Qed.

Lemma block_sizes_unique sizes : forall hs hs',
  Forall2 block_size_for sizes hs -> Forall2 block_size_for sizes hs' ->
  hs = hs'.
Proof.
  induction sizes as [| n r IH]; intros hs hs' F F';
    inversion F; inversion F'; subst; [reflexivity |].
  f_equal; [eapply block_size_for_unique; eassumption | apply IH; assumption].
Qed.

Lemma block_sizes_sorted sizes hs :
  Forall2 block_size_for sizes hs -> Sorted Z.ge sizes -> Sorted Z.ge hs.
Proof.
  induction 1 as [| n h r hr B F IH]; intros S; [constructor |].
  inversion S as [| ? ? Sr Hd]; subst. constructor; [apply IH; exact Sr |].
  destruct F as [| n' h' r' hr' B' F]; constructor.
  inversion Hd; subst.
  apply Z.le_ge. eapply block_size_for_mono; [| exact B | exact B']. lia.
Qed.

Lemma block_sizes_bound sizes hs :
  Forall2 block_size_for sizes hs ->
  0 <= total_size hs /\ Forall (fun size => size <= total_size hs - 2) sizes.
Proof.
  induction 1 as [| n h r hr (k & Hk & -> & Hn & _) F (IH0 & IH)].
  - split; [unfold total_size; cbn; lia | constructor].
  - assert (0 < 2 ^ k) by (apply pow2_pos; lia).
    unfold total_size in *. cbn [fold_right]. split; [lia |].
    constructor; [lia |].
    eapply Forall_impl; [| exact IH]. intros a Ha. cbv beta in Ha. lia.
Qed.

Lemma laid_out_inside bs : forall lo hi,
  laid_out lo bs hi ->
  lo <= hi /\
  forall b, In b bs -> lo <= fst b /\ fst b + 2 ^ (32 - snd b) <= hi.
Proof.
  induction bs as [| b r IH]; intros lo hi L; cbn [laid_out] in L.
  - split; [lia |]. intros b [].
  - destruct L as (Hb & (Hp & _) & L).
    destruct (IH _ _ L) as (Hle & Hr).
    assert (Hpos : 0 < 2 ^ (32 - snd b)) by (apply pow2_pos; lia).
    split; [lia |].
    intros c [<- | Hin]; [lia |].
    destruct (Hr c Hin). lia.
Qed.

Lemma laid_out_ordered bs : forall lo hi i j b c,
  laid_out lo bs hi -> (i < j)%nat ->
  nth_error bs i = Some b -> nth_error bs j = Some c ->
  fst b + 2 ^ (32 - snd b) <= fst c.
Proof.
  induction bs as [| a r IH]; intros lo hi i j b c L Hij Hi Hj.
  - destruct i; discriminate.
  - cbn [laid_out] in L. destruct L as (Hb & _ & L).
    destruct j as [| j]; [lia |]. cbn [nth_error] in Hj.
    destruct i as [| i]; cbn [nth_error] in Hi.
    + injection Hi as <-.
      destruct (laid_out_inside _ _ _ L) as (_ & Hr).
      apply nth_error_In in Hj. destruct (Hr c Hj). lia.
    + eapply IH; [exact L | | exact Hi | exact Hj]. lia.
Qed.

Lemma laid_out_disjoint lo bs hi : laid_out lo bs hi -> pairwise_disjoint bs.
Proof.
  intros L i j b c Hij Hi Hj x [Hb Hc]. unfold in_block in Hb, Hc.
  destruct (Nat.lt_trichotomy i j) as [Lt | [E | Lt]]; [| contradiction |].
  - pose proof (laid_out_ordered _ _ _ _ _ _ _ L Lt Hi Hj). lia.
  - pose proof (laid_out_ordered _ _ _ _ _ _ _ L Lt Hj Hi). lia.
Qed.

Lemma laid_out_cover bs : forall lo hi,
  laid_out lo bs hi -> covers_exactly bs lo (hi - 1).
Proof.
  induction bs as [| b r IH]; intros lo hi L x; cbn [laid_out] in L.
  - split; [lia |]. intros (c & [] & _).
  - destruct L as (Hb & (Hp & _) & L).
    assert (Hpos : 0 < 2 ^ (32 - snd b)) by (apply pow2_pos; lia).
    destruct (laid_out_inside _ _ _ L) as (Hle & _).
    specialize (IH _ _ L x). split.
    + intros Hx. destruct (Z.lt_ge_cases x (lo + 2 ^ (32 - snd b))) as [Hl | Hg].
      * exists b. split; [left; reflexivity |]. unfold in_block. lia.
      * destruct (proj1 IH ltac:(lia)) as (c & Hin & Hc).
        exists c. split; [right; exact Hin | exact Hc].
    + intros (c & [<- | Hin] & Hc).
      * unfold in_block in Hc. lia.
      * assert (lo + 2 ^ (32 - snd b) <= x <= hi - 1)
          by (apply IH; exists c; auto).
        lia.
Qed.

(** With block sizes that do not increase, the cursor is always aligned to
    the next block, so the mask changes nothing and the subnets follow each
    other. *)
Lemma allocation_laid_out hs :
  Forall (fun h => exists k, 2 <= k < 32 /\ h = 2 ^ k) hs ->
  Sorted Z.ge hs ->
  forall cursor,
    0 <= cursor -> cursor + total_size hs <= 2 ^ 32 ->
    match hs with h :: _ => cursor mod h = 0 | [] => True end ->
    laid_out cursor (allocation hs cursor) (cursor + total_size hs).
Proof.
  induction 1 as [| h rest (k & Hk & ->) Hrest IH]; intros S cursor H0 Htop Hal.
  - cbn [allocation laid_out]. unfold total_size. cbn. lia.
  - inversion S as [| ? ? Sr Hd]; subst.
    assert (Hrest0 : 0 <= total_size rest).
    { apply total_size_nonneg. eapply Forall_impl; [| exact Hrest].
      intros a (j & Hj & ->). apply Z.lt_le_incl, pow2_pos. lia. }
    assert (Hpk : 4 <= 2 ^ k) by (apply (pow2_le 2 k); lia).
    assert (Et : total_size (2 ^ k :: rest) = 2 ^ k + total_size rest)
      by reflexivity.
    rewrite Et in *.
    cbn [allocation laid_out fst snd]. rewrite Z.log2_pow2 by lia.
    rewrite network_id_arith by lia.
    replace (32 - (32 - k)) with k by lia. rewrite Hal, Z.sub_0_r.
    refine (conj eq_refl (conj _ _)).
    + unfold aligned_block. cbn [fst snd].
      replace (32 - (32 - k)) with k by lia.
      refine (conj _ (conj H0 Hal)). lia.
    + destruct rest as [| h' rest'].
      * cbn [allocation laid_out]. unfold total_size. cbn. lia.
      * inversion Hrest as [| ? ? (j & Hj & E) Hr]; subst.
        assert (Et' : total_size (2 ^ j :: rest') = 2 ^ j + total_size rest')
          by reflexivity.
        assert (0 <= total_size rest').
        { apply total_size_nonneg. eapply Forall_impl; [| exact Hr].
          intros a (i & Hi & ->). apply Z.lt_le_incl, pow2_pos. lia. }
        assert (4 <= 2 ^ j) by (apply (pow2_le 2 j); lia).
        rewrite wrap_small by lia.
        replace (cursor + (2 ^ k + total_size (2 ^ j :: rest')))
          with (cursor + 2 ^ k + total_size (2 ^ j :: rest')) by lia.
        apply IH; [exact Sr | lia | lia |].
        inversion Hd as [| ? ? Hge]; subst.
        assert (Hjk : j <= k).
        { destruct (Z.le_gt_cases j k) as [| Hgt]; [assumption |].
          pose proof (pow2_lt k j ltac:(lia)). lia. }
        apply (multiple_of_smaller _ j k); [lia |].
        replace (cursor + 2 ^ k) with (cursor + 1 * 2 ^ k) by lia.
        rewrite Z_mod_plus_full. exact Hal.
Qed.

(** X13. Requests in non-increasing order are served without overlap: on a
    network of prefix length at least 1, when the requests are non-negative,
    none larger than the one before it, and their block sizes sum to at
    most the size of the network, [SplitNetwork] returns subnets of those
    block sizes that are aligned and follow each other from the network id
    with no gap, so that no two of them share an address and together they
    are exactly the first addresses of the network. *)
Theorem SplitNetwork_descending fuel networkStr maskStr network sizes hostCounts :
  CalculateNetwork networkStr maskStr = Ok network ->
  1 <= BitCount network ->
  Forall (fun size => 0 <= size) sizes ->
  Sorted Z.ge sizes ->
  Forall2 block_size_for sizes hostCounts ->
  total_size hostCounts <= 2 ^ (32 - BitCount network) ->
  (29 <= fuel)%nat ->
  exists blocks,
    SplitNetwork fuel networkStr maskStr sizes = Some (Ok (map CIDR blocks)) /\
    Forall2 (fun h b => h = 2 ^ (32 - snd b)) hostCounts blocks /\
    laid_out (NetworkID network) blocks
      (NetworkID network + total_size hostCounts) /\
    pairwise_disjoint blocks /\
    covers_exactly blocks (NetworkID network)
      (NetworkID network + total_size hostCounts - 1).
Proof.
  intros Hnet Hp1 Hnonneg Hsorted F2 Hfits Hfuel.
  destruct (CalculateNetwork_ok _ _ _ Hnet)
    as (ip & p & _ & _ & Hip & Hp & _ & _ & Hbits & Hid & _).
  rewrite Hbits in *.
  assert (Hcap31 : 2 ^ (32 - p) <= 2 ^ 31) by (apply pow2_le; lia).
  destruct (block_sizes_bound _ _ F2) as (Hnon & Hup).
  assert (Hsizes : Forall (fun size => 0 <= size <= 2 ^ 31 - 2) sizes).
  { apply Forall_forall. intros a Ha.
    rewrite Forall_forall in Hnonneg, Hup.
    specialize (Hnonneg a Ha). specialize (Hup a Ha). cbv beta in *. lia. }
  destruct (SplitNetwork_sizes_ok fuel sizes Hfuel Hsizes [] 0 ltac:(lia))
    as (hs & Esz & F2' & Fr).
  assert (hs = hostCounts) by (eapply block_sizes_unique; eassumption).
  subst hs. clear F2'.
  cbn [app] in Esz. rewrite Z.add_0_l in Esz.
  rewrite wrap_small in Esz by lia.
  assert (Hcap : U32.shl 1 (U32.sub 32 (U32.wrap p)) = 2 ^ (32 - p)).
  { rewrite (wrap_small p) by lia. unfold U32.sub.
    rewrite wrap_small by lia. apply shl_1. lia. }
  assert (Hpow : Forall (fun h => exists k, 2 <= k < 32 /\ h = 2 ^ k) hostCounts).
  { clear - F2 Fr. induction F2 as [| n h l l' B F IH]; [constructor |].
    inversion Fr; subst. constructor; [| apply IH; assumption].
    eapply block_size_for_pow; [exact B | lia]. }
  assert (Hpow' : Forall (fun h => exists k, 0 <= k < 32 /\ h = 2 ^ k) hostCounts).
  { eapply Forall_impl; [| exact Hpow]. intros a (k & Hk & ->).
    exists k. split; [lia | reflexivity]. }
  assert (Hidr : NetworkID network = ip - ip mod 2 ^ (32 - p)).
  { rewrite Hid. apply network_id_arith; assumption. }
  assert (Hpos : 0 < 2 ^ (32 - p)) by (apply pow2_pos; lia).
  assert (Hmod : 0 <= ip mod 2 ^ (32 - p) < 2 ^ (32 - p))
    by (apply Z.mod_pos_bound; lia).
  assert (Hle : ip mod 2 ^ (32 - p) <= ip) by (apply Z.mod_le; lia).
  assert (Hal : NetworkID network mod 2 ^ (32 - p) = 0).
  { rewrite Hidr. apply network_id_aligned. lia. }
  assert (Htop : NetworkID network + 2 ^ (32 - p) <= 2 ^ 32).
  { pose proof Hal as Hd. apply Z.mod_divide in Hd; [| lia].
    destruct Hd as (q & Eq).
    assert (Hq : q < 2 ^ p).
    { apply (Z.mul_lt_mono_pos_r (2 ^ (32 - p))); [lia |].
      rewrite <- Eq, <- Z.pow_add_r by lia.
      replace (p + (32 - p)) with 32 by lia. lia. }
    rewrite (pow2_split (32 - p) 32) by lia.
    replace (32 - (32 - p)) with p by lia. nia. }
  assert (L : laid_out (NetworkID network)
                (allocation hostCounts (NetworkID network))
                (NetworkID network + total_size hostCounts)).
  { apply allocation_laid_out; [exact Hpow | | lia | lia |].
    - eapply block_sizes_sorted; eassumption.
    - destruct Hpow as [| h rest (k & Hk & ->) Hrest]; [exact I |].
      assert (Hkp : k <= 32 - p).
      { destruct (Z.le_gt_cases k (32 - p)) as [| Hgt]; [assumption |].
        pose proof (pow2_lt (32 - p) k ltac:(lia)).
        assert (0 <= total_size rest).
        { apply total_size_nonneg. eapply Forall_impl; [| exact Hrest].
          intros a (j & Hj & ->). apply Z.lt_le_incl, pow2_pos. lia. }
        unfold total_size in *. cbn [fold_right] in Hfits. lia. }
      apply (multiple_of_smaller _ k (32 - p)); [lia | exact Hal]. }
  exists (allocation hostCounts (NetworkID network)).
  refine (conj _ (conj _ (conj L (conj _ _)))).
  - rewrite SplitNetwork_eq. unfold SplitNetwork_blocks.
    rewrite Hnet, Esz, Hbits, Hcap.
    destruct (Z.ltb_spec (2 ^ (32 - p)) (total_size hostCounts)); [lia |].
    rewrite SplitNetwork_alloc_ok by (assumption || lia).
    reflexivity.
  - apply allocation_sizes. exact Hpow'.
  - eapply laid_out_disjoint. exact L.
  - apply laid_out_cover. exact L.
Qed.

Lemma SplitNetwork_descending_witness :
  exists blocks,
    SplitNetwork 30 "192.168.0.77" "24" [100; 50; 25]
    = Some (Ok (map CIDR blocks)) /\
    pairwise_disjoint blocks.
Proof.
  destruct (SplitNetwork_descending 30 "192.168.0.77" "24"
              (mkIPv4Network 3232235597 4294967040 24 3232235775 3232235520
                 3232235521 3232235774 254 "C")
              [100; 50; 25] [128; 64; 32])
    as (blocks & E & _ & _ & D & _).
  - reflexivity.
  - simpl. lia.
  - repeat constructor; lia.
  - repeat constructor; lia.
  - repeat constructor.
    + exists 7. repeat split; try lia. intros j Hj.
      assert (Hc : j = 2 \/ j = 3 \/ j = 4 \/ j = 5 \/ j = 6) by lia.
      destruct Hc as [-> | [-> | [-> | [-> | ->]]]]; vm_compute; reflexivity.
    + exists 6. repeat split; try lia. intros j Hj.
      assert (Hc : j = 2 \/ j = 3 \/ j = 4 \/ j = 5) by lia.
      destruct Hc as [-> | [-> | [-> | ->]]]; vm_compute; reflexivity.
    + exists 5. repeat split; try lia. intros j Hj.
      assert (Hc : j = 2 \/ j = 3 \/ j = 4) by lia.
      destruct Hc as [-> | [-> | ->]]; vm_compute; reflexivity.
  - simpl. vm_compute. discriminate.
  - lia.
  - exists blocks. split; assumption.
Defined.

(** * IPv6 *)

(** ** [ParseIPv6] *)

Lemma To16_16 ip : List.length ip = 16%nat -> net.To16 ip = Some ip.
Proof. intros H. unfold net.To16. rewrite H. reflexivity. Qed.

Lemma ParseIPv6_bytes s :
  ParseIPv6 s = match net.ParseIP s with
                | None => Err ("invalid IP address: " +++ s)
                | Some ip => Ok (big.SetBytes ip)
                end.
Proof.
  unfold ParseIPv6. destruct (net.ParseIP s) as [ip |] eqn:E; [| reflexivity].
  rewrite (To16_16 ip (ParseIP_length _ _ E)). reflexivity.
Qed.

Lemma uint32_zero b : net.uint32 b = 0 -> b = x00.
Proof. intros H. rewrite <- (uint8_uint32 b), H. reflexivity. Qed.

Lemma uint32_255 b : net.uint32 b = 255 -> b = xff.
Proof. intros H. rewrite <- (uint8_uint32 b), H. reflexivity. Qed.

Lemma SetBytes_16 ip :
  List.length ip = 16%nat ->
  0 <= big.SetBytes ip < 2 ^ 128 /\
  forall a, 0 <= a < 2 ^ 32 -> big.SetBytes ip = mapped a ->
    exists g0 g1 g2 g3,
      ip = v4mapped g0 g1 g2 g3 /\
      a = octets (net.uint32 g0) (net.uint32 g1) (net.uint32 g2) (net.uint32 g3).
Proof.
  intros Hlen.
  destruct ip as
    [| b0 [| b1 [| b2 [| b3 [| b4 [| b5 [| b6 [| b7 [| b8 [| b9 [| b10 [| b11 [| b12 [| b13 [| b14 [| b15 [| ? ?]]]]]]]]]]]]]]]]];
    try discriminate Hlen.
  clear Hlen. unfold big.SetBytes. cbn [fold_left].
  pose proof (uint32_range b0) as R0. remember (net.uint32 b0) as u0 eqn:E0.
  pose proof (uint32_range b1) as R1. remember (net.uint32 b1) as u1 eqn:E1.
  pose proof (uint32_range b2) as R2. remember (net.uint32 b2) as u2 eqn:E2.
  pose proof (uint32_range b3) as R3. remember (net.uint32 b3) as u3 eqn:E3.
  pose proof (uint32_range b4) as R4. remember (net.uint32 b4) as u4 eqn:E4.
  pose proof (uint32_range b5) as R5. remember (net.uint32 b5) as u5 eqn:E5.
  pose proof (uint32_range b6) as R6. remember (net.uint32 b6) as u6 eqn:E6.
  pose proof (uint32_range b7) as R7. remember (net.uint32 b7) as u7 eqn:E7.
  pose proof (uint32_range b8) as R8. remember (net.uint32 b8) as u8 eqn:E8.
  pose proof (uint32_range b9) as R9. remember (net.uint32 b9) as u9 eqn:E9.
  pose proof (uint32_range b10) as R10. remember (net.uint32 b10) as u10 eqn:E10.
  pose proof (uint32_range b11) as R11. remember (net.uint32 b11) as u11 eqn:E11.
  pose proof (uint32_range b12) as R12. remember (net.uint32 b12) as u12 eqn:E12.
  pose proof (uint32_range b13) as R13. remember (net.uint32 b13) as u13 eqn:E13.
  pose proof (uint32_range b14) as R14. remember (net.uint32 b14) as u14 eqn:E14.
  pose proof (uint32_range b15) as R15. remember (net.uint32 b15) as u15 eqn:E15.
  change (2 ^ 128) with 340282366920938463463374607431768211456.
  split; [lia |].
  intros a Ha. unfold mapped, octets.
  change (2 ^ 32) with 4294967296 in *. change (2 ^ 24) with 16777216.
  change (2 ^ 16) with 65536. change (2 ^ 8) with 256.
  intros Hv.
  assert (Hz : u0 = 0 /\ u1 = 0 /\ u2 = 0 /\ u3 = 0 /\ u4 = 0 /\ u5 = 0 /\
               u6 = 0 /\ u7 = 0 /\ u8 = 0 /\ u9 = 0 /\ u10 = 255 /\ u11 = 255 /\
               a = u12 * 16777216 + u13 * 65536 + u14 * 256 + u15) by lia.
  destruct Hz as (Z0 & Z1 & Z2 & Z3 & Z4 & Z5 & Z6 & Z7 & Z8 & Z9 & Z10 & Z11
                  & Za).
  rewrite Z0 in E0. rewrite Z1 in E1. rewrite Z2 in E2. rewrite Z3 in E3.
  rewrite Z4 in E4. rewrite Z5 in E5. rewrite Z6 in E6. rewrite Z7 in E7.
  rewrite Z8 in E8. rewrite Z9 in E9. rewrite Z10 in E10. rewrite Z11 in E11.
  symmetry in E0, E1, E2, E3, E4, E5, E6, E7, E8, E9, E10, E11.
  apply uint32_zero in E0, E1, E2, E3, E4, E5, E6, E7, E8, E9.
  apply uint32_255 in E10, E11.
  exists b12, b13, b14, b15. subst. split; reflexivity.
Qed.

(** X14. [ParseIPv6] returns a number below [2^128]; its not-an-IPv6-address
    error is never returned, the only error being the invalid-address one,
    returned exactly when [net.ParseIP] fails, on texts that [ParseIPv4]
    rejects with the same message; and it
    accepts every text that [ParseIPv4] accepts, as the IPv4-mapped address
    [::ffff:a.b.c.d]: [ParseIPv4] accepts a text exactly when [ParseIPv6]
    reads it as an address of that form. *)
Theorem ParseIPv6_results s :
  match ParseIPv6 s with
  | Ok v =>
      net.ParseIP s <> None /\
      0 <= v < 2 ^ 128 /\
      forall a, ParseIPv4 s = Ok a <-> 0 <= a < 2 ^ 32 /\ v = mapped a
  | Err e =>
      net.ParseIP s = None /\
      e = "invalid IP address: " +++ s /\ ParseIPv4 s = Err e
  end.
Proof.
  rewrite ParseIPv6_bytes.
  destruct (net.ParseIP s) as [ip |] eqn:E.
  - destruct (SetBytes_16 ip (ParseIP_length _ _ E)) as (Hr & Hm).
    split; [discriminate |].
    split; [exact Hr |]. intros a. split.
    + intros Ha. split; [eapply ParseIPv4_range; exact Ha |].
      apply ParseIPv4_Ok_iff in Ha.
      destruct Ha as (g0 & g1 & g2 & g3 & Hip & ->).
      assert (ip = v4mapped g0 g1 g2 g3) by congruence. subst ip.
      unfold big.SetBytes, v4mapped, mapped, octets.
      cbn [repeat app fold_left].
      change (net.uint32 x00) with 0. change (net.uint32 xff) with 255.
      change (2 ^ 32) with 4294967296. change (2 ^ 24) with 16777216.
      change (2 ^ 16) with 65536. change (2 ^ 8) with 256. lia.
    + intros (Ha & Hv).
      destruct (Hm a Ha Hv) as (g0 & g1 & g2 & g3 & -> & ->).
      apply ParseIPv4_Ok_iff. exists g0, g1, g2, g3. split; [exact E | reflexivity].
  - split; [reflexivity |].
    split; [reflexivity |]. unfold ParseIPv4. rewrite E. reflexivity.
Qed.

(** ** [ParseIPv6Prefix] *)

Lemma Atoi_fmt_d n : 0 <= n <= 128 -> strconv.Atoi (fmt.d n) = Some n.
Proof.
  intros H.
  assert (E : match strconv.Atoi (fmt.d n) with
              | Some m => m =? n
              | None => false
              end = true).
  { assert (Hn : 0 <= n < 129) by lia. clear H. revert n Hn.
    intros n H.
    check_below (fun n => match strconv.Atoi (fmt.d n) with
                          | Some m => m =? n
                          | None => false
                          end) 129. }
  destruct (strconv.Atoi (fmt.d n)) as [m |]; [| discriminate].
  apply Z.eqb_eq in E. congruence.
Qed.

Lemma fmt_d_no_slash_prefix n :
  0 <= n <= 128 -> strings.TrimPrefix (fmt.d n) "/" = fmt.d n.
Proof.
  intros H. apply String.eqb_eq.
  assert (Hn : 0 <= n < 129) by lia. clear H. revert n Hn. intros n H.
  check_below (fun n => String.eqb (strings.TrimPrefix (fmt.d n) "/") (fmt.d n))
    129.
Qed.

Lemma ParseIPv6Prefix_fmt_d n :
  0 <= n <= 128 -> ParseIPv6Prefix (fmt.d n) = Ok n.
Proof.
  intros H. unfold ParseIPv6Prefix.
  rewrite fmt_d_no_slash_prefix, Atoi_fmt_d by exact H.
  destruct (Z.ltb_spec n 0); [lia |]. destruct (Z.ltb_spec 128 n); [lia |].
  reflexivity.
Qed.

(** X15. A prefix length that [ParseIPv6Prefix] accepts is between 0 and
    128, and is accepted again when printed in decimal, with or without a
    leading slash.  On the same text [ParseNetmask] returns the same
    prefix length when it is at most 32, and the invalid-bit-count error
    when it is larger. *)
Theorem ParseIPv6Prefix_accepts prefixStr n :
  ParseIPv6Prefix prefixStr = Ok n ->
  0 <= n <= 128 /\
  ParseIPv6Prefix (fmt.d n) = Ok n /\
  ParseIPv6Prefix ("/" +++ fmt.d n) = Ok n /\
  (n <= 32 -> ParseNetmask prefixStr = Ok (prefix_mask n, n)) /\
  (32 < n ->
   ParseNetmask prefixStr
   = Err ("invalid bit count: " +++ fmt.d n +++ " (must be between 0 and 32)")).
Proof.
  unfold ParseIPv6Prefix at 1. intros H.
  destruct (strconv.Atoi (strings.TrimPrefix prefixStr "/")) as [m |] eqn:E;
    [| discriminate].
  destruct (Z.ltb_spec m 0); [discriminate |].
  destruct (Z.ltb_spec 128 m); [discriminate |].
  injection H as <-.
  refine (conj _ (conj _ (conj _ (conj _ _)))).
  - lia.
  - apply ParseIPv6Prefix_fmt_d. lia.
  - unfold ParseIPv6Prefix. cbn [String.append]. rewrite TrimPrefix_slash.
    rewrite Atoi_fmt_d by lia.
    destruct (Z.ltb_spec m 0); [lia |]. destruct (Z.ltb_spec 128 m); [lia |].
    reflexivity.
  - intros Hm. unfold ParseNetmask. rewrite E.
    destruct (Z.ltb_spec m 0); [lia |]. destruct (Z.ltb_spec 32 m); [lia |].
    cbn [orb]. rewrite ParseNetmask_fill_eq by lia. reflexivity.
  - intros Hm. unfold ParseNetmask. rewrite E.
    destruct (Z.ltb_spec m 0); [lia |]. destruct (Z.ltb_spec 32 m); [| lia].
    reflexivity.
Qed.

Lemma ParseIPv6Prefix_accepts_witness :
  0 <= 64 <= 128 /\
  ParseIPv6Prefix (fmt.d 64) = Ok 64 /\
  ParseIPv6Prefix ("/" +++ fmt.d 64) = Ok 64 /\
  (64 <= 32 -> ParseNetmask "/64" = Ok (prefix_mask 64, 64)) /\
  (32 < 64 ->
   ParseNetmask "/64"
   = Err ("invalid bit count: " +++ fmt.d 64 +++ " (must be between 0 and 32)")).
Proof. apply (ParseIPv6Prefix_accepts "/64" 64). reflexivity. Defined.

(** ** [IPv6ToNetworkID] and [CalculateIPv6Network] *)

Lemma mask6_shift s :
  0 <= s <= 128 -> Z.shiftl (Z.shiftr (2 ^ 128 - 1) s) s = 2 ^ 128 - 2 ^ s.
Proof.
  intros Hs. rewrite Z.shiftl_mul_pow2, Z.shiftr_div_pow2 by lia.
  assert (Hpos : 0 < 2 ^ s) by (apply pow2_pos; lia).
  assert (Hsplit : 2 ^ 128 = 2 ^ s * 2 ^ (128 - s)) by (apply pow2_split; lia).
  assert (Hq : (2 ^ 128 - 1) / 2 ^ s = 2 ^ (128 - s) - 1).
  { symmetry. apply (Z.div_unique_pos _ _ _ (2 ^ s - 1)); [lia |].
    rewrite Hsplit. ring. }
  rewrite Hq, Hsplit. ring.
Qed.

Lemma land_mask6 x p :
  0 <= x < 2 ^ 128 -> 0 <= p <= 128 ->
  Z.land x (prefix_mask6 p) = x - x mod 2 ^ (128 - p).
Proof.
  intros Hx Hp. unfold prefix_mask6.
  set (k := 128 - p). assert (Hk : 0 <= k <= 128) by (subst k; lia).
  clearbody k.
  assert (Hm : 2 ^ 128 - 2 ^ k = Z.shiftl (Z.ones (128 - k)) k).
  { rewrite Z.shiftl_mul_pow2, Z.ones_equiv by lia.
    rewrite <- Z.sub_1_r, Z.mul_sub_distr_r, <- Z.pow_add_r by lia.
    replace (128 - k + k) with 128 by lia. lia. }
  assert (Hr : x - x mod 2 ^ k = Z.shiftl (Z.shiftr x k) k).
  { rewrite Z.shiftl_mul_pow2, Z.shiftr_div_pow2 by lia.
    pose proof (Z.div_mod x (2 ^ k)) as D.
    pose proof (pow2_pos k). lia. }
  rewrite Hm, Hr. apply Z.bits_inj'. intros i Hi.
  rewrite Z.land_spec.
  destruct (Z.ltb_spec i k) as [Hlt | Hge].
  - rewrite !Z.shiftl_spec_low by lia. apply andb_false_r.
  - rewrite !Z.shiftl_spec by lia. rewrite Z.shiftr_spec by lia.
    replace (i - k + k) with i by lia.
    destruct (Z.ltb_spec i 128) as [Hlt128 | Hge128].
    + rewrite Z.ones_spec_low by lia. apply andb_true_r.
    + rewrite (testbit_high x 128 i) by lia. reflexivity.
Qed.

(** The mask that both [IPv6ToNetworkID] and [CalculateIPv6Network] build. *)
Lemma mask6_built p :
  0 <= p <= 128 ->
  (if p <? 128 then
     if 128 - p <? 0
     then @Err Z ("invalid shift bits calculation: " +++ fmt.d (128 - p))
     else Ok (big.Lsh (big.Rsh (big.Sub (big.Lsh 1 128) 1) (128 - p)) (128 - p))
   else Ok (big.Sub (big.Lsh 1 128) 1))
  = Ok (prefix_mask6 p).
Proof.
  intros Hp. unfold big.Lsh, big.Rsh, big.Sub, prefix_mask6.
  change (Z.shiftl 1 128) with (2 ^ 128).
  destruct (Z.ltb_spec p 128) as [Hlt | Hge].
  - destruct (Z.ltb_spec (128 - p) 0); [lia |].
    rewrite mask6_shift by lia. reflexivity.
  - assert (p = 128) by lia. subst p. reflexivity.
Qed.

Lemma IPv6ToNetworkID_ok ip p :
  0 <= p <= 128 -> IPv6ToNetworkID ip p = Ok (Z.land ip (prefix_mask6 p)).
Proof.
  intros Hp. unfold IPv6ToNetworkID. cbv zeta.
  destruct (Z.ltb_spec p 0); [lia |]. destruct (Z.ltb_spec 128 p); [lia |].
  rewrite mask6_built by exact Hp. reflexivity.
Qed.

Lemma floor6 x p :
  0 <= x < 2 ^ 128 -> 0 <= p <= 128 ->
  let id := x - x mod 2 ^ (128 - p) in
  0 <= id <= x /\ x - id < 2 ^ (128 - p) /\ id mod 2 ^ (128 - p) = 0.
Proof.
  intros Hx Hp id. subst id.
  assert (Hpos : 0 < 2 ^ (128 - p)) by (apply pow2_pos; lia).
  pose proof (Z.mod_pos_bound x (2 ^ (128 - p)) Hpos).
  pose proof (Z.mod_le x (2 ^ (128 - p)) ltac:(lia) Hpos).
  refine (conj _ (conj _ _)); [lia | lia |].
  apply network_id_aligned. lia.
Qed.

(** X16. [IPv6ToNetworkID] rounds an address down to a multiple of
    [2^(128 - prefixLen)]: for a prefix length from 0 to 128 the result is
    the largest such multiple not above the address, and is its own network
    id; for any other prefix length the negative or the exceed-128 error is
    returned, and the shift-bits error never is. *)
Theorem IPv6ToNetworkID_floor ip p :
  0 <= ip < 2 ^ 128 ->
  match IPv6ToNetworkID ip p with
  | Ok id =>
      0 <= p <= 128 /\
      id = ip - ip mod 2 ^ (128 - p) /\
      0 <= id <= ip /\ ip - id < 2 ^ (128 - p) /\
      id mod 2 ^ (128 - p) = 0 /\
      IPv6ToNetworkID id p = Ok id
  | Err e =>
      (p < 0 /\ e = "prefix length cannot be negative: " +++ fmt.d p) \/
      (128 < p /\ e = "prefix length cannot exceed 128: " +++ fmt.d p)
  end.
Proof.
  intros Hip.
  destruct (Z.lt_ge_cases p 0) as [Hneg | H0].
  { unfold IPv6ToNetworkID. cbv zeta.
    destruct (Z.ltb_spec p 0); [| lia]. left. split; [lia | reflexivity]. }
  destruct (Z.lt_ge_cases 128 p) as [Hbig | H128].
  { unfold IPv6ToNetworkID. cbv zeta.
    destruct (Z.ltb_spec p 0); [lia |]. destruct (Z.ltb_spec 128 p); [| lia].
    right. split; [lia | reflexivity]. }
  rewrite IPv6ToNetworkID_ok by lia.
  rewrite land_mask6 by lia.
  destruct (floor6 ip p Hip ltac:(lia)) as (Hid & Hd & Hal).
  refine (conj _ (conj eq_refl (conj Hid (conj Hd (conj Hal _))))); [lia |].
  rewrite IPv6ToNetworkID_ok by lia.
  rewrite land_mask6 by lia. rewrite Hal, Z.sub_0_r. reflexivity.
Qed.

Lemma IPv6ToNetworkID_floor_witness :
  match IPv6ToNetworkID 42540766411282592856903984951653826561 32 with
  | Ok id =>
      0 <= 32 <= 128 /\
      id = 42540766411282592856903984951653826561
           - 42540766411282592856903984951653826561 mod 2 ^ (128 - 32) /\
      0 <= id <= 42540766411282592856903984951653826561 /\
      42540766411282592856903984951653826561 - id < 2 ^ (128 - 32) /\
      id mod 2 ^ (128 - 32) = 0 /\
      IPv6ToNetworkID id 32 = Ok id
  | Err e =>
      (32 < 0 /\ e = "prefix length cannot be negative: " +++ fmt.d 32) \/
      (128 < 32 /\ e = "prefix length cannot exceed 128: " +++ fmt.d 32)
  end.
Proof.
  apply (IPv6ToNetworkID_floor 42540766411282592856903984951653826561 32).
  vm_compute. split; [discriminate | reflexivity].
Defined.

(** X17. A network that [CalculateIPv6Network] returns holds the address
    and the prefix length that [ParseIPv6] and [ParseIPv6Prefix] read, the
    mask of that many leading 1 bits out of 128, and the network id that
    [IPv6ToNetworkID] gives for them: the largest multiple of
    [2^(128 - prefixLen)] not above the address.  An error of
    [CalculateIPv6Network] is the error of one of the two parsers: the
    range checks written after them never fail. *)
Theorem CalculateIPv6Network_results ipStr prefixStr :
  match CalculateIPv6Network ipStr prefixStr with
  | Ok n =>
      ParseIPv6 ipStr = Ok (V6.Address n) /\
      ParseIPv6Prefix prefixStr = Ok (V6.PrefixLen n) /\
      0 <= V6.PrefixLen n <= 128 /\
      V6.NetworkMask n = prefix_mask6 (V6.PrefixLen n) /\
      IPv6ToNetworkID (V6.Address n) (V6.PrefixLen n) = Ok (V6.NetworkID n) /\
      0 <= V6.NetworkID n <= V6.Address n /\ V6.Address n < 2 ^ 128 /\
      V6.Address n - V6.NetworkID n < 2 ^ (128 - V6.PrefixLen n) /\
      V6.NetworkID n mod 2 ^ (128 - V6.PrefixLen n) = 0
  | Err e =>
      ParseIPv6 ipStr = Err e \/
      (is_ok (ParseIPv6 ipStr) = true /\ ParseIPv6Prefix prefixStr = Err e)
  end.
Proof.
  unfold CalculateIPv6Network.
  destruct (ParseIPv6 ipStr) as [ip | e] eqn:Eip; [| left; reflexivity].
  destruct (ParseIPv6Prefix prefixStr) as [p | e] eqn:Ep;
    [| right; split; reflexivity].
  assert (Hp : 0 <= p <= 128).
  { unfold ParseIPv6Prefix in Ep.
    destruct (strconv.Atoi (strings.TrimPrefix prefixStr "/")) as [m |];
      [| discriminate].
    destruct (Z.ltb_spec m 0); [discriminate |].
    destruct (Z.ltb_spec 128 m); [discriminate |].
    injection Ep as <-. lia. }
  assert (Hip : 0 <= ip < 2 ^ 128).
  { pose proof (ParseIPv6_bytes ipStr) as B. rewrite Eip in B.
    destruct (net.ParseIP ipStr) as [bytes |] eqn:E; [| discriminate].
    injection B as ->. apply SetBytes_16. eapply ParseIP_length. exact E. }
  cbv zeta.
  destruct (Z.ltb_spec p 0); [lia |]. destruct (Z.ltb_spec 128 p); [lia |].
  rewrite mask6_built by exact Hp.
  cbn [V6.Address V6.PrefixLen V6.NetworkID V6.NetworkMask].
  unfold big.And. rewrite land_mask6 by assumption.
  destruct (floor6 ip p Hip Hp) as (Hid & Hd & Hal).
  refine (conj eq_refl (conj eq_refl (conj Hp (conj eq_refl (conj _
           (conj Hid (conj _ (conj Hd Hal)))))))); [| lia].
  rewrite IPv6ToNetworkID_ok, land_mask6 by assumption. reflexivity.
Qed.

(** ** [FormatIPv6Binary] *)

Lemma Bytes_loop_acc todo : forall x acc,
  big.Bytes_loop todo x acc = big.Bytes_loop todo x [] ++ acc.
Proof.
  induction todo as [| t IH]; intros x acc; cbn [big.Bytes_loop].
  - reflexivity.
  - destruct (x =? 0); [reflexivity |].
    rewrite (IH _ (_ :: acc)), (IH _ [_]), <- app_assoc. reflexivity.
Qed.

Lemma be_bytes_zero n : be_bytes n 0 = repeat x00 n.
Proof.
  induction n as [| m IH]; [reflexivity |].
  cbn [be_bytes]. change (0 / 256) with 0. rewrite IH.
  change (net.uint8 (0 mod 256)) with x00.
  change [x00] with (repeat x00 1). rewrite <- repeat_app.
  f_equal. lia.
Qed.

Lemma pow256_step n : 256 ^ Z.of_nat (S n) = 256 * 256 ^ Z.of_nat n.
Proof. rewrite Nat2Z.inj_succ, Z.pow_succ_r by lia. reflexivity. Qed.

Lemma pow256_pos n : 0 < 256 ^ Z.of_nat n.
Proof. apply Z.pow_pos_nonneg; lia. Qed.

(** The bytes of [x], padded on the left to [n] bytes. *)
Lemma Bytes_loop_padded todo : forall n x,
  0 <= x < 256 ^ Z.of_nat n -> x < 256 ^ Z.of_nat todo ->
  (List.length (big.Bytes_loop todo x []) <= n)%nat /\
  repeat x00 (n - List.length (big.Bytes_loop todo x []))
    ++ big.Bytes_loop todo x []
  = be_bytes n x.
Proof.
  induction todo as [| t IH]; intros n x Hx Ht.
  - change (256 ^ Z.of_nat 0) with 1 in Ht. assert (x = 0) by lia. subst x.
    cbn [big.Bytes_loop List.length]. rewrite Nat.sub_0_r, app_nil_r.
    split; [lia | symmetry; apply be_bytes_zero].
  - cbn [big.Bytes_loop]. destruct (Z.eqb_spec x 0) as [-> | Hne].
    + cbn [List.length]. rewrite Nat.sub_0_r, app_nil_r.
      split; [lia | symmetry; apply be_bytes_zero].
    + destruct n as [| m].
      { change (256 ^ Z.of_nat 0) with 1 in Hx. lia. }
      rewrite pow256_step in Hx, Ht.
      assert (Hq : 0 <= x / 256 < 256 ^ Z.of_nat m).
      { split; [apply Z.div_pos; lia | apply Z.div_lt_upper_bound; lia]. }
      assert (Hq' : x / 256 < 256 ^ Z.of_nat t)
        by (apply Z.div_lt_upper_bound; lia).
      destruct (IH m (x / 256) Hq Hq') as (Hlen & Hpad).
      rewrite Bytes_loop_acc, length_app. cbn [List.length be_bytes].
      split; [lia |].
      replace (S m - (List.length (big.Bytes_loop t (x / 256) []) + 1))%nat
        with (m - List.length (big.Bytes_loop t (x / 256) []))%nat by lia.
      rewrite app_assoc, Hpad. reflexivity.
Qed.

Lemma Bytes_loop_long todo : forall n x,
  256 ^ Z.of_nat n <= x < 256 ^ Z.of_nat todo ->
  (n < List.length (big.Bytes_loop todo x []))%nat.
Proof.
  induction todo as [| t IH]; intros n x Hx.
  - pose proof (pow256_pos n). change (256 ^ Z.of_nat 0) with 1 in Hx. lia.
  - pose proof (pow256_pos n) as Hn.
    cbn [big.Bytes_loop]. destruct (Z.eqb_spec x 0) as [-> | Hne]; [lia |].
    rewrite Bytes_loop_acc, length_app. cbn [List.length].
    destruct n as [| m]; [lia |].
    rewrite !pow256_step in Hx.
    assert (256 ^ Z.of_nat m <= x / 256 < 256 ^ Z.of_nat t).
    { split; [apply Z.div_le_lower_bound; lia
             | apply Z.div_lt_upper_bound; lia]. }
    specialize (IH m (x / 256) ltac:(assumption)). lia.
Qed.

Lemma Bytes_fuel x :
  0 <= x -> x < 256 ^ Z.of_nat (S (Z.to_nat (Z.log2 x))).
Proof.
  intros Hx. rewrite Nat2Z.inj_succ, Z2Nat.id by apply Z.log2_nonneg.
  destruct (Z.eq_dec x 0) as [-> | Hne]; [reflexivity |].
  pose proof (Z.log2_spec x ltac:(lia)) as (_ & Hlt).
  pose proof (Z.log2_nonneg x) as Hl.
  eapply Z.lt_le_trans; [exact Hlt |].
  change 256 with (2 ^ 8). rewrite <- Z.pow_mul_r by lia.
  apply Z.pow_le_mono_r; lia.
Qed.

Lemma bits8_mod x : bits8 (x mod 256) 0 = bits8 x 0.
Proof.
  unfold bits8, bit_char. cbn [map].
  change 256 with (2 ^ 8). rewrite !Z.mod_pow2_bits_low by lia. reflexivity.
Qed.

Lemma bits8_div x lo : 0 <= lo -> bits8 (x / 256) lo = bits8 x (lo + 8).
Proof.
  intros Hlo. unfold bits8, bit_char. cbn [map].
  change 256 with (2 ^ 8). rewrite !Z.div_pow2_bits by lia.
  repeat match goal with
         | |- context [Z.testbit x (lo + ?j + 8)] =>
             replace (lo + j + 8) with (lo + 8 + j) by lia
         end.
  reflexivity.
Qed.

Lemma b08_byte x : fmt.b08 (net.uint32 (net.uint8 (x mod 256))) = bits8 x 0.
Proof.
  assert (H : 0 <= x mod 256 < 256) by (apply Z.mod_pos_bound; lia).
  rewrite uint32_uint8, b08_bits by exact H. apply bits8_mod.
Qed.

(** X18. [FormatIPv6Binary] prints the 128 bits of an address, the most
    significant one first, in eight groups of sixteen with a colon between
    them, 135 characters in all, whatever the number of leading zero bytes;
    on a number of more than 128 bits the copy into the 16-byte buffer
    panics. *)
Theorem FormatIPv6Binary_bits ip :
  0 <= ip ->
  (ip < 2 ^ 128 ->
   FormatIPv6Binary ip
   = Some (bits16 ip 112 +++ ":" +++ bits16 ip 96 +++ ":" +++ bits16 ip 80
           +++ ":" +++ bits16 ip 64 +++ ":" +++ bits16 ip 48 +++ ":"
           +++ bits16 ip 32 +++ ":" +++ bits16 ip 16 +++ ":" +++ bits16 ip 0) /\
   option_map String.length (FormatIPv6Binary ip) = Some 135%nat) /\
  (2 ^ 128 <= ip -> FormatIPv6Binary ip = None).
Proof.
  intros H0.
  pose proof (Bytes_fuel ip H0) as Hfuel.
  unfold FormatIPv6Binary, big.Bytes. rewrite (Z.abs_eq ip) by exact H0.
  set (todo := S (Z.to_nat (Z.log2 ip))) in *.
  split.
  - intros Hlt.
    destruct (Bytes_loop_padded todo 16 ip) as (Hlen & Hpad);
      [split; [exact H0 | exact Hlt] | exact Hfuel |].
    destruct (Z.ltb_spec 16 (Z.of_nat (List.length (big.Bytes_loop todo ip []))));
      [lia |].
    cbv zeta. rewrite Hpad.
    assert (E : strings.Join
                  (FormatIPv6Binary_group
                     (map (fun b => fmt.b08 (net.uint32 b)) (be_bytes 16 ip)))
                  ":"
                = bits16 ip 112 +++ ":" +++ bits16 ip 96 +++ ":"
                  +++ bits16 ip 80 +++ ":" +++ bits16 ip 64 +++ ":"
                  +++ bits16 ip 48 +++ ":" +++ bits16 ip 32 +++ ":"
                  +++ bits16 ip 16 +++ ":" +++ bits16 ip 0).
    { cbn [be_bytes app map FormatIPv6Binary_group strings.Join].
      rewrite !b08_byte.
      repeat rewrite bits8_div by lia.
      reflexivity. }
    rewrite E. split; reflexivity.
  - intros Hge.
    pose proof (Bytes_loop_long todo 16 ip (conj Hge Hfuel)) as Hlong.
    destruct (Z.ltb_spec 16 (Z.of_nat (List.length (big.Bytes_loop todo ip []))));
      [reflexivity | lia].
Qed.

Lemma FormatIPv6Binary_bits_witness :
  FormatIPv6Binary 1
  = Some (bits16 1 112 +++ ":" +++ bits16 1 96 +++ ":" +++ bits16 1 80
          +++ ":" +++ bits16 1 64 +++ ":" +++ bits16 1 48 +++ ":"
          +++ bits16 1 32 +++ ":" +++ bits16 1 16 +++ ":" +++ bits16 1 0).
Proof.
  destruct (FormatIPv6Binary_bits 1 ltac:(lia)) as (H & _).
  destruct H as (E & _); [vm_compute; reflexivity | exact E].
Defined.

(** * The command line *)

Lemma CutByte_none s c :
  strings.ContainsByte s c = false -> strings.CutByte s c = None.
Proof.
  induction s as [| x s IH]; cbn [strings.CutByte strings.ContainsByte].
  - reflexivity.
  - intros H. apply orb_false_iff in H. destruct H as [H1 H2].
    rewrite H1, (IH H2). reflexivity.
Qed.

Lemma IPToString_no_colon a :
  0 <= a < 2 ^ 32 -> strings.ContainsByte (IPToString a) ":" = false.
Proof.
  intros Ha. destruct (IPToString_dotted a Ha) as (g0 & g1 & g2 & g3 & -> & _).
  apply dotted_no_colon.
Qed.

(** X19. The argument forms of the normal mode: [ipcalc a/m] is
    [ipcalc a m]; arguments after the second one are ignored; a lone
    address gets the mask 64 when it holds a colon and 24 otherwise, so a
    lone IPv4 address [a] is shown as the /24 network from [a - a mod 256]
    to that plus 255. *)
Theorem handleNormal_forms ipStr maskStr rest :
  strings.ContainsByte ipStr "/" = false ->
  handleNormal [ipStr +++ "/" +++ maskStr] = handleNormal [ipStr; maskStr] /\
  handleNormal (ipStr :: maskStr :: rest) = handleNormal [ipStr; maskStr] /\
  handleNormal [ipStr]
  = handleNormal [ipStr; if strings.ContainsByte ipStr ":" then "64" else "24"] /\
  forall a, 0 <= a < 2 ^ 32 ->
    exists n,
      handleNormal [IPToString a] = Ok (IPv4Info n) /\
      Address n = a /\ BitCount n = 24 /\
      NetworkID n = a - a mod 256 /\ Broadcast n = NetworkID n + 255.
Proof.
  intros Hs. refine (conj _ (conj eq_refl (conj _ _))).
  - unfold handleNormal, handleNormal_args.
    change ("/" +++ maskStr) with (String "/" maskStr).
    rewrite (CutByte_app ipStr "/" maskStr Hs). reflexivity.
  - unfold handleNormal, handleNormal_args.
    rewrite (CutByte_none _ _ Hs). reflexivity.
  - intros a Ha.
    destruct (CalculateNetwork_printed a 24 Ha ltac:(lia)) as (n & E & _).
    change (fmt.d 24) with "24" in E.
    exists n. unfold handleNormal, handleNormal_args.
    rewrite (CutByte_none _ _ (IPToString_no_slash a Ha)).
    rewrite (IPToString_no_colon a Ha), E.
    split; [reflexivity |].
    destruct (CalculateNetwork_ok _ _ _ E)
      as (ip & q & Hip & Hm & _ & _ & Hadr & _ & Hbits & _).
    rewrite ParseIPv4_IPToString in Hip by exact Ha.
    change "24" with (fmt.d 24) in Hm.
    rewrite ParseNetmask_fmt_d in Hm by lia.
    assert (Eip : ip = a) by congruence. assert (Eq : q = 24) by congruence.
    rewrite Eip in Hadr. rewrite Eq in Hbits.
    destruct (CalculateNetwork_block _ _ _ E) as (_ & _ & _ & Hid & Hbc).
    rewrite Hbits, Hadr in Hid. rewrite Hbits in Hbc.
    change (2 ^ (32 - 24)) with 256 in Hid, Hbc.
    refine (conj Hadr (conj Hbits (conj Hid _))). lia.
Qed.

Lemma handleNormal_forms_witness :
  handleNormal ["10.1.2.3" +++ "/" +++ "16"] = handleNormal ["10.1.2.3"; "16"].
Proof.
  destruct (handleNormal_forms "10.1.2.3" "16" []) as (H & _);
    [reflexivity | exact H].
Defined.

Lemma handleSplit_sizes_spec sizeStrs : forall acc sizes,
  handleSplit_sizes sizeStrs acc = Ok sizes ->
  exists zs,
    sizes = acc ++ zs /\
    Forall2 (fun t z => strconv.Atoi t = Some z) sizeStrs zs.
Proof.
  induction sizeStrs as [| t rest IH]; intros acc sizes H;
    cbn [handleSplit_sizes] in H.
  - injection H as <-. exists []. rewrite app_nil_r. split; constructor.
  - destruct (strconv.Atoi t) as [z |] eqn:E; [| discriminate].
    destruct (IH _ _ H) as (zs & -> & F).
    exists (z :: zs). rewrite <- app_assoc. split; [reflexivity |].
    constructor; assumption.
Qed.

(** X20. The split mode: [ipcalc -s a/m sizes] is [ipcalc -s a m sizes];
    an address holding a colon never gets subnets; and the subnets printed
    are those that [SplitNetwork] returns for the sizes read as integers,
    one per size argument. *)
Theorem handleSplit_forms fuel ipStr maskStr sizeStrs :
  strings.ContainsByte ipStr "/" = false ->
  handleSplit fuel (ipStr +++ "/" +++ maskStr) sizeStrs
  = handleSplit fuel ipStr (maskStr :: sizeStrs) /\
  forall l, handleSplit fuel ipStr (maskStr :: sizeStrs) = Some (Ok l) ->
    strings.ContainsByte ipStr ":" = false /\
    List.length l = List.length sizeStrs /\
    exists sizes,
      Forall2 (fun t z => strconv.Atoi t = Some z) sizeStrs sizes /\
      SplitNetwork fuel ipStr maskStr sizes = Some (Ok l).
Proof.
  intros Hs. split.
  - unfold handleSplit. change ("/" +++ maskStr) with (String "/" maskStr).
    rewrite (CutByte_app ipStr "/" maskStr Hs).
    rewrite (CutByte_none _ _ Hs). reflexivity.
  - intros l. unfold handleSplit. rewrite (CutByte_none _ _ Hs).
    destruct (handleSplit_sizes sizeStrs []) as [sizes | e] eqn:E;
      [| discriminate].
    destruct (handleSplit_sizes_spec _ _ _ E) as (zs & -> & F).
    cbn [app] in *.
    destruct (strings.ContainsByte ipStr ":"); [discriminate |].
    destruct (SplitNetwork fuel ipStr maskStr zs) as [[networks | e] |] eqn:S;
      try discriminate.
    intros H. injection H as <-.
    pose proof (SplitNetwork_length _ _ _ _ _ S) as L.
    refine (conj eq_refl (conj _ _)).
    + rewrite L. symmetry. eapply Forall2_length. exact F.
    + exists zs. split; [exact F | exact S].
Qed.

Lemma handleSplit_forms_witness :
  handleSplit 5 ("192.168.0.0" +++ "/" +++ "24") ["100"; "50"]
  = handleSplit 5 "192.168.0.0" ["24"; "100"; "50"].
Proof.
  destruct (handleSplit_forms 5 "192.168.0.0" "24" ["100"; "50"]) as (H & _);
    [reflexivity | exact H].
Defined.
